(** * Temporal Fusion Transformer plugin ([darts/models/forecasting/tft_copy.py])

    A shallow embedding of the algorithmic parts of the file: the attention
    mask of [_TFTModule], the construction of the variable groups in
    [TFTModel._create_model], the object graph built by [_TFTModule.__init__],
    the configuration checks of [TFTModel.__init__], the state footprint of
    [_TFTModule.forward], and the autoregressive rollout
    [TFTModel._get_batch_prediction].

    Python integers are [Z]; tensor dimensions are [nat]; Python exceptions
    are values of [PyExn] carried by the [result] type. *)

From Stdlib Require Import String DecimalString DecimalNat.
From Stdlib Require Import ZArith QArith Bool Lia FinFun List.
Import ListNotations.
Open Scope string_scope.
Open Scope list_scope.
Open Scope Z_scope.

(** ** Exceptions and results *)

Inductive PyExn : Type :=
| RuntimeError (msg : string)
| ValueError (msg : string)
| TypeError (msg : string)
| IndexError (msg : string)
| AttributeError (msg : string)
| KeyError (msg : string)
| NotImplementedError (msg : string).

(** The outcome of a call: a value, a raised exception, or a [while] loop
    that was still running when the iteration budget ran out. *)
Inductive result (A : Type) : Type :=
| Ok (a : A)
| Raise (e : PyExn)
| OutOfFuel.

Arguments Ok {A} a.
Arguments Raise {A} e.
Arguments OutOfFuel {A}.

Definition rbind {A B : Type} (r : result A) (k : A -> result B) : result B :=
  match r with
  | Ok a => k a
  | Raise e => Raise e
  | OutOfFuel => OutOfFuel
  end.

Notation "'let*' x ':=' r 'in' k" := (rbind r (fun x => k))
  (at level 10, x pattern, r at level 100, k at level 200).

Definition is_ok {A : Type} (r : result A) : bool :=
  match r with Ok _ => true | _ => false end.

(** ** Calls that run over a state and may raise

    A call started in a state ends with a result and a state; after a raise
    the state reached so far is kept, as Python keeps the mutations made
    before an exception. *)

Module StateResult.

Definition M (S A : Type) : Type := S -> result A * S.

Definition ret {S A : Type} (a : A) : M S A := fun s => (Ok a, s).

Definition bind {S A B : Type} (c : M S A) (k : A -> M S B) : M S B :=
  fun s => match c s with
           | (Ok a, s') => k a s'
           | (Raise e, s') => (Raise e, s')
           | (OutOfFuel, s') => (OutOfFuel, s')
           end.

(** An operation that touches no state. *)
Definition pure {S A : Type} (r : result A) : M S A := fun s => (r, s).

Lemma bind_ok {S A B : Type} (c : M S A) (k : A -> M S B) (s s' : S) (a : A) :
  c s = (Ok a, s') -> bind c k s = k a s'.
Proof. intros E. unfold bind. now rewrite E. Qed.

Lemma bind_pure_ok {S A B : Type} (r : result A) (k : A -> M S B) (s : S) (a : A) :
  r = Ok a -> bind (pure r) k s = k a s.
Proof. intros ->. reflexivity. Qed.

(** Two sequences agree when their first calls agree and their
    continuations agree on every value and state. *)
Lemma bind_ext {S A B : Type} (c1 c2 : M S A) (k1 k2 : A -> M S B) (s : S) :
  c1 s = c2 s -> (forall a s', k1 a s' = k2 a s') ->
  bind c1 k1 s = bind c2 k2 s.
Proof.
  intros Hc Hk. unfold bind. rewrite Hc.
  destruct (c2 s) as [[a| e |] s']; [apply Hk | reflexivity ..].
Qed.

(** The same for the results alone, from two different states. *)
Lemma bind_result_ext {S A B : Type} (c1 c2 : M S A) (k1 k2 : A -> M S B)
  (s1 s2 : S) :
  fst (c1 s1) = fst (c2 s2) ->
  (forall a s1' s2', fst (k1 a s1') = fst (k2 a s2')) ->
  fst (bind c1 k1 s1) = fst (bind c2 k2 s2).
Proof.
  intros Hc Hk. unfold bind.
  destruct (c1 s1) as [r1 s1'], (c2 s2) as [r2 s2']. cbn [fst] in Hc. subst r2.
  destruct r1 as [a| e |]; [apply Hk | reflexivity ..].
Qed.

(** A sequence that returns: its first call returned, and so did the rest. *)
Lemma bind_inv {S A B : Type} (c : M S A) (k : A -> M S B) (s s2 : S) (b : B) :
  bind c k s = (Ok b, s2) ->
  exists a s1, c s = (Ok a, s1) /\ k a s1 = (Ok b, s2).
Proof.
  unfold bind. destruct (c s) as [[a| e |] s1]; intros H;
    [now exists a, s1 | discriminate ..].
Qed.

Lemma bind_pure_inv {S A B : Type} (r : result A) (k : A -> M S B) (s s2 : S) (b : B) :
  bind (pure r) k s = (Ok b, s2) ->
  exists a, r = Ok a /\ k a s = (Ok b, s2).
Proof.
  intros H. apply bind_inv in H. destruct H as (a & s1 & E & H).
  unfold pure in E. injection E as -> <-. now exists a.
Qed.

(** A sequence runs out of budget only where one of its calls does. *)
Lemma bind_fuel {S A B : Type} (c : M S A) (k : A -> M S B) (s : S) :
  fst (c s) <> OutOfFuel ->
  (forall a s1, fst (k a s1) <> OutOfFuel) ->
  fst (bind c k s) <> OutOfFuel.
Proof.
  intros Hc Hk. unfold bind. destruct (c s) as [[a| e |] s1]; cbn [fst] in *;
    [apply Hk | discriminate | contradiction].
Qed.


End StateResult.

(** ** Attention mask ([_TFTModule.get_attention_mask], [_TFTModule.create_mask]) *)

Module AttentionMask.

(** [torch.arange(n)]: the steps [0 .. n-1]; a negative bound is refused. *)
Definition arange (n : Z) : result (list Z) :=
  if n <? 0
  then Raise (RuntimeError "upper bound and larger bound inconsistent with step sign")
  else Ok (map Z.of_nat (seq 0 (Z.to_nat n))).

(** [lengths.max()]: the reduction is undefined on an empty tensor. *)
Definition tensor_max (lengths : list Z) : result Z :=
  match lengths with
  | [] => Raise (RuntimeError "max(): Expected reduction dim to be specified for input.numel() == 0")
  | l :: ls => Ok (fold_left Z.max ls l)
  end.

(** [create_mask(size, lengths, inverse)]: row [i], column [j] compares the
    step [j] of [arange(size)] with [lengths[i]]. *)
Definition create_mask (size : Z) (lengths : list Z) (inverse : bool)
  : result (list (list bool)) :=
  let* steps := arange size in
  if inverse
  then Ok (map (fun len => map (fun j => j <? len) steps) lengths)
  else Ok (map (fun len => map (fun j => j >=? len) steps) lengths).

(** [get_attention_mask(encoder_lengths, decoder_length, device)].  The
    result is indexed sample, then query (predict) step, then key (attend)
    step; the encoder columns come first along the key axis. *)
Definition get_attention_mask (encoder_lengths : list Z) (decoder_length : Z)
  : result (list (list (list bool))) :=
  let* attend_step := arange decoder_length in
  let* predict_step := arange decoder_length in
  let decoder_mask :=
    map (fun p => map (fun a => a >=? p) attend_step) predict_step in
  let* size := tensor_max encoder_lengths in
  let* encoder_mask := create_mask size encoder_lengths false in
  Ok (map (fun enc_row => map (fun dec_row => enc_row ++ dec_row) decoder_mask)
          encoder_mask).

(** Entry [(i, q, k)] of a mask. *)
Definition entry (mask : list (list (list bool))) (i q k : nat) : bool :=
  nth k (nth q (nth i mask []) []) false.

(** A mask has shape [(b, d, w)]. *)
Definition has_shape (mask : list (list (list bool))) (b d w : nat) : Prop :=
  length mask = b /\
  forall i, (i < b)%nat ->
    length (nth i mask []) = d /\
    forall q, (q < d)%nat -> length (nth q (nth i mask []) []) = w.

(** The encoder width of the mask: the largest encoder length. *)
Definition encoder_width (encoder_lengths : list Z) : nat :=
  match encoder_lengths with
  | [] => 0%nat
  | l :: ls => Z.to_nat (fold_left Z.max ls l)
  end.

(** Masking rule the code implements: padded encoder step, or a decoder key
    step at or after the query step. *)
Definition masked_code (encoder_lengths : list Z) (i q k : nat) : Prop :=
  let e := encoder_width encoder_lengths in
  ((k < e)%nat /\ nth i encoder_lengths 0 <= Z.of_nat k) \/
  ((e <= k)%nat /\ (q <= k - e)%nat).

(** Masking rule with a strict causal comparison: padded encoder step, or a
    decoder key step strictly after the query step. *)
Definition masked_strict (encoder_lengths : list Z) (i q k : nat) : Prop :=
  let e := encoder_width encoder_lengths in
  ((k < e)%nat /\ nth i encoder_lengths 0 <= Z.of_nat k) \/
  ((e <= k)%nat /\ (q < k - e)%nat).

Lemma arange_ok (n : Z) :
  0 <= n -> arange n = Ok (map Z.of_nat (seq 0 (Z.to_nat n))).
Proof.
  intros H. unfold arange. destruct (n <? 0) eqn:E; [lia | reflexivity].
Qed.

Lemma nth_arange (n k : nat) :
  (k < n)%nat -> nth k (map Z.of_nat (seq 0 n)) 0 = Z.of_nat k.
Proof.
  intros H. change 0 with (Z.of_nat 0).
  rewrite map_nth, seq_nth by assumption. reflexivity.
Qed.

Lemma nth_map_in {A B : Type} (f : A -> B) (l : list A) (n : nat) (da : A) (db : B) :
  (n < length l)%nat -> nth n (map f l) db = f (nth n l da).
Proof.
  revert n. induction l as [|x l IH]; intros [|n] H; simpl in *; try lia; auto.
  apply IH. lia.
Qed.

Lemma fold_max_ge (ls : list Z) (l : Z) : l <= fold_left Z.max ls l.
Proof.
  revert l. induction ls as [|x ls IH]; intros l; simpl; [lia|].
  specialize (IH (Z.max l x)). lia.
Qed.

Lemma create_mask_ok (size : Z) (lengths : list Z) :
  0 <= size ->
  create_mask size lengths false =
  Ok (map (fun len => map (fun j => j >=? len) (map Z.of_nat (seq 0 (Z.to_nat size))))
          lengths).
Proof.
  intros H. unfold create_mask. rewrite arange_ok by assumption. reflexivity.
Qed.

(** Closed form of the mask on a non-empty batch of non-negative lengths. *)
Lemma get_attention_mask_ok (encoder_lengths : list Z) (decoder_length : Z) :
  encoder_lengths <> [] ->
  Forall (fun l => 0 <= l) encoder_lengths ->
  0 <= decoder_length ->
  get_attention_mask encoder_lengths decoder_length =
  Ok (map (fun len =>
             map (fun p =>
                    map (fun j => j >=? len)
                        (map Z.of_nat (seq 0 (encoder_width encoder_lengths)))
                    ++ map (fun a => a >=? p)
                        (map Z.of_nat (seq 0 (Z.to_nat decoder_length))))
                 (map Z.of_nat (seq 0 (Z.to_nat decoder_length))))
          encoder_lengths).
Proof.
  intros Hne Hpos Hd. unfold get_attention_mask.
  rewrite arange_ok by assumption. cbn [rbind].
  destruct encoder_lengths as [|l ls]; [congruence|].
  cbn [tensor_max rbind encoder_width].
  rewrite create_mask_ok.
  - cbn [rbind]. f_equal. rewrite map_map. apply map_ext. intros len.
    rewrite map_map. reflexivity.
  - inversion Hpos; subst. pose proof (fold_max_ge ls l). lia.
Qed.

(** C1 (as the code behaves): on a non-empty batch of non-negative encoder
    lengths the mask has shape (batch, decoder_length, E + decoder_length),
    with E the largest encoder length, and entry (i, q, k) is True exactly
    when k is an encoder step at or beyond sample i's length, or k is a
    decoder step whose index is at or after the query step q (a query step
    is masked from itself as well as from later steps). *)
Theorem attention_mask_shape_and_entries
  (encoder_lengths : list Z) (decoder_length : Z) :
  encoder_lengths <> [] ->
  Forall (fun l => 0 <= l) encoder_lengths ->
  0 <= decoder_length ->
  exists mask,
    get_attention_mask encoder_lengths decoder_length = Ok mask /\
    has_shape mask (length encoder_lengths) (Z.to_nat decoder_length)
              (encoder_width encoder_lengths + Z.to_nat decoder_length) /\
    forall i q k,
      (i < length encoder_lengths)%nat ->
      (q < Z.to_nat decoder_length)%nat ->
      (k < encoder_width encoder_lengths + Z.to_nat decoder_length)%nat ->
      (entry mask i q k = true <-> masked_code encoder_lengths i q k).
Proof.
  intros Hne Hpos Hd. eexists. split; [apply get_attention_mask_ok; assumption|].
  set (e := encoder_width encoder_lengths). set (d := Z.to_nat decoder_length).
  split.
  - split; [now rewrite length_map|].
    intros i Hi. rewrite (nth_map_in _ _ _ 0) by assumption.
    split; [now rewrite !length_map, length_seq|].
    intros q Hq. rewrite (nth_map_in _ _ _ 0) by now rewrite length_map, length_seq.
    rewrite length_app, !length_map, !length_seq. reflexivity.
  - intros i q k Hi Hq Hk. unfold entry, masked_code. fold e.
    rewrite (nth_map_in _ _ _ 0) by assumption.
    rewrite (nth_map_in _ _ _ 0) by now rewrite length_map, length_seq.
    rewrite nth_arange by assumption.
    destruct (Nat.lt_ge_cases k e) as [Hke|Hke].
    + rewrite app_nth1 by now rewrite !length_map, length_seq.
      rewrite (nth_map_in _ _ _ 0) by now rewrite length_map, length_seq.
      rewrite nth_arange by assumption.
      rewrite Z.geb_le. split; [intros H; left; split; assumption|].
      intros [[_ H]|[H _]]; [assumption|lia].
    + rewrite app_nth2 by now rewrite !length_map, length_seq.
      rewrite !length_map, length_seq.
      rewrite (nth_map_in _ _ _ 0) by (rewrite length_map, length_seq; lia).
      rewrite nth_arange by lia.
      rewrite Z.geb_le. split; [intros H; right; split; [assumption|lia]|].
      intros [[H _]|[_ H]]; lia.
Qed.

(** The theorem at the batch of the specification's test: encoder lengths
    5 and 3, decoder length 4. *)
Lemma attention_mask_shape_and_entries_witness :
  exists mask,
    get_attention_mask [5; 3] 4 = Ok mask /\
    has_shape mask 2 4 9 /\
    forall i q k, (i < 2)%nat -> (q < 4)%nat -> (k < 9)%nat ->
      (entry mask i q k = true <-> masked_code [5; 3] i q k).
Proof.
  apply (attention_mask_shape_and_entries [5; 3] 4).
  - discriminate.
  - repeat constructor; lia.
  - lia.
Defined.

(** C1 (as stated) fails: with encoder lengths 5 and 3 and decoder length 4,
    the entry of sample 0 at query step 1 and key column 6 (decoder step 1,
    the query step itself) is True, while the strict rule leaves it False. *)
Lemma strict_causality_counterexample :
  ~ (forall (encoder_lengths : list Z) (decoder_length : Z) mask (i q k : nat),
       get_attention_mask encoder_lengths decoder_length = Ok mask ->
       (i < length encoder_lengths)%nat ->
       (q < Z.to_nat decoder_length)%nat ->
       (k < encoder_width encoder_lengths + Z.to_nat decoder_length)%nat ->
       (entry mask i q k = true <-> masked_strict encoder_lengths i q k)).
Proof.
  intros H.
  destruct (get_attention_mask [5; 3] 4) as [mask| |] eqn:E; try discriminate.
  specialize (H [5; 3] 4 mask 0%nat 1%nat 6%nat E).
  vm_compute in E. injection E as <-.
  assert (Hi : (0 < length [5%Z; 3%Z])%nat) by (cbn; lia).
  assert (Hq : (1 < Z.to_nat 4)%nat) by lia.
  assert (Hk : (6 < encoder_width [5%Z; 3%Z] + Z.to_nat 4)%nat) by (cbn; lia).
  destruct (H Hi Hq Hk) as [Hstrict _].
  assert (He : encoder_width [5%Z; 3%Z] = 5%nat) by reflexivity.
  unfold masked_strict in Hstrict. rewrite He in Hstrict.
  destruct (Hstrict eq_refl) as [[Hlt _]|[_ Hlt]]; lia.
Qed.

(** *** Further facts about the masks *)

(** [create_mask]: with [inverse=True] an entry is True where the step is
    inside the length, as the docstring puts it; the default is the
    complement. *)
Theorem create_mask_shape_and_entries (size : Z) (lengths : list Z) (inverse : bool) :
  0 <= size ->
  exists mask,
    create_mask size lengths inverse = Ok mask /\
    length mask = length lengths /\
    forall i, (i < length lengths)%nat ->
      length (nth i mask []) = Z.to_nat size /\
      forall j, (j < Z.to_nat size)%nat ->
        nth j (nth i mask []) false =
        if inverse then Z.of_nat j <? nth i lengths 0
        else negb (Z.of_nat j <? nth i lengths 0).
Proof.
  intros Hsize. unfold create_mask. rewrite arange_ok by assumption. cbn [rbind].
  destruct inverse; eexists; (split; [reflexivity|]);
    (split; [now rewrite length_map|]); intros i Hi;
    rewrite (nth_map_in _ _ _ 0) by assumption;
    (split; [now rewrite !length_map, length_seq|]); intros j Hj;
    rewrite (nth_map_in _ _ _ 0) by (now rewrite length_map, length_seq);
    rewrite nth_arange by assumption; [reflexivity|].
  rewrite Z.geb_leb, Z.ltb_antisym. now rewrite Bool.negb_involutive.
Qed.

Lemma create_mask_shape_and_entries_witness :
  exists mask,
    create_mask 4 [2; 5] true = Ok mask /\
    length mask = 2%nat /\
    forall i, (i < 2)%nat ->
      length (nth i mask []) = 4%nat /\
      forall j, (j < 4)%nat ->
        nth j (nth i mask []) false = (Z.of_nat j <? nth i [2; 5] 0).
Proof. apply (create_mask_shape_and_entries 4 [2; 5] true). lia. Defined.

(** The largest entry of a non-empty list. *)
Lemma fold_max_repeat (x : Z) (n : nat) : fold_left Z.max (repeat x n) x = x.
Proof. induction n as [|n IH]; simpl; [reflexivity|]. now rewrite Z.max_id. Qed.

Lemma fold_max_nonneg (ls : list Z) (l : Z) :
  Forall (fun x => 0 <= x) (l :: ls) -> 0 <= fold_left Z.max ls l.
Proof.
  intros H. inversion H; subst. pose proof (fold_max_ge ls l). lia.
Qed.

Lemma fold_max_upper (ls : list Z) :
  forall l x, In x (l :: ls) -> x <= fold_left Z.max ls l.
Proof.
  induction ls as [|a ls IH]; intros l x Hx; simpl in *.
  - destruct Hx as [Hx|[]]. lia.
  - destruct Hx as [Hx|[Hx|Hx]].
    + pose proof (fold_max_ge ls (Z.max l a)). lia.
    + pose proof (fold_max_ge ls (Z.max l a)). lia.
    + apply IH. now right.
Qed.

(** [get_attention_mask] returns exactly on a non-empty batch whose largest
    length is not negative, with a decoder length that is not negative;
    otherwise it raises. *)
Theorem get_attention_mask_returns_iff (encoder_lengths : list Z) (decoder_length : Z) :
  is_ok (get_attention_mask encoder_lengths decoder_length) = true <->
  0 <= decoder_length /\
  exists l ls, encoder_lengths = l :: ls /\ 0 <= fold_left Z.max ls l.
Proof.
  unfold get_attention_mask, arange.
  destruct (decoder_length <? 0) eqn:Ed; cbn [rbind is_ok].
  - split; [discriminate|]. intros [H _]. lia.
  - apply Z.ltb_ge in Ed.
    destruct encoder_lengths as [|l ls]; cbn [tensor_max rbind is_ok].
    + split; [discriminate|]. intros (_ & l & ls & H & _). discriminate.
    + unfold create_mask, arange.
      destruct (fold_left Z.max ls l <? 0) eqn:Em; cbn [rbind is_ok].
      * split; [discriminate|]. intros (_ & l' & ls' & H & Hm).
        injection H as <- <-. lia.
      * apply Z.ltb_ge in Em. split; [|reflexivity].
        intros _. split; [assumption|]. now exists l, ls.
Qed.

(** Closed form of one entry. *)
Lemma entry_closed_form (encoder_lengths : list Z) (decoder_length : Z) (i q k : nat) :
  (i < length encoder_lengths)%nat ->
  (q < Z.to_nat decoder_length)%nat ->
  (k < encoder_width encoder_lengths + Z.to_nat decoder_length)%nat ->
  entry
    (map (fun len =>
            map (fun p =>
                   map (fun j => j >=? len)
                       (map Z.of_nat (seq 0 (encoder_width encoder_lengths)))
                   ++ map (fun a => a >=? p)
                       (map Z.of_nat (seq 0 (Z.to_nat decoder_length))))
                (map Z.of_nat (seq 0 (Z.to_nat decoder_length))))
         encoder_lengths) i q k =
  if (k <? encoder_width encoder_lengths)%nat
  then nth i encoder_lengths 0 <=? Z.of_nat k
  else (q <=? k - encoder_width encoder_lengths)%nat.
Proof.
  intros Hi Hq Hk. unfold entry.
  set (e := encoder_width encoder_lengths) in *.
  rewrite (nth_map_in _ _ _ 0) by assumption.
  rewrite (nth_map_in _ _ _ 0) by now rewrite length_map, length_seq.
  rewrite nth_arange by assumption.
  destruct (k <? e)%nat eqn:Eke.
  - apply Nat.ltb_lt in Eke.
    rewrite app_nth1 by now rewrite !length_map, length_seq.
    rewrite (nth_map_in _ _ _ 0) by now rewrite length_map, length_seq.
    rewrite nth_arange by assumption. apply Z.geb_leb.
  - apply Nat.ltb_ge in Eke.
    rewrite app_nth2 by now rewrite !length_map, length_seq.
    rewrite !length_map, length_seq.
    rewrite (nth_map_in _ _ _ 0) by (rewrite length_map, length_seq; lia).
    rewrite nth_arange by lia. rewrite Z.geb_leb.
    apply eq_true_iff_eq. rewrite Z.leb_le, Nat.leb_le. lia.
Qed.

(** The mask [forward] builds: every sample has the encoder length
    [input_chunk_length], so no encoder step is masked and the mask is the
    causal one alone. *)
Theorem constant_lengths_mask_is_causal (batch : nat) (icl ocl : Z) :
  (1 <= batch)%nat -> 0 <= icl -> 0 <= ocl ->
  exists mask,
    get_attention_mask (repeat icl batch) ocl = Ok mask /\
    has_shape mask batch (Z.to_nat ocl) (Z.to_nat icl + Z.to_nat ocl) /\
    forall i q k,
      (i < batch)%nat -> (q < Z.to_nat ocl)%nat ->
      (k < Z.to_nat icl + Z.to_nat ocl)%nat ->
      (entry mask i q k = true <-> (Z.to_nat icl + q <= k)%nat).
Proof.
  intros Hb Hicl Hocl.
  assert (Hw : encoder_width (repeat icl batch) = Z.to_nat icl).
  { destruct batch as [|b]; [lia|]. cbn [repeat encoder_width].
    now rewrite fold_max_repeat. }
  assert (Hlen : length (repeat icl batch) = batch) by apply repeat_length.
  eexists. split.
  { apply get_attention_mask_ok; try assumption.
    - destruct batch; [lia | discriminate].
    - apply Forall_forall. intros x Hx. apply repeat_spec in Hx. now subst. }
  rewrite Hw. split.
  - split; [now rewrite length_map|].
    intros i Hi. rewrite (nth_map_in _ _ _ 0) by now rewrite Hlen.
    split; [now rewrite !length_map, length_seq|].
    intros q Hq. rewrite (nth_map_in _ _ _ 0) by now rewrite length_map, length_seq.
    rewrite length_app, !length_map, !length_seq. reflexivity.
  - intros i q k Hi Hq Hk.
    pose proof (entry_closed_form (repeat icl batch) ocl i q k) as Hentry.
    rewrite Hw in Hentry. rewrite Hentry by (rewrite ?Hlen; assumption).
    assert (Hnth : nth i (repeat icl batch) 0 = icl).
    { apply (repeat_spec batch icl). apply nth_In. now rewrite Hlen. }
    rewrite Hnth.
    destruct (k <? Z.to_nat icl)%nat eqn:Eke.
    + apply Nat.ltb_lt in Eke. rewrite Z.leb_le. lia.
    + apply Nat.ltb_ge in Eke. rewrite Nat.leb_le. lia.
Qed.

Lemma constant_lengths_mask_is_causal_witness :
  exists mask,
    get_attention_mask (repeat 5 2) 2 = Ok mask /\
    has_shape mask 2 2 7 /\
    forall i q k, (i < 2)%nat -> (q < 2)%nat -> (k < 7)%nat ->
      (entry mask i q k = true <-> (5 + q <= k)%nat).
Proof.
  apply (constant_lengths_mask_is_causal 2 5 2); lia.
Defined.

(** A query step has a key it may attend to exactly when it is not the
    first decoder step or its sample has a positive encoder length: the
    first query of a sample without history is masked from every key. *)
Theorem query_has_unmasked_key_iff
  (encoder_lengths : list Z) (decoder_length : Z) (i q : nat) :
  Forall (fun l => 0 <= l) encoder_lengths ->
  (i < length encoder_lengths)%nat ->
  (q < Z.to_nat decoder_length)%nat ->
  exists mask,
    get_attention_mask encoder_lengths decoder_length = Ok mask /\
    ((exists k,
        (k < encoder_width encoder_lengths + Z.to_nat decoder_length)%nat /\
        entry mask i q k = false)
     <-> (1 <= q)%nat \/ 0 < nth i encoder_lengths 0).
Proof.
  intros Hpos Hi Hq.
  assert (Hne : encoder_lengths <> []) by (destruct encoder_lengths; simpl in Hi; [lia | discriminate]).
  eexists. split; [apply get_attention_mask_ok; [assumption .. | lia]|].
  assert (Hle : nth i encoder_lengths 0 <= Z.of_nat (encoder_width encoder_lengths)).
  { destruct encoder_lengths as [|l ls]; [contradiction|].
    cbn [encoder_width].
    pose proof (fold_max_upper ls l) as G.
    pose proof (fold_max_nonneg ls l Hpos).
    specialize (G (nth i (l :: ls) 0) (nth_In _ _ Hi)). lia. }
  split.
  - intros (k & Hk & Hentry).
    rewrite entry_closed_form in Hentry by assumption.
    destruct (k <? encoder_width encoder_lengths)%nat eqn:Eke.
    + apply Z.leb_gt in Hentry. right. lia.
    + apply Nat.ltb_ge in Eke. apply Nat.leb_gt in Hentry. left. lia.
  - intros [Hq1|Hlen].
    + exists (encoder_width encoder_lengths). split; [lia|].
      rewrite entry_closed_form by lia.
      rewrite Nat.ltb_irrefl. apply Nat.leb_gt. lia.
    + exists 0%nat. split; [lia|]. rewrite entry_closed_form by lia.
      destruct (0 <? encoder_width encoder_lengths)%nat eqn:E0;
        [apply Z.leb_gt; lia|].
      apply Nat.ltb_ge in E0. lia.
Qed.

Lemma query_has_unmasked_key_iff_witness :
  exists mask,
    get_attention_mask [0; 3] 2 = Ok mask /\
    ((exists k, (k < encoder_width [0%Z; 3%Z] + Z.to_nat 2)%nat /\
                entry mask 0 0 k = false)
     <-> (1 <= 0)%nat \/ 0 < nth 0 [0; 3] 0).
Proof.
  apply (query_has_unmasked_key_iff [0; 3] 2 0 0).
  - repeat constructor; lia.
  - simpl. lia.
  - lia.
Defined.

End AttentionMask.

(** ** Insertion-ordered dictionaries with string keys

    A Python [dict] (and a torch [ModuleDict]) keeps its keys in insertion
    order; assigning to a key that is present replaces the value in place. *)

Module PyDict.

Definition dict (V : Type) : Type := list (string * V).

Fixpoint get {V : Type} (d : dict V) (k : string) : option V :=
  match d with
  | [] => None
  | (k', v) :: d' => if String.eqb k k' then Some v else get d' k
  end.

Definition mem {V : Type} (d : dict V) (k : string) : bool :=
  match get d k with Some _ => true | None => false end.

(** [d[k] = v] *)
Fixpoint set {V : Type} (d : dict V) (k : string) (v : V) : dict V :=
  match d with
  | [] => [(k, v)]
  | (k', v') :: d' =>
      if String.eqb k k' then (k', v) :: d' else (k', v') :: set d' k v
  end.

Definition keys {V : Type} (d : dict V) : list string := map fst d.

(** [{name: f(name) for name in names}] *)
Definition comprehension {V : Type} (f : string -> V) (names : list string) : dict V :=
  fold_left (fun d name => set d name (f name)) names [].

(** [dict.fromkeys(names)] *)
Definition fromkeys (names : list string) : dict unit :=
  fold_left (fun d name => set d name tt) names [].

(** [list(dict.fromkeys(names))] *)
Definition unique (names : list string) : list string := keys (fromkeys names).

Lemma get_In_keys {V : Type} (d : dict V) (k : string) :
  In k (keys d) <-> get d k <> None.
Proof.
  induction d as [|[k' v] d IH]; simpl.
  - split; [tauto | congruence].
  - destruct (String.eqb k k') eqn:E.
    + apply String.eqb_eq in E. subst. split; [discriminate | auto].
    + apply String.eqb_neq in E. rewrite <- IH. split.
      * intros [H|H]; [congruence | assumption].
      * auto.
Qed.

Lemma mem_In_keys {V : Type} (d : dict V) (k : string) :
  mem d k = true <-> In k (keys d).
Proof.
  rewrite get_In_keys. unfold mem. destruct (get d k); split; congruence.
Qed.

Lemma keys_set {V : Type} (d : dict V) (k : string) (v : V) :
  keys (set d k v) = if mem d k then keys d else keys d ++ [k].
Proof.
  unfold mem. induction d as [|[k' v'] d IH]; simpl; [reflexivity|].
  destruct (String.eqb k k') eqn:E; simpl; [reflexivity|].
  rewrite IH. destruct (get d k); reflexivity.
Qed.

Lemma get_set_same {V : Type} (d : dict V) (k : string) (v : V) :
  get (set d k v) k = Some v.
Proof.
  induction d as [|[k' v'] d IH]; simpl.
  - now rewrite String.eqb_refl.
  - destruct (String.eqb k k') eqn:E; simpl; rewrite E; auto.
Qed.

Lemma get_set_other {V : Type} (d : dict V) (k k' : string) (v : V) :
  k <> k' -> get (set d k v) k' = get d k'.
Proof.
  intros Hne. induction d as [|[k0 v0] d IH]; simpl.
  - destruct (String.eqb k' k) eqn:E; [|reflexivity].
    apply String.eqb_eq in E. congruence.
  - destruct (String.eqb k k0) eqn:E; simpl.
    + apply String.eqb_eq in E. subst k0.
      destruct (String.eqb k' k) eqn:E'; [|reflexivity].
      apply String.eqb_eq in E'. congruence.
    + destruct (String.eqb k' k0); [reflexivity | exact IH].
Qed.

Lemma NoDup_keys_set {V : Type} (d : dict V) (k : string) (v : V) :
  NoDup (keys d) -> NoDup (keys (set d k v)).
Proof.
  intros H. rewrite keys_set. destruct (mem d k) eqn:E; [assumption|].
  apply NoDup_app; [assumption | repeat constructor; simpl; tauto |].
  intros x Hx [<-|[]]. apply mem_In_keys in Hx. congruence.
Qed.

(** Keys after a run of insertions starting from [d]. *)
Lemma keys_fold_set {V : Type} (f : string -> V) (names : list string) (d : dict V) :
  NoDup (keys d) ->
  let d' := fold_left (fun d name => set d name (f name)) names d in
  NoDup (keys d') /\
  (forall k, In k (keys d') <-> In k (keys d) \/ In k names) /\
  (NoDup names -> (forall k, In k names -> ~ In k (keys d)) ->
   keys d' = keys d ++ names).
Proof.
  revert d. induction names as [|n names IH]; intros d Hd; simpl.
  - repeat split; auto; try tauto. intros _ _. now rewrite app_nil_r.
  - specialize (IH (set d n (f n)) (NoDup_keys_set d n (f n) Hd)).
    simpl in IH. destruct IH as (IH1 & IH2 & IH3).
    split; [exact IH1|]. split.
    + intros k. rewrite IH2, keys_set.
      destruct (mem d n) eqn:E.
      * apply mem_In_keys in E. split; [tauto|].
        intros [H|[<-|H]]; auto.
      * rewrite in_app_iff. simpl. tauto.
    + intros Hnd Hfresh. inversion Hnd as [|? ? Hn Hnd']; subst.
      assert (Em : mem d n = false).
      { destruct (mem d n) eqn:E; [|reflexivity].
        apply mem_In_keys in E. exfalso. apply (Hfresh n); simpl; auto. }
      rewrite IH3; [rewrite keys_set, Em, <- app_assoc; reflexivity | assumption |].
      intros k Hk. rewrite keys_set, Em, in_app_iff. simpl.
      intros [H|[<-|[]]]; [apply (Hfresh k); simpl; auto | contradiction].
Qed.

Lemma mem_set {V : Type} (d : dict V) (k k' : string) (v : V) :
  mem (set d k v) k' = (String.eqb k k' || mem d k')%bool.
Proof.
  unfold mem. destruct (String.eqb k k') eqn:E.
  - apply String.eqb_eq in E. subst. now rewrite get_set_same.
  - apply String.eqb_neq in E. now rewrite get_set_other.
Qed.

Lemma keys_comprehension {V : Type} (f : string -> V) (names : list string) :
  keys (comprehension f names) = unique names.
Proof.
  unfold unique, fromkeys, comprehension.
  assert (G : forall (d1 : dict V) (d2 : dict unit),
             keys d1 = keys d2 ->
             keys (fold_left (fun d name => set d name (f name)) names d1) =
             keys (fold_left (fun d name => set d name tt) names d2)).
  { induction names as [|n names IH]; intros d1 d2 E; simpl; [assumption|].
    apply IH. rewrite !keys_set.
    assert (Em : mem d1 n = mem d2 n).
    { apply eq_true_iff_eq. now rewrite !mem_In_keys, E. }
    now rewrite Em, E. }
  now apply G.
Qed.

Lemma unique_NoDup (names : list string) : NoDup (unique names).
Proof.
  unfold unique, fromkeys.
  apply (keys_fold_set (fun _ => tt) names []). constructor.
Qed.

Lemma unique_In (names : list string) (k : string) :
  In k (unique names) <-> In k names.
Proof.
  unfold unique, fromkeys.
  destruct (keys_fold_set (fun _ => tt) names [] (NoDup_nil _)) as (_ & H & _).
  rewrite H. simpl. tauto.
Qed.

Lemma unique_id (names : list string) : NoDup names -> unique names = names.
Proof.
  intros Hnd. unfold unique, fromkeys.
  destruct (keys_fold_set (fun _ => tt) names [] (NoDup_nil _)) as (_ & _ & H).
  apply H; auto.
Qed.

(** Names that are already keys are absorbed. *)
Lemma keys_fold_set_present {V : Type} (f : string -> V) (names : list string) :
  forall d : dict V,
    (forall k, In k names -> In k (keys d)) ->
    keys (fold_left (fun d name => set d name (f name)) names d) = keys d.
Proof.
  induction names as [|n names IH]; intros d Hin; simpl; [reflexivity|].
  assert (Hk : keys (set d n (f n)) = keys d).
  { rewrite keys_set.
    destruct (mem d n) eqn:E; [reflexivity|].
    assert (Hn : mem d n = true) by (apply mem_In_keys, Hin; now left).
    congruence. }
  rewrite IH; [exact Hk|].
  intros k Hkn. rewrite Hk. apply Hin. now right.
Qed.

Lemma unique_absorb (l1 l2 : list string) :
  NoDup l1 -> (forall x, In x l2 -> In x l1) -> unique (l1 ++ l2) = l1.
Proof.
  intros Hnd Hin. unfold unique, fromkeys. rewrite fold_left_app.
  rewrite keys_fold_set_present.
  - now apply unique_id.
  - intros k Hk. change (In k (unique l1)). apply unique_In. now apply Hin.
Qed.

(** The values of a comprehension are the values of its function. *)
Lemma set_values {V : Type} (P : string -> V -> Prop) (d : dict V) (k : string) (v : V) :
  Forall (fun kv => P (fst kv) (snd kv)) d -> P k v ->
  Forall (fun kv => P (fst kv) (snd kv)) (set d k v).
Proof.
  intros Hd Hk. induction d as [|[k' v'] d IH]; simpl.
  - constructor; [exact Hk | constructor].
  - inversion Hd as [|? ? Hhead Htail]; subst.
    destruct (String.eqb k k') eqn:E.
    + apply String.eqb_eq in E. subst k'. constructor; assumption.
    + constructor; [assumption | now apply IH].
Qed.

Lemma comprehension_values {V : Type} (f : string -> V) (names : list string) :
  Forall (fun kv => snd kv = f (fst kv)) (comprehension f names).
Proof.
  unfold comprehension.
  assert (G : forall d : dict V,
             Forall (fun kv => snd kv = f (fst kv)) d ->
             Forall (fun kv => snd kv = f (fst kv))
                    (fold_left (fun d name => set d name (f name)) names d)).
  { induction names as [|n names IH]; intros d Hd; simpl; [exact Hd|].
    apply IH. now apply (set_values (fun k v => v = f k)). }
  apply G. constructor.
Qed.


End PyDict.

(** ** Variable groups ([TFTModel._create_model]) *)

Module VariableGroups.

(** The shapes [_create_model] reads from the training sample: the number
    of columns ([shape[1]]) of each tensor, [None] for an absent tensor. *)
Record TrainSample : Type := {
  past_target : option nat;
  past_covariate : option nat;
  historic_future_covariate : option nat;
  future_covariate : option nat;
  future_target : option nat
}.

(** [variables['model_config']] *)
Record ModelConfig : Type := {
  reals_input : list string;
  time_varying_encoder_input : list string;
  time_varying_decoder_input : list string;
  static_input : list string
}.

(** What [_create_model] hands to [_TFTModule]. *)
Record Variables : Type := {
  input : PyDict.dict (list string);
  model_config : ModelConfig;
  input_dim : nat;
  output_dim : nat
}.

(** [str(i)] for a non-negative integer. *)
Definition string_of_nat (i : nat) : string :=
  NilEmpty.string_of_uint (Nat.to_uint i).

(** [f'{var_name}_{i}'] *)
Definition column_name (var_name : string) (i : nat) : string :=
  (var_name ++ "_" ++ string_of_nat i)%string.

(** [[f'{var_name}_{i}' for i in range(n)]] *)
Definition column_names (var_name : string) (n : nat) : list string :=
  map (column_name var_name) (seq 0 n).

Definition type_names : list string :=
  ["past_target"; "past_covariate"; "historic_future_covariate";
   "future_covariate"; "future_target"; "static_covariate"].

Definition variable_names : list string :=
  ["target"; "past_covariate"; "future_covariate";
   "future_covariate"; "target"; "static_covariate"].

(** [static_covariates = None] closes the list of tensors. *)
Definition tensors (s : TrainSample) : list (option nat) :=
  [past_target s; past_covariate s; historic_future_covariate s;
   future_covariate s; future_target s; None].

(** [zip(type_names, variable_names, tensors)] *)
Fixpoint zip3 {A B C : Type} (la : list A) (lb : list B) (lc : list C)
  : list (A * B * C) :=
  match la, lb, lc with
  | a :: la', b :: lb', c :: lc' => (a, b, c) :: zip3 la' lb' lc'
  | _, _, _ => []
  end.

(** [variables['input']]: the dict comprehension over the tensors that are
    not [None]. *)
Definition variables_input (s : TrainSample) : PyDict.dict (list string) :=
  fold_left
    (fun d '(type_name, var_name, tensor) =>
       match tensor with
       | Some cols => PyDict.set d type_name (column_names var_name cols)
       | None => d
       end)
    (zip3 type_names variable_names (tensors s)) [].

Definition str_in (x : string) (l : list string) : bool :=
  existsb (String.eqb x) l.

(** One turn of the loop [for input_var in type_names]; the state is
    [(reals_input, time_varying_encoder_input, time_varying_decoder_input,
    static_input)]. *)
Definition group_step (inp : PyDict.dict (list string))
  (st : list string * list string * list string * list string)
  (input_var : string)
  : list string * list string * list string * list string :=
  let '(reals, enc, dec, static) := st in
  match PyDict.get inp input_var with
  | Some vars =>
      let reals := reals ++ vars in
      if str_in input_var ["past_target"; "past_covariate"; "historic_future_covariate"]
      then (reals, enc ++ vars, dec, static)
      else if str_in input_var ["future_covariate"]
      then (reals, enc, dec ++ vars, static)
      else if str_in input_var ["static_covariate"]
      then (reals, enc, dec, static ++ vars)
      else (reals, enc, dec, static)
  | None => st
  end.

Definition cols (t : option nat) : nat :=
  match t with Some n => n | None => 0%nat end.

(** The part of [_create_model] before the module is instantiated. *)
Definition create_model_variables (s : TrainSample) : result Variables :=
  let input_dim :=
    (cols (past_target s) + cols (past_covariate s)
     + cols (historic_future_covariate s))%nat in
  match future_target s with
  | None => Raise (AttributeError "'NoneType' object has no attribute 'shape'")
  | Some output_dim =>
      let inp := variables_input s in
      let '(reals, enc, dec, static) :=
        fold_left (group_step inp) type_names ([], [], [], []) in
      Ok {| input := inp;
            model_config :=
              {| reals_input := PyDict.unique reals;
                 time_varying_encoder_input := PyDict.unique enc;
                 time_varying_decoder_input := PyDict.unique dec;
                 static_input := PyDict.unique static |};
            input_dim := input_dim;
            output_dim := output_dim |}
  end.

(** Column names of a possibly absent tensor. *)
Definition names_of (var_name : string) (t : option nat) : list string :=
  column_names var_name (cols t).

Example create_model_variables_example :
  create_model_variables
    {| past_target := Some 1%nat; past_covariate := Some 2%nat;
       historic_future_covariate := Some 1%nat; future_covariate := Some 1%nat;
       future_target := Some 1%nat |}
  = Ok {| input :=
            [("past_target", ["target_0"]);
             ("past_covariate", ["past_covariate_0"; "past_covariate_1"]);
             ("historic_future_covariate", ["future_covariate_0"]);
             ("future_covariate", ["future_covariate_0"]);
             ("future_target", ["target_0"])];
          model_config :=
            {| reals_input :=
                 ["target_0"; "past_covariate_0"; "past_covariate_1";
                  "future_covariate_0"];
               time_varying_encoder_input :=
                 ["target_0"; "past_covariate_0"; "past_covariate_1";
                  "future_covariate_0"];
               time_varying_decoder_input := ["future_covariate_0"];
               static_input := [] |};
          input_dim := 4; output_dim := 1 |}.
Proof. reflexivity. Qed.

(** *** Column names are pairwise distinct *)

Lemma string_of_nat_inj (i j : nat) : string_of_nat i = string_of_nat j -> i = j.
Proof.
  unfold string_of_nat. intros H.
  apply DecimalNat.Unsigned.to_uint_inj.
  assert (Hs : Some (Nat.to_uint i) = Some (Nat.to_uint j)).
  { rewrite <- !NilEmpty.usu. now rewrite H. }
  now injection Hs.
Qed.

Lemma append_inj_l (p s1 s2 : string) : (p ++ s1 = p ++ s2)%string -> s1 = s2.
Proof.
  induction p as [|c p IH]; simpl; intros H; [assumption|].
  injection H as H. auto.
Qed.

Lemma column_name_inj (v : string) (i j : nat) :
  column_name v i = column_name v j -> i = j.
Proof.
  unfold column_name. intros H.
  apply append_inj_l in H. simpl in H. injection H as H.
  now apply string_of_nat_inj.
Qed.

Lemma In_column_names (v : string) (n : nat) (x : string) :
  In x (column_names v n) <-> exists i, (i < n)%nat /\ x = column_name v i.
Proof.
  unfold column_names. rewrite in_map_iff. split.
  - intros (i & <- & Hi). apply in_seq in Hi. exists i. split; [lia | reflexivity].
  - intros (i & Hi & ->). exists i. split; [reflexivity | apply in_seq; lia].
Qed.

Lemma NoDup_column_names (v : string) (n : nat) : NoDup (column_names v n).
Proof.
  unfold column_names. apply Injective_map_NoDup.
  - intros i j. apply column_name_inj.
  - apply seq_NoDup.
Qed.

Lemma target_not_past (i j : nat) :
  column_name "target" i <> column_name "past_covariate" j.
Proof. discriminate. Qed.

Lemma target_not_future (i j : nat) :
  column_name "target" i <> column_name "future_covariate" j.
Proof. discriminate. Qed.

Lemma past_not_future (i j : nat) :
  column_name "past_covariate" i <> column_name "future_covariate" j.
Proof. discriminate. Qed.

Lemma NoDup_encoder_columns (pt pc hfc : nat) :
  NoDup (column_names "target" pt ++ column_names "past_covariate" pc
         ++ column_names "future_covariate" hfc).
Proof.
  apply NoDup_app; [apply NoDup_column_names | |].
  - apply NoDup_app; [apply NoDup_column_names .. |].
    intros x Hx Hy. apply In_column_names in Hx, Hy.
    destruct Hx as (i & _ & ->), Hy as (j & _ & Hy).
    exact (past_not_future _ _ Hy).
  - intros x Hx Hy. apply In_column_names in Hx. destruct Hx as (i & _ & ->).
    apply in_app_iff in Hy. destruct Hy as [Hy|Hy];
      apply In_column_names in Hy; destruct Hy as (j & _ & Hy).
    + exact (target_not_past _ _ Hy).
    + exact (target_not_future _ _ Hy).
Qed.

(** *** The lists accumulated by the loop *)

Lemma groups_before_unique (s : TrainSample) :
  fold_left (group_step (variables_input s)) type_names ([], [], [], []) =
  (names_of "target" (past_target s)
   ++ names_of "past_covariate" (past_covariate s)
   ++ names_of "future_covariate" (historic_future_covariate s)
   ++ names_of "future_covariate" (future_covariate s)
   ++ names_of "target" (future_target s),
   names_of "target" (past_target s)
   ++ names_of "past_covariate" (past_covariate s)
   ++ names_of "future_covariate" (historic_future_covariate s),
   names_of "future_covariate" (future_covariate s),
   []).
Proof.
  destruct s as [[pt|] [pc|] [hfc|] [fc|] [ft|]];
    cbn -[column_names];
    change (column_names _ 0) with (@nil string);
    rewrite ?app_nil_r, <- ?app_assoc; reflexivity.
Qed.

(** A name is in exactly one of three lists. *)
Definition in_exactly_one (x : string) (a b c : list string) : Prop :=
  (In x a /\ ~ In x b /\ ~ In x c) \/
  (~ In x a /\ In x b /\ ~ In x c) \/
  (~ In x a /\ ~ In x b /\ In x c).

(** C4 (as the code behaves): [_create_model] returns whenever the sample
    has a future target; the static list is empty; the encoder list is the
    column names of past target, past covariates and historic future
    covariates in that order, the decoder list is the column names of the
    future covariates, each without duplicates; every name of [reals_input]
    is in the encoder list, the decoder list, or is a future-target column;
    and the names shared by the encoder and decoder lists are exactly
    [future_covariate_i] for [i] below both covariate widths. *)
Theorem variable_groups_cover_with_overlap (s : TrainSample) :
  future_target s <> None ->
  exists v,
    create_model_variables s = Ok v /\
    let c := model_config v in
    static_input c = [] /\
    time_varying_encoder_input c =
      names_of "target" (past_target s)
      ++ names_of "past_covariate" (past_covariate s)
      ++ names_of "future_covariate" (historic_future_covariate s) /\
    time_varying_decoder_input c =
      names_of "future_covariate" (future_covariate s) /\
    NoDup (time_varying_encoder_input c) /\
    NoDup (time_varying_decoder_input c) /\
    NoDup (reals_input c) /\
    (forall x,
       In x (reals_input c) <->
       In x (time_varying_encoder_input c) \/
       In x (time_varying_decoder_input c) \/
       In x (names_of "target" (future_target s))) /\
    (forall x,
       In x (time_varying_encoder_input c) /\ In x (time_varying_decoder_input c) <->
       exists i,
         (i < Nat.min (cols (historic_future_covariate s)) (cols (future_covariate s)))%nat /\
         x = column_name "future_covariate" i).
Proof.
  intros Hft. unfold create_model_variables.
  destruct (future_target s) as [ft|] eqn:Eft; [|congruence].
  rewrite groups_before_unique, Eft. eexists. split; [reflexivity|].
  cbn [model_config static_input time_varying_encoder_input
       time_varying_decoder_input reals_input].
  unfold names_of.
  set (pt := cols (past_target s)). set (pc := cols (past_covariate s)).
  set (hfc := cols (historic_future_covariate s)).
  set (fc := cols (future_covariate s)). cbn [cols].
  rewrite (PyDict.unique_id _ (NoDup_encoder_columns pt pc hfc)).
  rewrite (PyDict.unique_id _ (NoDup_column_names "future_covariate" fc)).
  split; [reflexivity|]. split; [reflexivity|]. split; [reflexivity|].
  split; [apply NoDup_encoder_columns|].
  split; [apply NoDup_column_names|].
  split; [apply PyDict.unique_NoDup|].
  split.
  - intros x. rewrite PyDict.unique_In, !in_app_iff. tauto.
  - intros x. rewrite !in_app_iff, !In_column_names. split.
    + intros [[(i & _ & ->)|[(i & _ & ->)|(i & Hi & ->)]] (j & Hj & Hx)].
      * exfalso. exact (target_not_future _ _ Hx).
      * exfalso. exact (past_not_future _ _ Hx).
      * apply column_name_inj in Hx. subst j. exists i. split; [lia | reflexivity].
    + intros (i & Hi & ->). split; [right; right|]; exists i; split; auto; lia.
Qed.

(** The theorem at a sample with one target, two past covariates and one
    future covariate column. *)
Lemma variable_groups_cover_with_overlap_witness :
  exists v,
    create_model_variables
      {| past_target := Some 1%nat; past_covariate := Some 2%nat;
         historic_future_covariate := Some 1%nat; future_covariate := Some 1%nat;
         future_target := Some 1%nat |} = Ok v /\
    time_varying_decoder_input (model_config v) = ["future_covariate_0"].
Proof.
  destruct (variable_groups_cover_with_overlap
              {| past_target := Some 1%nat; past_covariate := Some 2%nat;
                 historic_future_covariate := Some 1%nat;
                 future_covariate := Some 1%nat;
                 future_target := Some 1%nat |})
    as (v & Hv & _ & _ & Hdec & _).
  - discriminate.
  - exists v. split; [exact Hv | exact Hdec].
Defined.

(** C4 (as stated) fails: with one target column and one future covariate
    column (known over the past and the future), the name
    [future_covariate_0] is in the encoder list and in the decoder list. *)
Lemma exactly_one_group_counterexample :
  ~ (forall s v x,
       create_model_variables s = Ok v ->
       In x (reals_input (model_config v)) ->
       in_exactly_one x
         (static_input (model_config v))
         (time_varying_encoder_input (model_config v))
         (time_varying_decoder_input (model_config v))).
Proof.
  intros H.
  specialize (H {| past_target := Some 1%nat; past_covariate := None;
                   historic_future_covariate := Some 1%nat;
                   future_covariate := Some 1%nat;
                   future_target := Some 1%nat |}
                _ "future_covariate_0" eq_refl).
  cbn in H.
  assert (Hin : "target_0" = "future_covariate_0" \/
                "future_covariate_0" = "future_covariate_0" \/ False) by tauto.
  destruct (H Hin) as [(F & _)|[(_ & _ & F)|(_ & F & _)]].
  - exact F.
  - apply F. left. reflexivity.
  - apply F. right. left. reflexivity.
Qed.

(** *** Further facts about [_create_model] *)

Lemma length_column_names (v : string) (n : nat) : length (column_names v n) = n.
Proof. unfold column_names. now rewrite length_map, length_seq. Qed.

Lemma create_model_variables_returns (s : TrainSample) (d : nat) :
  future_target s = Some d ->
  exists v, create_model_variables s = Ok v /\ output_dim v = d.
Proof.
  intros Ed. unfold create_model_variables. rewrite Ed, groups_before_unique.
  eexists. split; [reflexivity|]. reflexivity.
Qed.

(** Without a future target [_create_model] raises; with one, [input_dim]
    counts the encoder variables (so every index [forward] reads for an
    encoder variable is a column of the past input), [output_dim] is the
    number of target columns, and there is one decoder variable for each
    future covariate column. *)
Theorem create_model_variables_dimensions (s : TrainSample) :
  match future_target s with
  | None =>
      create_model_variables s =
      Raise (AttributeError "'NoneType' object has no attribute 'shape'")
  | Some d =>
      exists v,
        create_model_variables s = Ok v /\
        input_dim v = length (time_varying_encoder_input (model_config v)) /\
        output_dim v = d /\
        length (time_varying_decoder_input (model_config v))
        = cols (future_covariate s)
  end.
Proof.
  unfold create_model_variables.
  destruct (future_target s) as [d|] eqn:Ed; [|reflexivity].
  rewrite groups_before_unique. eexists. split; [reflexivity|].
  cbn [input_dim output_dim model_config time_varying_encoder_input
       time_varying_decoder_input].
  unfold names_of.
  rewrite (PyDict.unique_id _ (NoDup_encoder_columns _ _ _)).
  rewrite (PyDict.unique_id _ (NoDup_column_names "future_covariate" _)).
  rewrite !length_app, !length_column_names. repeat split; lia.
Qed.

(** When the future covariates are no wider than the historic future
    covariates and the future target no wider than the past target, as for
    tensors cut from the same series, [reals_input] is the encoder list, and
    every decoder variable is an encoder variable. *)
Theorem reals_input_is_encoder_list (s : TrainSample) :
  future_target s <> None ->
  (cols (future_covariate s) <= cols (historic_future_covariate s))%nat ->
  (cols (future_target s) <= cols (past_target s))%nat ->
  exists v,
    create_model_variables s = Ok v /\
    reals_input (model_config v) = time_varying_encoder_input (model_config v) /\
    forall x, In x (time_varying_decoder_input (model_config v)) ->
              In x (time_varying_encoder_input (model_config v)).
Proof.
  intros Hft Hfc Htg. unfold create_model_variables.
  destruct (future_target s) as [ft|] eqn:Eft; [|congruence].
  rewrite groups_before_unique, Eft. eexists. split; [reflexivity|].
  cbn [model_config reals_input time_varying_encoder_input
       time_varying_decoder_input].
  unfold names_of. cbn [cols] in *.
  set (pt := cols (past_target s)) in *. set (pc := cols (past_covariate s)).
  set (hfc := cols (historic_future_covariate s)) in *.
  set (fc := cols (future_covariate s)) in *.
  rewrite (PyDict.unique_id _ (NoDup_encoder_columns pt pc hfc)).
  rewrite (PyDict.unique_id _ (NoDup_column_names "future_covariate" fc)).
  assert (Hsub : forall x,
            In x (column_names "future_covariate" fc ++ column_names "target" ft) ->
            In x (column_names "target" pt ++ column_names "past_covariate" pc
                  ++ column_names "future_covariate" hfc)).
  { intros x Hx. rewrite !in_app_iff, !In_column_names in *.
    destruct Hx as [(i & Hi & ->)|(i & Hi & ->)].
    - right. right. exists i. split; [lia | reflexivity].
    - left. exists i. split; [lia | reflexivity]. }
  split.
  - replace (column_names "target" pt ++ column_names "past_covariate" pc
             ++ column_names "future_covariate" hfc
             ++ column_names "future_covariate" fc ++ column_names "target" ft)
      with ((column_names "target" pt ++ column_names "past_covariate" pc
             ++ column_names "future_covariate" hfc)
            ++ (column_names "future_covariate" fc ++ column_names "target" ft))
      by (rewrite <- !app_assoc; reflexivity).
    apply PyDict.unique_absorb; [apply NoDup_encoder_columns | exact Hsub].
  - intros x Hx. apply Hsub. apply in_or_app. now left.
Qed.

Lemma reals_input_is_encoder_list_witness :
  exists v,
    create_model_variables
      {| past_target := Some 1%nat; past_covariate := Some 2%nat;
         historic_future_covariate := Some 1%nat; future_covariate := Some 1%nat;
         future_target := Some 1%nat |} = Ok v /\
    reals_input (model_config v) = time_varying_encoder_input (model_config v) /\
    forall x, In x (time_varying_decoder_input (model_config v)) ->
              In x (time_varying_encoder_input (model_config v)).
Proof.
  apply (reals_input_is_encoder_list
           {| past_target := Some 1%nat; past_covariate := Some 2%nat;
              historic_future_covariate := Some 1%nat;
              future_covariate := Some 1%nat;
              future_target := Some 1%nat |}).
  - discriminate.
  - simpl. lia.
  - simpl. lia.
Defined.

(** Encoder and decoder variables are continuous variables of the model. *)
Lemma groups_in_reals (s : TrainSample) (v : Variables) (x : string) :
  create_model_variables s = Ok v ->
  In x (time_varying_encoder_input (model_config v)) \/
  In x (time_varying_decoder_input (model_config v)) ->
  In x (reals_input (model_config v)).
Proof.
  unfold create_model_variables.
  destruct (future_target s) as [ft|]; [|discriminate].
  rewrite groups_before_unique. intros H. injection H as <-.
  cbn [model_config reals_input time_varying_encoder_input
       time_varying_decoder_input].
  rewrite !PyDict.unique_In, !in_app_iff. tauto.
Qed.

End VariableGroups.

(** ** Construction of the network ([_TFTModule.__init__])

    Every call of a layer constructor creates a new object.  The objects
    live in a heap; a handle is the position of an object in it, so two
    attributes hold the same instance exactly when they hold the same
    handle. *)

Module TFTModule.

Definition handle : Type := nat.

(** The layer objects [__init__] creates, with the sizes they are given. *)
Inductive ModuleObj : Type :=
| Linear (in_features out_features : Z)
| GatedResidualNetwork (input_size hidden_size output_size : Z)
                       (dropout : Q) (context_size : option Z)
| VariableSelectionNetworkObj (hidden_size : Z) (dropout : Q) (context_size : option Z)
| LSTM (input_size hidden_size num_layers : Z) (dropout : Q)
| GatedLinearUnit (input_size : Z) (dropout : option Q)
| AddNorm (input_size : Z)
| GateAddNorm (input_size : Z) (dropout : option Q)
| InterpretableMultiHeadAttention (d_model n_head : Z) (dropout : Q).

Definition Heap : Type := list ModuleObj.

(** Construction runs over the heap and may raise. *)
Definition Init (A : Type) : Type := Heap -> result (A * Heap).

Definition ret {A : Type} (a : A) : Init A := fun h => Ok (a, h).

Definition bind {A B : Type} (c : Init A) (k : A -> Init B) : Init B :=
  fun h => match c h with
           | Ok (a, h') => k a h'
           | Raise e => Raise e
           | OutOfFuel => OutOfFuel
           end.

Definition raise {A : Type} (e : PyExn) : Init A := fun _ => Raise e.

(** A constructor call that returns: the new object is appended to the
    heap.  The constructors are defined in torch and in
    [tft_submodels_darts], outside the sources, and so are the checks they
    make on their arguments (a negative size, a dropout outside the unit
    interval); [new] models the call on arguments they accept.  What is
    proved of [init] is therefore what [__init__] builds, and which of its
    own statements raise; it is not a statement that the constructors
    accept every size. *)
Definition new (o : ModuleObj) : Init handle :=
  fun h => Ok (length h, h ++ [o]).

#[local] Notation "x <- c ;; k" := (bind c (fun x => k))
  (at level 61, c at next level, right associativity).

(** [for x in xs: acc = body(acc, x)] *)
Fixpoint for_each {A S : Type} (xs : list A) (body : S -> A -> Init S) (acc : S)
  : Init S :=
  match xs with
  | [] => ret acc
  | x :: xs' => acc' <- body acc x ;; for_each xs' body acc'
  end.

(** [output_size: Union[int, List[int]]] *)
Inductive OutputSize : Type :=
| SizeInt (n : Z)
| SizeList (ns : list Z).

(** [self.output_layer] *)
Inductive OutputLayer : Type :=
| SingleHead (layer : handle)
| HeadList (layers : list handle).

(** Modelled from the spec: [VariableSelectionNetwork] is defined in
    [tft_submodels_darts], outside the sources.  The specification says that
    a gate owns one gating sub-network per feature name and that, with
    sharing enabled, encoder and decoder features with the same name reuse
    one gating sub-network: a name found in the [single_variable_grns] it is
    given keeps that instance, any other name gets a new one. *)
Record VariableSelectionNetwork : Type := {
  vsn_self : handle;
  vsn_input_sizes : PyDict.dict Z;
  vsn_prescalers : PyDict.dict handle;
  vsn_single_variable_grns : PyDict.dict handle
}.

Definition new_VariableSelectionNetwork
  (input_sizes : PyDict.dict Z) (hidden_size : Z) (dropout : Q)
  (context_size : option Z) (prescalers : PyDict.dict handle)
  (single_variable_grns : PyDict.dict handle)
  : Init VariableSelectionNetwork :=
  grns <- for_each input_sizes
            (fun grns '(name, input_size) =>
               match PyDict.get single_variable_grns name with
               | Some g => ret (PyDict.set grns name g)
               | None =>
                   g <- new (GatedResidualNetwork input_size
                               (Z.min input_size hidden_size) hidden_size
                               dropout None) ;;
                   ret (PyDict.set grns name g)
               end) [] ;;
  self <- new (VariableSelectionNetworkObj hidden_size dropout context_size) ;;
  ret {| vsn_self := self;
         vsn_input_sizes := input_sizes;
         vsn_prescalers := prescalers;
         vsn_single_variable_grns := grns |}.

(** The arguments of [__init__] that the construction reads. *)
Record InitArgs : Type := {
  arg_variables : VariableGroups.ModelConfig;
  arg_input_dim : Z;
  arg_output_dim : Z;
  arg_input_chunk_length : Z;
  arg_output_chunk_length : Z;
  arg_output_size : OutputSize;
  arg_hidden_size : Z;
  arg_lstm_layers : Z;
  arg_dropout : Q;
  arg_attention_head_size : Z;
  arg_hidden_continuous_size : Z;
  arg_hidden_continuous_sizes : PyDict.dict Z;
  arg_share_single_variable_networks : bool
}.

(** The attributes of a constructed [_TFTModule]. *)
Record TFTModule : Type := {
  variables : VariableGroups.ModelConfig;
  input_dim : Z;
  output_dim : Z;
  input_chunk_length : Z;
  output_chunk_length : Z;
  output_size : OutputSize;
  hidden_size : Z;
  lstm_layers : Z;
  dropout : Q;
  attention_head_size : Z;
  hidden_continuous_size : Z;
  hidden_continuous_sizes : PyDict.dict Z;
  share_single_variable_networks : bool;
  n_targets : Z;
  prescalers : PyDict.dict handle;
  static_variable_selection : VariableSelectionNetwork;
  shared_single_variable_grns : option (PyDict.dict handle);
  encoder_variable_selection : VariableSelectionNetwork;
  decoder_variable_selection : VariableSelectionNetwork;
  static_context_variable_selection : handle;
  static_context_initial_hidden_lstm : handle;
  static_context_initial_cell_lstm : handle;
  static_context_enrichment : handle;
  lstm_encoder : handle;
  lstm_decoder : handle;
  post_lstm_gate_encoder : handle;
  post_lstm_gate_decoder : handle;
  post_lstm_add_norm_encoder : handle;
  post_lstm_add_norm_decoder : handle;
  static_enrichment : handle;
  multihead_attn : handle;
  post_attn_gate_norm : handle;
  pos_wise_ff : handle;
  pre_output_gate_norm : handle;
  output_layer : OutputLayer
}.

(** The properties [reals], [static_variables], [encoder_variables] and
    [decoder_variables] read [self.variables['model_config']]. *)
Definition reals (self : TFTModule) : list string :=
  VariableGroups.reals_input (variables self).

Definition static_variables (self : TFTModule) : list string :=
  VariableGroups.static_input (variables self).

Definition encoder_variables (self : TFTModule) : list string :=
  VariableGroups.time_varying_encoder_input (variables self).

Definition decoder_variables (self : TFTModule) : list string :=
  VariableGroups.time_varying_decoder_input (variables self).

(** The property [categoricals]: its body is a single [raise]. *)
Definition categoricals (self : TFTModule) : result (list string) :=
  Raise (NotImplementedError "TFT does not yet support categorical variables").

(** [self.hidden_continuous_sizes.get(name, self.hidden_continuous_size)] *)
Definition continuous_size (a : InitArgs) (name : string) : Z :=
  match PyDict.get (arg_hidden_continuous_sizes a) name with
  | Some n => n
  | None => arg_hidden_continuous_size a
  end.

(** [{name: nn.Linear(1, size(name)) for name in names}] *)
Definition new_prescalers (a : InitArgs) (names : list string)
  : Init (PyDict.dict handle) :=
  for_each names
    (fun d name => l <- new (Linear 1 (continuous_size a name)) ;;
                   ret (PyDict.set d name l)) [].

(** The block guarded by [if self.share_single_variable_networks]. *)
Definition new_shared_single_variable_grns (a : InitArgs)
  (encoder_input_sizes decoder_input_sizes : PyDict.dict Z)
  : Init (PyDict.dict handle) :=
  shared <- for_each encoder_input_sizes
              (fun shared '(name, input_size) =>
                 g <- new (GatedResidualNetwork input_size
                             (Z.min input_size (arg_hidden_size a))
                             (arg_hidden_size a) (arg_dropout a) None) ;;
                 ret (PyDict.set shared name g)) [] ;;
  for_each decoder_input_sizes
    (fun shared '(name, input_size) =>
       if negb (PyDict.mem shared name)
       then g <- new (GatedResidualNetwork input_size
                        (Z.min input_size (arg_hidden_size a))
                        (arg_hidden_size a) (arg_dropout a) None) ;;
            ret (PyDict.set shared name g)
       else ret shared) shared.

(** The last statement of [__init__]: one head per entry of [output_size]
    for several targets, one head otherwise. *)
Definition new_output_layer (a : InitArgs) : Init OutputLayer :=
  if arg_output_dim a >? 1
  then match arg_output_size a with
       | SizeList sizes =>
           layers <- for_each sizes
                       (fun acc size => l <- new (Linear (arg_hidden_size a) size) ;;
                                        ret (acc ++ [l])) [] ;;
           ret (HeadList layers)
       | SizeInt _ => raise (TypeError "'int' object is not iterable")
       end
  else match arg_output_size a with
       | SizeInt size => l <- new (Linear (arg_hidden_size a) size) ;;
                         ret (SingleHead l)
       | SizeList _ => raise (TypeError "empty() received an invalid combination of arguments")
       end.

(** [{name: size(name) for name in names}] *)
Definition input_sizes_of (a : InitArgs) (names : list string) : PyDict.dict Z :=
  PyDict.comprehension (continuous_size a) names.

(** [_TFTModule.__init__], statement by statement. *)
Definition init (a : InitArgs) : Init TFTModule :=
  let cfg := arg_variables a in
  let hidden := arg_hidden_size a in
  let drop := arg_dropout a in
  let share := arg_share_single_variable_networks a in
  prescalers <- new_prescalers a (VariableGroups.reals_input cfg) ;;
  let static_input_sizes := input_sizes_of a (VariableGroups.static_input cfg) in
  static_variable_selection <-
    new_VariableSelectionNetwork static_input_sizes hidden drop None prescalers [] ;;
  let encoder_input_sizes :=
    input_sizes_of a (VariableGroups.time_varying_encoder_input cfg) in
  let decoder_input_sizes :=
    input_sizes_of a (VariableGroups.time_varying_decoder_input cfg) in
  shared <- (if share
             then d <- new_shared_single_variable_grns a encoder_input_sizes
                         decoder_input_sizes ;;
                  ret (Some d)
             else ret None) ;;
  let single_variable_grns :=
    match shared with Some d => d | None => [] end in
  encoder_variable_selection <-
    new_VariableSelectionNetwork encoder_input_sizes hidden drop (Some hidden)
      prescalers single_variable_grns ;;
  decoder_variable_selection <-
    new_VariableSelectionNetwork decoder_input_sizes hidden drop (Some hidden)
      prescalers single_variable_grns ;;
  static_context_variable_selection <-
    new (GatedResidualNetwork hidden hidden hidden drop None) ;;
  static_context_initial_hidden_lstm <-
    new (GatedResidualNetwork hidden hidden hidden drop None) ;;
  static_context_initial_cell_lstm <-
    new (GatedResidualNetwork hidden hidden hidden drop None) ;;
  static_context_enrichment <-
    new (GatedResidualNetwork hidden hidden hidden drop None) ;;
  let lstm_dropout := if arg_lstm_layers a >? 1 then drop else 0%Q in
  lstm_encoder <- new (LSTM hidden hidden (arg_lstm_layers a) lstm_dropout) ;;
  lstm_decoder <- new (LSTM hidden hidden (arg_lstm_layers a) lstm_dropout) ;;
  post_lstm_gate_encoder <- new (GatedLinearUnit hidden (Some drop)) ;;
  let post_lstm_gate_decoder := post_lstm_gate_encoder in
  post_lstm_add_norm_encoder <- new (AddNorm hidden) ;;
  let post_lstm_add_norm_decoder := post_lstm_add_norm_encoder in
  static_enrichment <-
    new (GatedResidualNetwork hidden hidden hidden drop (Some hidden)) ;;
  multihead_attn <-
    new (InterpretableMultiHeadAttention hidden (arg_attention_head_size a) drop) ;;
  post_attn_gate_norm <- new (GateAddNorm hidden (Some drop)) ;;
  pos_wise_ff <- new (GatedResidualNetwork hidden hidden hidden drop None) ;;
  pre_output_gate_norm <- new (GateAddNorm hidden None) ;;
  output_layer <- new_output_layer a ;;
  ret {| variables := cfg;
         input_dim := arg_input_dim a;
         output_dim := arg_output_dim a;
         input_chunk_length := arg_input_chunk_length a;
         output_chunk_length := arg_output_chunk_length a;
         output_size := arg_output_size a;
         hidden_size := hidden;
         lstm_layers := arg_lstm_layers a;
         dropout := drop;
         attention_head_size := arg_attention_head_size a;
         hidden_continuous_size := arg_hidden_continuous_size a;
         hidden_continuous_sizes := arg_hidden_continuous_sizes a;
         share_single_variable_networks := share;
         n_targets := arg_output_dim a;
         prescalers := prescalers;
         static_variable_selection := static_variable_selection;
         shared_single_variable_grns := shared;
         encoder_variable_selection := encoder_variable_selection;
         decoder_variable_selection := decoder_variable_selection;
         static_context_variable_selection := static_context_variable_selection;
         static_context_initial_hidden_lstm := static_context_initial_hidden_lstm;
         static_context_initial_cell_lstm := static_context_initial_cell_lstm;
         static_context_enrichment := static_context_enrichment;
         lstm_encoder := lstm_encoder;
         lstm_decoder := lstm_decoder;
         post_lstm_gate_encoder := post_lstm_gate_encoder;
         post_lstm_gate_decoder := post_lstm_gate_decoder;
         post_lstm_add_norm_encoder := post_lstm_add_norm_encoder;
         post_lstm_add_norm_decoder := post_lstm_add_norm_decoder;
         static_enrichment := static_enrichment;
         multihead_attn := multihead_attn;
         post_attn_gate_norm := post_attn_gate_norm;
         pos_wise_ff := pos_wise_ff;
         pre_output_gate_norm := pre_output_gate_norm;
         output_layer := output_layer |}.

(** The output width agrees with the number of targets, so that the last
    statement of [__init__] does not raise. *)
Definition output_size_fits (a : InitArgs) : Prop :=
  if arg_output_dim a >? 1
  then exists sizes, arg_output_size a = SizeList sizes
  else exists size, arg_output_size a = SizeInt size.

(** A univariate configuration with one past covariate and one future
    covariate, sharing enabled. *)
Definition example_args (share : bool) : InitArgs :=
  {| arg_variables :=
       {| VariableGroups.reals_input :=
            ["target_0"; "past_covariate_0"; "future_covariate_0"];
          VariableGroups.time_varying_encoder_input :=
            ["target_0"; "past_covariate_0"; "future_covariate_0"];
          VariableGroups.time_varying_decoder_input := ["future_covariate_0"];
          VariableGroups.static_input := [] |};
     arg_input_dim := 3;
     arg_output_dim := 1;
     arg_input_chunk_length := 5;
     arg_output_chunk_length := 2;
     arg_output_size := SizeInt 7;
     arg_hidden_size := 8;
     arg_lstm_layers := 1;
     arg_dropout := (1 # 10)%Q;
     arg_attention_head_size := 4;
     arg_hidden_continuous_size := 8;
     arg_hidden_continuous_sizes := [];
     arg_share_single_variable_networks := share |}.

(** *** Running a construction *)

Lemma run_bind {A B : Type} (c : Init A) (k : A -> Init B) (h h' : Heap) (a : A) :
  c h = Ok (a, h') -> bind c k h = k a h'.
Proof. intros E. unfold bind. now rewrite E. Qed.

Lemma new_ok (o : ModuleObj) (h : Heap) : new o h = Ok (length h, h ++ [o]).
Proof. reflexivity. Qed.

(** Runs the first call of a chain with the lemma [L] that says it returns. *)
Ltac run_with L :=
  let x := fresh "x" in
  let h := fresh "h" in
  let E := fresh "E" in
  destruct L as (x & h & E);
  rewrite (run_bind _ _ _ _ _ E); cbv zeta.

Ltac run_new := cbv beta; rewrite (run_bind _ _ _ _ _ (new_ok _ _)); cbv zeta.

Lemma for_each_total {A S : Type} (body : S -> A -> Init S) :
  (forall acc x h, exists acc' h', body acc x h = Ok (acc', h')) ->
  forall xs acc h, exists acc' h', for_each xs body acc h = Ok (acc', h').
Proof.
  intros Hbody xs. induction xs as [|x xs IH]; intros acc h; simpl.
  - now exists acc, h.
  - destruct (Hbody acc x h) as (acc1 & h1 & E).
    rewrite (run_bind _ _ _ _ _ E). apply IH.
Qed.

Lemma new_prescalers_ok (a : InitArgs) (names : list string) (h : Heap) :
  exists d h', new_prescalers a names h = Ok (d, h').
Proof.
  unfold new_prescalers. apply for_each_total. intros acc x h0.
  run_new. now eexists _, _.
Qed.

Lemma new_output_layer_ok (a : InitArgs) (h : Heap) :
  output_size_fits a -> exists l h', new_output_layer a h = Ok (l, h').
Proof.
  unfold output_size_fits, new_output_layer.
  destruct (arg_output_dim a >? 1); intros [sz ->].
  - destruct (for_each_total
                (fun acc size => l <- new (Linear (arg_hidden_size a) size) ;;
                                 ret (acc ++ [l]))
                ltac:(intros acc x h0; run_new; now eexists _, _) sz [] h)
      as (acc & h' & E).
    rewrite (run_bind _ _ _ _ _ E). now eexists _, _.
  - run_new. now eexists _, _.
Qed.

(** *** The shared map *)

(** First loop: every encoder feature gets a new sub-network. *)
Lemma shared_encoder_loop (a : InitArgs) (items : PyDict.dict Z) :
  forall (acc : PyDict.dict handle) (h : Heap),
    NoDup (PyDict.keys acc ++ PyDict.keys items) ->
    exists acc' h',
      for_each items
        (fun shared '(name, input_size) =>
           g <- new (GatedResidualNetwork input_size
                       (Z.min input_size (arg_hidden_size a))
                       (arg_hidden_size a) (arg_dropout a) None) ;;
           ret (PyDict.set shared name g)) acc h = Ok (acc', h') /\
      PyDict.keys acc' = PyDict.keys acc ++ PyDict.keys items.
Proof.
  induction items as [|[name sz] items IH]; intros acc h Hnd; simpl.
  - exists acc, h. now rewrite app_nil_r.
  - rewrite (run_bind _ _ _ _ _ (run_bind _ _ _ _ _ (new_ok _ _))). unfold ret at 1.
    assert (Hk : PyDict.keys (PyDict.set acc name (length h)) = PyDict.keys acc ++ [name]).
    { rewrite PyDict.keys_set. destruct (PyDict.mem acc name) eqn:E; [|reflexivity].
      apply PyDict.mem_In_keys in E. apply NoDup_remove_2 in Hnd.
      exfalso. apply Hnd, in_or_app. now left. }
    destruct (IH (PyDict.set acc name (length h)) (h ++ [GatedResidualNetwork sz
                 (Z.min sz (arg_hidden_size a)) (arg_hidden_size a) (arg_dropout a) None]))
      as (acc' & h' & E & Hkeys).
    + rewrite Hk, <- app_assoc. exact Hnd.
    + exists acc', h'. split; [exact E|]. rewrite Hkeys, Hk, <- app_assoc. reflexivity.
Qed.

(** Second loop: a decoder feature gets a new sub-network only when its
    name is not in the map yet. *)
Lemma shared_decoder_loop (a : InitArgs) (items : PyDict.dict Z) :
  forall (acc : PyDict.dict handle) (h : Heap),
    NoDup (PyDict.keys items) ->
    exists acc' h',
      for_each items
        (fun shared '(name, input_size) =>
           if negb (PyDict.mem shared name)
           then g <- new (GatedResidualNetwork input_size
                            (Z.min input_size (arg_hidden_size a))
                            (arg_hidden_size a) (arg_dropout a) None) ;;
                ret (PyDict.set shared name g)
           else ret shared) acc h = Ok (acc', h') /\
      PyDict.keys acc' =
        PyDict.keys acc
        ++ filter (fun n => negb (PyDict.mem acc n)) (PyDict.keys items) /\
      (forall n v, PyDict.get acc n = Some v -> PyDict.get acc' n = Some v).
Proof.
  induction items as [|[name sz] items IH]; intros acc h Hnd; simpl.
  - exists acc, h. rewrite app_nil_r. auto.
  - inversion Hnd as [|? ? Hname Hnd']; subst.
    destruct (PyDict.mem acc name) eqn:Em; cbn [negb].
    + unfold ret at 1. rewrite (run_bind _ _ h h _ eq_refl).
      destruct (IH acc h Hnd') as (acc' & h' & E & Hk & Hv).
      exists acc', h'. auto.
    + rewrite (run_bind _ _ _ _ _ (run_bind _ _ _ _ _ (new_ok _ _))). unfold ret at 1.
      destruct (IH (PyDict.set acc name (length h))
                  (h ++ [GatedResidualNetwork sz (Z.min sz (arg_hidden_size a))
                           (arg_hidden_size a) (arg_dropout a) None]) Hnd')
        as (acc' & h' & E & Hk & Hv).
      exists acc', h'. split; [exact E|]. split.
      * rewrite Hk, PyDict.keys_set, Em, <- app_assoc. simpl. do 2 f_equal.
        apply filter_ext_in. intros n Hn. rewrite PyDict.mem_set.
        destruct (String.eqb name n) eqn:En; [|reflexivity].
        apply String.eqb_eq in En. subst n. contradiction.
      * intros n v Hg. apply Hv. rewrite PyDict.get_set_other; [exact Hg|].
        intros <-. unfold PyDict.mem in Em. now rewrite Hg in Em.
Qed.

Lemma new_shared_single_variable_grns_ok (a : InitArgs)
  (enc dec : PyDict.dict Z) (h : Heap) :
  NoDup (PyDict.keys enc) -> NoDup (PyDict.keys dec) ->
  exists shared h',
    new_shared_single_variable_grns a enc dec h = Ok (shared, h') /\
    PyDict.keys shared =
      PyDict.keys enc
      ++ filter (fun n => negb (PyDict.mem enc n)) (PyDict.keys dec).
Proof.
  intros Henc Hdec. unfold new_shared_single_variable_grns.
  destruct (shared_encoder_loop a enc [] h Henc) as (s1 & h1 & E1 & K1).
  rewrite (run_bind _ _ _ _ _ E1).
  destruct (shared_decoder_loop a dec s1 h1 Hdec) as (s2 & h2 & E2 & K2 & _).
  exists s2, h2. split; [exact E2|]. rewrite K2, K1. simpl. f_equal.
  apply filter_ext. intros n. f_equal. apply eq_true_iff_eq.
  rewrite !PyDict.mem_In_keys, K1. reflexivity.
Qed.

(** *** A gate keeps the instances it is given *)

Lemma single_variable_grns_loop (hidden : Z) (drop : Q)
  (given : PyDict.dict handle) (items : PyDict.dict Z) :
  forall (acc : PyDict.dict handle) (h : Heap),
    exists acc' h',
      for_each items
        (fun grns '(name, input_size) =>
           match PyDict.get given name with
           | Some g => ret (PyDict.set grns name g)
           | None =>
               g <- new (GatedResidualNetwork input_size
                           (Z.min input_size hidden) hidden drop None) ;;
               ret (PyDict.set grns name g)
           end) acc h = Ok (acc', h') /\
      forall name g,
        PyDict.get given name = Some g ->
        In name (PyDict.keys items) \/ PyDict.get acc name = Some g ->
        PyDict.get acc' name = Some g.
Proof.
  induction items as [|[n0 sz] items IH]; intros acc h; simpl.
  - exists acc, h. split; [reflexivity|]. intros name g _ [[]|H]. exact H.
  - destruct (PyDict.get given n0) as [g0|] eqn:Eg.
    + unfold ret at 1. rewrite (run_bind _ _ h h _ eq_refl).
      destruct (IH (PyDict.set acc n0 g0) h) as (acc' & h' & E & Hreuse).
      exists acc', h'. split; [exact E|].
      intros name g Hgiven Hin. apply Hreuse; [exact Hgiven|].
      destruct (String.eqb n0 name) eqn:En.
      * apply String.eqb_eq in En. subst name. right.
        rewrite PyDict.get_set_same. congruence.
      * apply String.eqb_neq in En. rewrite PyDict.get_set_other by exact En.
        destruct Hin as [[H|H]|H]; [contradiction | now left | now right].
    + rewrite (run_bind _ _ _ _ _ (run_bind _ _ _ _ _ (new_ok _ _))). unfold ret at 1.
      destruct (IH (PyDict.set acc n0 (length h))
                  (h ++ [GatedResidualNetwork sz (Z.min sz hidden) hidden drop None]))
        as (acc' & h' & E & Hreuse).
      exists acc', h'. split; [exact E|].
      intros name g Hgiven Hin. apply Hreuse; [exact Hgiven|].
      assert (En : n0 <> name) by (intros <-; congruence).
      rewrite PyDict.get_set_other by exact En.
      destruct Hin as [[H|H]|H]; [contradiction | now left | now right].
Qed.

Lemma new_VariableSelectionNetwork_ok
  (input_sizes : PyDict.dict Z) (hidden : Z) (drop : Q)
  (context_size : option Z) (pre given : PyDict.dict handle) (h : Heap) :
  exists v h',
    new_VariableSelectionNetwork input_sizes hidden drop context_size pre given h
      = Ok (v, h') /\
    forall name g,
      In name (PyDict.keys input_sizes) ->
      PyDict.get given name = Some g ->
      PyDict.get (vsn_single_variable_grns v) name = Some g.
Proof.
  unfold new_VariableSelectionNetwork.
  destruct (single_variable_grns_loop hidden drop given input_sizes [] h)
    as (grns & h1 & E & Hreuse).
  rewrite (run_bind _ _ _ _ _ E). run_new.
  eexists _, _. split; [reflexivity|]. cbn [vsn_single_variable_grns].
  intros name g Hin Hg. apply (Hreuse name g Hg). now left.
Qed.

(** *** The constructed module *)

Lemma NoDup_keys_input_sizes (a : InitArgs) (names : list string) :
  NoDup (PyDict.keys (input_sizes_of a names)).
Proof.
  unfold input_sizes_of. rewrite PyDict.keys_comprehension.
  apply PyDict.unique_NoDup.
Qed.

Lemma In_keys_input_sizes (a : InitArgs) (names : list string) (n : string) :
  In n (PyDict.keys (input_sizes_of a names)) <-> In n names.
Proof.
  unfold input_sizes_of. rewrite PyDict.keys_comprehension.
  apply PyDict.unique_In.
Qed.

(** What [__init__] returns: the attributes that share an instance, and
    those that do not. *)
Lemma init_returns (a : InitArgs) (h : Heap) :
  output_size_fits a ->
  exists m h',
    init a h = Ok (m, h') /\
    variables m = arg_variables a /\
    post_lstm_gate_decoder m = post_lstm_gate_encoder m /\
    post_lstm_add_norm_decoder m = post_lstm_add_norm_encoder m /\
    lstm_decoder m <> lstm_encoder m /\
    (arg_share_single_variable_networks a = true ->
     exists shared,
       shared_single_variable_grns m = Some shared /\
       PyDict.keys shared =
         PyDict.unique (encoder_variables m)
         ++ filter (fun n => negb (VariableGroups.str_in n (encoder_variables m)))
              (PyDict.unique (decoder_variables m)) /\
       (forall name g,
          In name (encoder_variables m) ->
          PyDict.get shared name = Some g ->
          PyDict.get (vsn_single_variable_grns (encoder_variable_selection m)) name
            = Some g) /\
       (forall name g,
          In name (decoder_variables m) ->
          PyDict.get shared name = Some g ->
          PyDict.get (vsn_single_variable_grns (decoder_variable_selection m)) name
            = Some g)).
Proof.
  intros Hfit. unfold init. cbv zeta.
  destruct (new_prescalers_ok a (VariableGroups.reals_input (arg_variables a)) h)
    as (pre & h1 & E1).
  rewrite (run_bind _ _ _ _ _ E1).
  destruct (new_VariableSelectionNetwork_ok
              (input_sizes_of a (VariableGroups.static_input (arg_variables a)))
              (arg_hidden_size a) (arg_dropout a) None pre [] h1)
    as (vs & h2 & E2 & _).
  rewrite (run_bind _ _ _ _ _ E2).
  set (enc := input_sizes_of a
                (VariableGroups.time_varying_encoder_input (arg_variables a))).
  set (dec := input_sizes_of a
                (VariableGroups.time_varying_decoder_input (arg_variables a))).
  assert (Hshared :
    exists sh h3,
      (if arg_share_single_variable_networks a
       then d <- new_shared_single_variable_grns a enc dec ;; ret (Some d)
       else ret None) h2 = Ok (sh, h3) /\
      (arg_share_single_variable_networks a = true ->
       exists shared, sh = Some shared /\
         PyDict.keys shared =
           PyDict.keys enc
           ++ filter (fun n => negb (PyDict.mem enc n)) (PyDict.keys dec))).
  { destruct (arg_share_single_variable_networks a).
    - destruct (new_shared_single_variable_grns_ok a enc dec h2
                  (NoDup_keys_input_sizes _ _) (NoDup_keys_input_sizes _ _))
        as (shared & h3 & E & K).
      rewrite (run_bind _ _ _ _ _ E). exists (Some shared), h3.
      split; [reflexivity|]. intros _. now exists shared.
    - exists None, h2. split; [reflexivity | discriminate]. }
  destruct Hshared as (sh & h3 & E3 & Hsh).
  rewrite (run_bind _ _ _ _ _ E3).
  destruct (new_VariableSelectionNetwork_ok enc (arg_hidden_size a) (arg_dropout a)
              (Some (arg_hidden_size a)) pre
              (match sh with Some d => d | None => [] end) h3)
    as (ve & h4 & E4 & Hve).
  rewrite (run_bind _ _ _ _ _ E4).
  destruct (new_VariableSelectionNetwork_ok dec (arg_hidden_size a) (arg_dropout a)
              (Some (arg_hidden_size a)) pre
              (match sh with Some d => d | None => [] end) h4)
    as (vd & h5 & E5 & Hvd).
  rewrite (run_bind _ _ _ _ _ E5).
  do 13 run_new.
  match goal with
  | |- context [bind (new_output_layer a) _ ?hh] =>
      destruct (new_output_layer_ok a hh Hfit) as (ol & h6 & E6)
  end.
  rewrite (run_bind _ _ _ _ _ E6). unfold ret.
  eexists _, _. split; [reflexivity|].
  cbn [variables post_lstm_gate_decoder post_lstm_gate_encoder
       post_lstm_add_norm_decoder post_lstm_add_norm_encoder
       lstm_decoder lstm_encoder shared_single_variable_grns
       encoder_variable_selection decoder_variable_selection].
  unfold encoder_variables, decoder_variables. cbn [variables].
  split; [reflexivity|]. split; [reflexivity|]. split; [reflexivity|].
  split; [rewrite !length_app; simpl; lia|].
  intros Hs. destruct (Hsh Hs) as (shared & -> & K).
  exists shared. split; [reflexivity|]. split.
  - rewrite K. unfold enc, dec, input_sizes_of.
    rewrite !PyDict.keys_comprehension. f_equal.
    apply filter_ext. intros n. f_equal. apply eq_true_iff_eq.
    rewrite PyDict.mem_In_keys, PyDict.keys_comprehension, PyDict.unique_In.
    unfold VariableGroups.str_in. rewrite existsb_exists. split.
    + intros H. exists n. split; [exact H | apply String.eqb_refl].
    + intros (x & Hx & Ex). apply String.eqb_eq in Ex. now subst.
  - split; intros name g Hin Hg.
    + apply Hve; [apply In_keys_input_sizes; exact Hin | exact Hg].
    + apply Hvd; [apply In_keys_input_sizes; exact Hin | exact Hg].
Qed.

(** *** The objects of the shared map *)

Lemma run_bind_inv {A B : Type} (c : Init A) (k : A -> Init B) (h h' : Heap) (b : B) :
  bind c k h = Ok (b, h') ->
  exists a h1, c h = Ok (a, h1) /\ k a h1 = Ok (b, h').
Proof.
  unfold bind. destruct (c h) as [[a h1]| e |]; intros H;
    [now exists a, h1 | discriminate ..].
Qed.

Lemma nth_error_snoc (h : Heap) (o : ModuleObj) :
  nth_error (h ++ [o]) (length h) = Some o.
Proof. rewrite nth_error_app2 by lia. now rewrite Nat.sub_diag. Qed.

Lemma nth_error_app_keep (h ext : Heap) (g : handle) (o : ModuleObj) :
  nth_error h g = Some o -> nth_error (h ++ ext) g = Some o.
Proof.
  intros H. rewrite nth_error_app1; [exact H|].
  apply nth_error_Some. congruence.
Qed.

(** A loop whose body only adds objects only adds objects. *)
Lemma for_each_extends {A S : Type} (body : S -> A -> Init S) :
  (forall acc x h acc' h',
     body acc x h = Ok (acc', h') -> exists ext, h' = h ++ ext) ->
  forall xs acc h acc' h',
    for_each xs body acc h = Ok (acc', h') -> exists ext, h' = h ++ ext.
Proof.
  intros Hbody xs. induction xs as [|x xs IH]; intros acc h acc' h' H; simpl in H.
  - injection H as _ <-. exists []. now rewrite app_nil_r.
  - apply run_bind_inv in H. destruct H as (acc1 & h1 & E1 & H).
    destruct (Hbody _ _ _ _ _ E1) as (e1 & ->).
    destruct (IH _ _ _ _ H) as (e2 & ->).
    exists (e1 ++ e2). now rewrite app_assoc.
Qed.

Lemma new_prescalers_extends (a : InitArgs) (names : list string)
  (h h' : Heap) (d : PyDict.dict handle) :
  new_prescalers a names h = Ok (d, h') -> exists ext, h' = h ++ ext.
Proof.
  unfold new_prescalers. apply for_each_extends.
  intros acc x h0 acc' h0' H.
  rewrite (run_bind _ _ _ _ _ (new_ok _ _)) in H. injection H as _ <-.
  now eexists.
Qed.

Lemma new_VariableSelectionNetwork_extends
  (input_sizes : PyDict.dict Z) (hidden : Z) (drop : Q)
  (context_size : option Z) (pre given : PyDict.dict handle) (h h' : Heap)
  (v : VariableSelectionNetwork) :
  new_VariableSelectionNetwork input_sizes hidden drop context_size pre given h
    = Ok (v, h') ->
  exists ext, h' = h ++ ext.
Proof.
  unfold new_VariableSelectionNetwork. intros H.
  apply run_bind_inv in H. destruct H as (grns & h1 & E1 & H).
  rewrite (run_bind _ _ _ _ _ (new_ok _ _)) in H. injection H as _ <-.
  apply for_each_extends in E1.
  - destruct E1 as (e1 & ->). eexists. now rewrite <- app_assoc.
  - intros acc [name sz] h0 acc' h0' Hb.
    destruct (PyDict.get given name).
    + injection Hb as _ <-. exists []. now rewrite app_nil_r.
    + rewrite (run_bind _ _ _ _ _ (new_ok _ _)) in Hb. injection Hb as _ <-.
      now eexists.
Qed.

Lemma new_output_layer_extends (a : InitArgs) (h h' : Heap) (ol : OutputLayer) :
  new_output_layer a h = Ok (ol, h') -> exists ext, h' = h ++ ext.
Proof.
  unfold new_output_layer.
  destruct (arg_output_dim a >? 1), (arg_output_size a) as [size|sizes];
    try discriminate; intros H.
  - apply run_bind_inv in H. destruct H as (layers & h1 & E & H).
    injection H as _ <-. revert E. apply for_each_extends.
    intros acc x h0 acc' h0' Hb.
    rewrite (run_bind _ _ _ _ _ (new_ok _ _)) in Hb. injection Hb as _ <-.
    now eexists.
  - rewrite (run_bind _ _ _ _ _ (new_ok _ _)) in H. injection H as _ <-.
    now eexists.
Qed.

(** The gating sub-network [__init__] builds for a feature of input size
    [sz]. *)
Definition feature_grn (a : InitArgs) (sz : Z) : ModuleObj :=
  GatedResidualNetwork sz (Z.min sz (arg_hidden_size a)) (arg_hidden_size a)
    (arg_dropout a) None.

(** Every entry of the map is an object of the heap, created at or after
    position [base], that is the gating sub-network of its feature; two
    features never hold the same object. *)
Definition shared_objects (a : InitArgs) (size_of : string -> Z) (base : nat)
  (shared : PyDict.dict handle) (h : Heap) : Prop :=
  (forall name g,
     PyDict.get shared name = Some g ->
     (base <= g < length h)%nat /\
     nth_error h g = Some (feature_grn a (size_of name))) /\
  (forall n1 n2 g,
     PyDict.get shared n1 = Some g -> PyDict.get shared n2 = Some g -> n1 = n2).

Lemma shared_objects_new (a : InitArgs) (size_of : string -> Z) (base : nat)
  (shared : PyDict.dict handle) (h : Heap) (name : string) :
  (base <= length h)%nat ->
  shared_objects a size_of base shared h ->
  shared_objects a size_of base (PyDict.set shared name (length h))
    (h ++ [feature_grn a (size_of name)]).
Proof.
  intros Hbase (Hobj & Hinj). split.
  - intros n g Hg. rewrite length_app. cbn [length].
    destruct (String.eqb name n) eqn:E.
    + apply String.eqb_eq in E. subst n. rewrite PyDict.get_set_same in Hg.
      injection Hg as <-. split; [lia | apply nth_error_snoc].
    + apply String.eqb_neq in E. rewrite PyDict.get_set_other in Hg by exact E.
      destruct (Hobj n g Hg) as (Hb & Ho).
      split; [lia | now apply nth_error_app_keep].
  - intros n1 n2 g H1 H2.
    destruct (String.eqb_spec name n1) as [E1|E1],
             (String.eqb_spec name n2) as [E2|E2].
    + congruence.
    + subst n1. rewrite PyDict.get_set_same in H1. injection H1 as <-.
      rewrite PyDict.get_set_other in H2 by exact E2.
      destruct (Hobj n2 _ H2) as (Hb & _). lia.
    + subst n2. rewrite PyDict.get_set_same in H2. injection H2 as <-.
      rewrite PyDict.get_set_other in H1 by exact E1.
      destruct (Hobj n1 _ H1) as (Hb & _). lia.
    + rewrite PyDict.get_set_other in H1 by exact E1.
      rewrite PyDict.get_set_other in H2 by exact E2.
      exact (Hinj n1 n2 g H1 H2).
Qed.

Lemma shared_encoder_loop_objects (a : InitArgs) (size_of : string -> Z)
  (base : nat) (items : PyDict.dict Z) :
  Forall (fun kv => snd kv = size_of (fst kv)) items ->
  forall (acc acc' : PyDict.dict handle) (h h' : Heap),
    (base <= length h)%nat ->
    shared_objects a size_of base acc h ->
    for_each items
      (fun shared '(name, input_size) =>
         g <- new (GatedResidualNetwork input_size
                     (Z.min input_size (arg_hidden_size a))
                     (arg_hidden_size a) (arg_dropout a) None) ;;
         ret (PyDict.set shared name g)) acc h = Ok (acc', h') ->
    (base <= length h')%nat /\ shared_objects a size_of base acc' h'.
Proof.
  induction 1 as [|[name sz] items Hsz Hitems IH]; intros acc acc' h h' Hbase Hinv H;
    simpl in H.
  - injection H as <- <-. auto.
  - cbn [fst snd] in Hsz. subst sz.
    rewrite (run_bind _ _ _ _ _ (run_bind _ _ _ _ _ (new_ok _ _))) in H.
    unfold ret at 1 in H.
    apply IH in H; [exact H | rewrite length_app; lia |].
    now apply shared_objects_new.
Qed.

Lemma shared_decoder_loop_objects (a : InitArgs) (size_of : string -> Z)
  (base : nat) (items : PyDict.dict Z) :
  Forall (fun kv => snd kv = size_of (fst kv)) items ->
  forall (acc acc' : PyDict.dict handle) (h h' : Heap),
    (base <= length h)%nat ->
    shared_objects a size_of base acc h ->
    for_each items
      (fun shared '(name, input_size) =>
         if negb (PyDict.mem shared name)
         then g <- new (GatedResidualNetwork input_size
                          (Z.min input_size (arg_hidden_size a))
                          (arg_hidden_size a) (arg_dropout a) None) ;;
              ret (PyDict.set shared name g)
         else ret shared) acc h = Ok (acc', h') ->
    (base <= length h')%nat /\ shared_objects a size_of base acc' h'.
Proof.
  induction 1 as [|[name sz] items Hsz Hitems IH]; intros acc acc' h h' Hbase Hinv H;
    simpl in H.
  - injection H as <- <-. auto.
  - cbn [fst snd] in Hsz. subst sz.
    destruct (PyDict.mem acc name); cbn [negb] in H.
    + unfold ret at 1 in H. rewrite (run_bind _ _ h h _ eq_refl) in H.
      now apply IH in H.
    + rewrite (run_bind _ _ _ _ _ (run_bind _ _ _ _ _ (new_ok _ _))) in H.
      unfold ret at 1 in H.
      apply IH in H; [exact H | rewrite length_app; lia |].
      now apply shared_objects_new.
Qed.

Lemma new_shared_single_variable_grns_objects (a : InitArgs)
  (size_of : string -> Z) (enc dec : PyDict.dict Z) (h h' : Heap)
  (shared : PyDict.dict handle) :
  Forall (fun kv => snd kv = size_of (fst kv)) enc ->
  Forall (fun kv => snd kv = size_of (fst kv)) dec ->
  new_shared_single_variable_grns a enc dec h = Ok (shared, h') ->
  (length h <= length h')%nat /\ shared_objects a size_of (length h) shared h'.
Proof.
  intros Henc Hdec H. unfold new_shared_single_variable_grns in H.
  apply run_bind_inv in H. destruct H as (s1 & h1 & E1 & H).
  apply (shared_encoder_loop_objects a size_of (length h) enc Henc) in E1.
  - destruct E1 as (Hb1 & Hinv1).
    exact (shared_decoder_loop_objects a size_of (length h) dec Hdec _ _ _ _
             Hb1 Hinv1 H).
  - lia.
  - split; intros; discriminate.
Qed.

(** With sharing enabled, the shared map of a constructed module holds,
    for each of its features, a gating sub-network that this construction
    created for that feature, and no object twice. *)
Lemma init_shared_objects (a : InitArgs) (h h' : Heap) (m : TFTModule) :
  arg_share_single_variable_networks a = true ->
  init a h = Ok (m, h') ->
  exists shared,
    shared_single_variable_grns m = Some shared /\
    (forall name g,
       PyDict.get shared name = Some g ->
       (length h <= g < length h')%nat /\
       nth_error h' g = Some (feature_grn a (continuous_size a name))) /\
    (forall n1 n2 g,
       PyDict.get shared n1 = Some g -> PyDict.get shared n2 = Some g -> n1 = n2).
Proof.
  intros Hshare H. unfold init in H. cbv zeta in H. rewrite Hshare in H.
  apply run_bind_inv in H. destruct H as (pre & h1 & E1 & H).
  apply new_prescalers_extends in E1. destruct E1 as (e1 & ->).
  apply run_bind_inv in H. destruct H as (vs & h2 & E2 & H).
  apply new_VariableSelectionNetwork_extends in E2. destruct E2 as (e2 & ->).
  apply run_bind_inv in H. destruct H as (sh & h3 & E3 & H).
  apply run_bind_inv in E3. destruct E3 as (shared & h3' & E3 & Er).
  injection Er as <- <-.
  apply (new_shared_single_variable_grns_objects a (continuous_size a)) in E3;
    [|apply PyDict.comprehension_values ..].
  destruct E3 as (Hlen3 & Hobj & Hinj).
  apply run_bind_inv in H. destruct H as (ve & h4 & E4 & H).
  apply new_VariableSelectionNetwork_extends in E4. destruct E4 as (e4 & ->).
  apply run_bind_inv in H. destruct H as (vd & h5 & E5 & H).
  apply new_VariableSelectionNetwork_extends in E5. destruct E5 as (e5 & ->).
  do 13 (rewrite (run_bind _ _ _ _ _ (new_ok _ _)) in H; cbv beta zeta in H).
  apply run_bind_inv in H. destruct H as (ol & h6 & E6 & H).
  unfold ret in H. injection H as <- <-.
  apply new_output_layer_extends in E6. destruct E6 as (e6 & ->).
  exists shared. cbn [shared_single_variable_grns].
  split; [reflexivity|]. split; [|exact Hinj].
  intros name g Hg. destruct (Hobj name g Hg) as (Hb & Ho).
  rewrite !length_app in Hb. rewrite !length_app.
  split; [lia | repeat apply nth_error_app_keep; exact Ho].
Qed.

(** C5: with [share_single_variable_networks] enabled, construction
    returns a module whose shared map holds the encoder features first and
    then the decoder features that are not encoder features, with a
    different object for each feature; and every feature name of both the
    encoder and the decoder group is served, in the encoder gate, in the
    decoder gate and in the shared map, by one and the same instance, which
    is a [GatedResidualNetwork] object that this construction created with
    the sizes of that feature. *)
Theorem shared_single_variable_grns_one_instance (a : InitArgs) (h : Heap) :
  arg_share_single_variable_networks a = true ->
  output_size_fits a ->
  exists m h' shared,
    init a h = Ok (m, h') /\
    shared_single_variable_grns m = Some shared /\
    PyDict.keys shared =
      PyDict.unique (encoder_variables m)
      ++ filter (fun n => negb (VariableGroups.str_in n (encoder_variables m)))
           (PyDict.unique (decoder_variables m)) /\
    (forall n1 n2 g,
       PyDict.get shared n1 = Some g -> PyDict.get shared n2 = Some g ->
       n1 = n2) /\
    forall name,
      In name (encoder_variables m) ->
      In name (decoder_variables m) ->
      exists g,
        PyDict.get shared name = Some g /\
        PyDict.get (vsn_single_variable_grns (encoder_variable_selection m)) name
          = Some g /\
        PyDict.get (vsn_single_variable_grns (decoder_variable_selection m)) name
          = Some g /\
        (length h <= g < length h')%nat /\
        nth_error h' g =
          Some (GatedResidualNetwork
                  (continuous_size a name)
                  (Z.min (continuous_size a name) (arg_hidden_size a))
                  (arg_hidden_size a) (arg_dropout a) None).
Proof.
  intros Hshare Hfit.
  destruct (init_returns a h Hfit) as (m & h' & E & _ & _ & _ & _ & Hsh).
  destruct (Hsh Hshare) as (shared & Es & K & Henc & Hdec).
  destruct (init_shared_objects a h h' m Hshare E) as (shared' & Es' & Hobj & Hinj).
  rewrite Es in Es'. injection Es' as <-.
  exists m, h', shared. repeat split; try assumption.
  intros name Hine Hind.
  destruct (PyDict.get shared name) as [g|] eqn:Eg.
  - exists g. destruct (Hobj name g Eg) as (Hb & Ho).
    split; [reflexivity|]. split; [now apply Henc|]. split; [now apply Hdec|].
    split; [exact Hb | exact Ho].
  - exfalso. assert (Hk : In name (PyDict.keys shared)).
    { rewrite K. apply in_or_app. left. now apply PyDict.unique_In. }
    apply PyDict.get_In_keys in Hk. contradiction.
Qed.

(** The theorem at the univariate example with sharing enabled, on an
    empty heap: the feature [future_covariate_0] of both groups is object 6
    in both gates, a gating sub-network from its input size 8 to the hidden
    size 8. *)
Lemma shared_single_variable_grns_one_instance_witness :
  exists m h' shared,
    init (example_args true) [] = Ok (m, h') /\
    shared_single_variable_grns m = Some shared /\
    PyDict.get shared "future_covariate_0" = Some 6%nat /\
    PyDict.get (vsn_single_variable_grns (encoder_variable_selection m))
      "future_covariate_0" = Some 6%nat /\
    PyDict.get (vsn_single_variable_grns (decoder_variable_selection m))
      "future_covariate_0" = Some 6%nat /\
    nth_error h' 6%nat = Some (GatedResidualNetwork 8 8 8 (1 # 10)%Q None).
Proof.
  destruct (shared_single_variable_grns_one_instance (example_args true) [])
    as (m & h' & shared & E & Es & _ & _ & Hboth).
  - reflexivity.
  - exists 7. reflexivity.
  - destruct (Hboth "future_covariate_0") as (g & Hg & He & Hd & _ & Ho).
    + vm_compute in E. injection E as <- <-. cbn. tauto.
    + vm_compute in E. injection E as <- <-. cbn. tauto.
    + exists m, h', shared. split; [exact E|]. split; [exact Es|].
      assert (Eg : g = 6%nat).
      { vm_compute in E. injection E as <- <-.
        vm_compute in Es. injection Es as <-.
        vm_compute in Hg. now injection Hg. }
      subst g. repeat split; assumption.
Defined.

(** Without sharing each gate builds its own sub-network for the feature. *)
Example unshared_single_variable_grns_differ :
  match init (example_args false) [] with
  | Ok (m, _) =>
      PyDict.get (vsn_single_variable_grns (encoder_variable_selection m))
        "future_covariate_0" = Some 6%nat /\
      PyDict.get (vsn_single_variable_grns (decoder_variable_selection m))
        "future_covariate_0" = Some 8%nat
  | _ => False
  end.
Proof. vm_compute. split; reflexivity. Qed.

(** C8: on every module the [categoricals] accessor raises
    [NotImplementedError] ("not yet supported") and yields no list. *)
Theorem categoricals_not_supported (self : TFTModule) :
  categoricals self =
    Raise (NotImplementedError "TFT does not yet support categorical variables") /\
  forall names, categoricals self <> Ok names.
Proof.
  split; [reflexivity|]. intros names. unfold categoricals. discriminate.
Qed.

(** *** Further facts about the constructed module *)

(** [m] with another output layer. *)
Definition with_output_layer (m : TFTModule) (ol : OutputLayer) : TFTModule :=
  {| variables := variables m;
     input_dim := input_dim m;
     output_dim := output_dim m;
     input_chunk_length := input_chunk_length m;
     output_chunk_length := output_chunk_length m;
     output_size := output_size m;
     hidden_size := hidden_size m;
     lstm_layers := lstm_layers m;
     dropout := dropout m;
     attention_head_size := attention_head_size m;
     hidden_continuous_size := hidden_continuous_size m;
     hidden_continuous_sizes := hidden_continuous_sizes m;
     share_single_variable_networks := share_single_variable_networks m;
     n_targets := n_targets m;
     prescalers := prescalers m;
     static_variable_selection := static_variable_selection m;
     shared_single_variable_grns := shared_single_variable_grns m;
     encoder_variable_selection := encoder_variable_selection m;
     decoder_variable_selection := decoder_variable_selection m;
     static_context_variable_selection := static_context_variable_selection m;
     static_context_initial_hidden_lstm := static_context_initial_hidden_lstm m;
     static_context_initial_cell_lstm := static_context_initial_cell_lstm m;
     static_context_enrichment := static_context_enrichment m;
     lstm_encoder := lstm_encoder m;
     lstm_decoder := lstm_decoder m;
     post_lstm_gate_encoder := post_lstm_gate_encoder m;
     post_lstm_gate_decoder := post_lstm_gate_decoder m;
     post_lstm_add_norm_encoder := post_lstm_add_norm_encoder m;
     post_lstm_add_norm_decoder := post_lstm_add_norm_decoder m;
     static_enrichment := static_enrichment m;
     multihead_attn := multihead_attn m;
     post_attn_gate_norm := post_attn_gate_norm m;
     pos_wise_ff := pos_wise_ff m;
     pre_output_gate_norm := pre_output_gate_norm m;
     output_layer := ol |}.

(** The objects the thirteen fixed layers of a module should be. *)
Definition fixed_layers (a : InitArgs) (m : TFTModule) : list (handle * ModuleObj) :=
  let hidden := arg_hidden_size a in
  let drop := arg_dropout a in
  let lstm_dropout := if arg_lstm_layers a >? 1 then drop else 0%Q in
  [ (static_context_variable_selection m,
     GatedResidualNetwork hidden hidden hidden drop None);
    (static_context_initial_hidden_lstm m,
     GatedResidualNetwork hidden hidden hidden drop None);
    (static_context_initial_cell_lstm m,
     GatedResidualNetwork hidden hidden hidden drop None);
    (static_context_enrichment m,
     GatedResidualNetwork hidden hidden hidden drop None);
    (lstm_encoder m, LSTM hidden hidden (arg_lstm_layers a) lstm_dropout);
    (lstm_decoder m, LSTM hidden hidden (arg_lstm_layers a) lstm_dropout);
    (post_lstm_gate_encoder m, GatedLinearUnit hidden (Some drop));
    (post_lstm_add_norm_encoder m, AddNorm hidden);
    (static_enrichment m,
     GatedResidualNetwork hidden hidden hidden drop (Some hidden));
    (multihead_attn m,
     InterpretableMultiHeadAttention hidden (arg_attention_head_size a) drop);
    (post_attn_gate_norm m, GateAddNorm hidden (Some drop));
    (pos_wise_ff m, GatedResidualNetwork hidden hidden hidden drop None);
    (pre_output_gate_norm m, GateAddNorm hidden None) ].

(** The prescalers: one linear layer per continuous variable. *)
Lemma new_prescalers_keys (a : InitArgs) (names : list string) :
  forall (acc : PyDict.dict handle) (d : PyDict.dict unit) (h : Heap),
    PyDict.keys acc = PyDict.keys d ->
    exists acc' h',
      for_each names
        (fun d name => l <- new (Linear 1 (continuous_size a name)) ;;
                       ret (PyDict.set d name l)) acc h = Ok (acc', h') /\
      PyDict.keys acc' =
      PyDict.keys (fold_left (fun d name => PyDict.set d name tt) names d).
Proof.
  induction names as [|n names IH]; intros acc d h E; simpl.
  - now exists acc, h.
  - rewrite (run_bind _ _ _ _ _ (run_bind _ _ _ _ _ (new_ok _ _))). unfold ret at 1.
    apply IH. rewrite !PyDict.keys_set.
    assert (Em : PyDict.mem acc n = PyDict.mem d n).
    { apply eq_true_iff_eq. now rewrite !PyDict.mem_In_keys, E. }
    now rewrite Em, E.
Qed.

(** A gate that is given no instances builds all of its own, after the
    objects that exist already. *)
Lemma single_variable_grns_fresh (hidden : Z) (drop : Q) (items : PyDict.dict Z) :
  forall (acc : PyDict.dict handle) (h : Heap),
    exists acc' h',
      for_each items
        (fun grns '(name, input_size) =>
           match PyDict.get (@nil (string * handle)) name with
           | Some g => ret (PyDict.set grns name g)
           | None =>
               g <- new (GatedResidualNetwork input_size
                           (Z.min input_size hidden) hidden drop None) ;;
               ret (PyDict.set grns name g)
           end) acc h = Ok (acc', h') /\
      (length h <= length h')%nat /\
      forall name g,
        PyDict.get acc' name = Some g ->
        PyDict.get acc name = Some g \/ (length h <= g < length h')%nat.
Proof.
  induction items as [|[n0 sz] items IH]; intros acc h; simpl.
  - exists acc, h. split; [reflexivity|]. split; [lia|]. auto.
  - rewrite (run_bind _ _ _ _ _ (run_bind _ _ _ _ _ (new_ok _ _))). unfold ret at 1.
    destruct (IH (PyDict.set acc n0 (length h))
                (h ++ [GatedResidualNetwork sz (Z.min sz hidden) hidden drop None]))
      as (acc' & h' & E & Hlen & Hfresh).
    rewrite length_app in Hlen. simpl in Hlen.
    exists acc', h'. split; [exact E|]. split; [lia|].
    intros name g Hg. destruct (Hfresh name g Hg) as [Hold|Hnew].
    + destruct (String.eqb n0 name) eqn:En.
      * apply String.eqb_eq in En. subst name.
        rewrite PyDict.get_set_same in Hold. injection Hold as <-. right. lia.
      * apply String.eqb_neq in En. rewrite PyDict.get_set_other in Hold by exact En.
        now left.
    + right. rewrite length_app in Hnew. simpl in Hnew. lia.
Qed.

Lemma new_VariableSelectionNetwork_fresh
  (input_sizes : PyDict.dict Z) (hidden : Z) (drop : Q)
  (context_size : option Z) (pre : PyDict.dict handle) (h : Heap) :
  exists v h',
    new_VariableSelectionNetwork input_sizes hidden drop context_size pre [] h
      = Ok (v, h') /\
    (length h < length h')%nat /\
    forall name g,
      PyDict.get (vsn_single_variable_grns v) name = Some g ->
      (length h <= g < length h')%nat.
Proof.
  unfold new_VariableSelectionNetwork.
  destruct (single_variable_grns_fresh hidden drop input_sizes [] h)
    as (grns & h1 & E & Hlen & Hfresh).
  rewrite (run_bind _ _ _ _ _ E). run_new.
  eexists _, _. split; [reflexivity|]. cbn [vsn_single_variable_grns].
  rewrite length_app. simpl. split; [lia|].
  intros name g Hg. destruct (Hfresh name g Hg) as [Hold|Hnew];
    [discriminate | lia].
Qed.

(** The last statement of [__init__], case by case. *)
Lemma for_each_heads (hidden : Z) (sizes : list Z) :
  forall (acc : list handle) (h : Heap),
    for_each sizes
      (fun acc size => l <- new (Linear hidden size) ;; ret (acc ++ [l])) acc h
    = Ok (acc ++ seq (length h) (length sizes), h ++ map (Linear hidden) sizes).
Proof.
  induction sizes as [|sz sizes IH]; intros acc h; simpl.
  - now rewrite !app_nil_r.
  - rewrite (run_bind _ _ _ _ _ (run_bind _ _ _ _ _ (new_ok _ _))). unfold ret at 1.
    rewrite IH, length_app, <- !app_assoc. simpl.
    now rewrite Nat.add_1_r.
Qed.

Lemma new_output_layer_cases (a : InitArgs) (h : Heap) :
  new_output_layer a h =
  if arg_output_dim a >? 1
  then match arg_output_size a with
       | SizeList sizes =>
           Ok (HeadList (seq (length h) (length sizes)),
               h ++ map (Linear (arg_hidden_size a)) sizes)
       | SizeInt _ => Raise (TypeError "'int' object is not iterable")
       end
  else match arg_output_size a with
       | SizeInt size =>
           Ok (SingleHead (length h), h ++ [Linear (arg_hidden_size a) size])
       | SizeList _ =>
           Raise (TypeError "empty() received an invalid combination of arguments")
       end.
Proof.
  unfold new_output_layer.
  destruct (arg_output_dim a >? 1), (arg_output_size a) as [size|sizes];
    try reflexivity.
  rewrite (run_bind _ _ _ _ _ (for_each_heads _ _ _ _)). reflexivity.
Qed.

(** [__init__] up to its last statement: the heap and the attributes when
    the output layer is about to be built. *)
Lemma init_prefix (a : InitArgs) (h : Heap) :
  exists hh m0,
    init a h =
      match new_output_layer a hh with
      | Ok (ol, h') => Ok (with_output_layer m0 ol, h')
      | Raise e => Raise e
      | OutOfFuel => OutOfFuel
      end /\
    variables m0 = arg_variables a /\
    n_targets m0 = arg_output_dim a /\
    PyDict.keys (prescalers m0) =
      PyDict.unique (VariableGroups.reals_input (arg_variables a)) /\
    Forall (fun go => nth_error hh (fst go) = Some (snd go)) (fixed_layers a m0) /\
    NoDup (map fst (fixed_layers a m0)) /\
    (arg_share_single_variable_networks a = false ->
     forall n1 n2 g1 g2,
       PyDict.get (vsn_single_variable_grns (encoder_variable_selection m0)) n1
         = Some g1 ->
       PyDict.get (vsn_single_variable_grns (decoder_variable_selection m0)) n2
         = Some g2 ->
       (g1 < g2)%nat).
Proof.
  unfold init. cbv zeta.
  destruct (new_prescalers_keys a (VariableGroups.reals_input (arg_variables a))
              [] [] h eq_refl) as (pre & h1 & E1 & Kpre).
  fold (new_prescalers a (VariableGroups.reals_input (arg_variables a))) in E1.
  rewrite (run_bind _ _ _ _ _ E1).
  destruct (new_VariableSelectionNetwork_ok
              (input_sizes_of a (VariableGroups.static_input (arg_variables a)))
              (arg_hidden_size a) (arg_dropout a) None pre [] h1)
    as (vs & h2 & E2 & _).
  rewrite (run_bind _ _ _ _ _ E2).
  set (enc := input_sizes_of a
                (VariableGroups.time_varying_encoder_input (arg_variables a))).
  set (dec := input_sizes_of a
                (VariableGroups.time_varying_decoder_input (arg_variables a))).
  assert (Hshared :
    exists sh h3,
      (if arg_share_single_variable_networks a
       then d <- new_shared_single_variable_grns a enc dec ;; ret (Some d)
       else ret None) h2 = Ok (sh, h3) /\
      (arg_share_single_variable_networks a = false -> sh = None)).
  { destruct (arg_share_single_variable_networks a).
    - destruct (new_shared_single_variable_grns_ok a enc dec h2
                  (NoDup_keys_input_sizes _ _) (NoDup_keys_input_sizes _ _))
        as (shared & h3 & E & _).
      rewrite (run_bind _ _ _ _ _ E). exists (Some shared), h3.
      split; [reflexivity | discriminate].
    - exists None, h2. split; reflexivity. }
  destruct Hshared as (sh & h3 & E3 & Hsh).
  rewrite (run_bind _ _ _ _ _ E3).
  destruct (new_VariableSelectionNetwork_ok enc (arg_hidden_size a) (arg_dropout a)
              (Some (arg_hidden_size a)) pre
              (match sh with Some d => d | None => [] end) h3)
    as (ve & h4 & E4 & _).
  rewrite (run_bind _ _ _ _ _ E4).
  destruct (new_VariableSelectionNetwork_ok dec (arg_hidden_size a) (arg_dropout a)
              (Some (arg_hidden_size a)) pre
              (match sh with Some d => d | None => [] end) h4)
    as (vd & h5 & E5 & _).
  rewrite (run_bind _ _ _ _ _ E5).
  do 13 run_new.
  match goal with
  | |- context [bind (new_output_layer a) (fun ol => ret (@?rec ol)) ?HH] =>
      exists HH, (rec (SingleHead 0%nat))
  end.
  split.
  { unfold bind at 1. destruct (new_output_layer a _) as [[ol h']| |]; reflexivity. }
  cbn [variables n_targets prescalers encoder_variable_selection
       decoder_variable_selection].
  split; [reflexivity|]. split; [reflexivity|].
  split; [exact Kpre|]. split; [|split].
  - unfold fixed_layers.
    cbn [static_context_variable_selection static_context_initial_hidden_lstm
         static_context_initial_cell_lstm static_context_enrichment
         lstm_encoder lstm_decoder post_lstm_gate_encoder
         post_lstm_add_norm_encoder static_enrichment multihead_attn
         post_attn_gate_norm pos_wise_ff pre_output_gate_norm].
    repeat (constructor;
            [cbn [fst snd];
             repeat (rewrite nth_error_app1 by (rewrite !length_app; simpl; lia));
             apply nth_error_snoc|]).
    constructor.
  - unfold fixed_layers.
    cbn [static_context_variable_selection static_context_initial_hidden_lstm
         static_context_initial_cell_lstm static_context_enrichment
         lstm_encoder lstm_decoder post_lstm_gate_encoder
         post_lstm_add_norm_encoder static_enrichment multihead_attn
         post_attn_gate_norm pos_wise_ff pre_output_gate_norm map fst].
    rewrite !length_app. cbn [length].
    repeat (constructor; [cbn [In]; lia|]). constructor.
  - intros Hs. rewrite (Hsh Hs) in E4, E5.
    destruct (new_VariableSelectionNetwork_fresh enc (arg_hidden_size a)
                (arg_dropout a) (Some (arg_hidden_size a)) pre h3)
      as (ve' & h4' & E4' & Hlt4 & Hfresh4).
    rewrite E4 in E4'. injection E4' as <- <-.
    destruct (new_VariableSelectionNetwork_fresh dec (arg_hidden_size a)
                (arg_dropout a) (Some (arg_hidden_size a)) pre h4)
      as (vd' & h5' & E5' & Hlt5 & Hfresh5).
    rewrite E5 in E5'. injection E5' as <- <-.
    intros n1 n2 g1 g2 Hg1 Hg2.
    specialize (Hfresh4 n1 g1 Hg1). specialize (Hfresh5 n2 g2 Hg2). lia.
Qed.

(** A module is returned only when the output width fits the number of
    targets, and then its output layer is built from that width: for
    several targets, a list of widths and one head per width; otherwise one
    width and a single linear head from the hidden size to it.  (Whether the
    constructors of the layers accept the sizes is not part of this: they
    are outside the sources, see [new].) *)
Theorem init_returns_only_if_output_size_fits
  (a : InitArgs) (h h' : Heap) (m : TFTModule) :
  init a h = Ok (m, h') ->
  output_size_fits a /\
  if arg_output_dim a >? 1
  then exists sizes layers,
         arg_output_size a = SizeList sizes /\
         output_layer m = HeadList layers /\
         length layers = length sizes
  else exists size l,
         arg_output_size a = SizeInt size /\
         output_layer m = SingleHead l /\
         nth_error h' l = Some (Linear (arg_hidden_size a) size).
Proof.
  destruct (init_prefix a h) as (hh & m0 & E & _).
  rewrite E, new_output_layer_cases. unfold output_size_fits.
  destruct (arg_output_dim a >? 1), (arg_output_size a) as [size|sizes];
    try discriminate; intros H; injection H as <- <-;
    cbn [with_output_layer output_layer].
  - split; [now exists sizes|]. exists sizes, (seq (length hh) (length sizes)).
    split; [reflexivity|]. split; [reflexivity | apply length_seq].
  - split; [now exists size|]. exists size, (length hh).
    split; [reflexivity|]. split; [reflexivity | apply nth_error_snoc].
Qed.

Lemma init_returns_only_if_output_size_fits_witness :
  exists m h',
    init (example_args true) [] = Ok (m, h') /\
    output_size_fits (example_args true) /\
    exists l, output_layer m = SingleHead l /\
              nth_error h' l = Some (Linear 8 7).
Proof.
  destruct (init (example_args true) []) as [[m h']| e |] eqn:E;
    try (vm_compute in E; discriminate).
  destruct (init_returns_only_if_output_size_fits (example_args true) [] h' m E)
    as (Hfit & size & l & Hsize & Hl & Ho).
  exists m, h'. split; [reflexivity|]. split; [exact Hfit|].
  exists l. split; [exact Hl|].
  cbn in Hsize. injection Hsize as <-. exact Ho.
Defined.

(** With several targets and a single integer as output width (the default
    [output_size=7]) [__init__] raises a [TypeError] when it iterates over
    the width. *)
Theorem init_multi_target_scalar_width_raises (a : InitArgs) (h : Heap) (k : Z) :
  1 < arg_output_dim a ->
  arg_output_size a = SizeInt k ->
  init a h = Raise (TypeError "'int' object is not iterable").
Proof.
  intros Hdim Hsize.
  destruct (init_prefix a h) as (hh & m0 & E & _).
  rewrite E, new_output_layer_cases, Hsize.
  destruct (arg_output_dim a >? 1) eqn:Egt; [reflexivity|].
  rewrite Z.gtb_ltb in Egt. apply Z.ltb_ge in Egt. lia.
Qed.

(** Two targets; the widths are given by [size]. *)
Definition example_args_multi (size : OutputSize) : InitArgs :=
  {| arg_variables := arg_variables (example_args false);
     arg_input_dim := 4;
     arg_output_dim := 2;
     arg_input_chunk_length := 5;
     arg_output_chunk_length := 2;
     arg_output_size := size;
     arg_hidden_size := 8;
     arg_lstm_layers := 1;
     arg_dropout := (1 # 10)%Q;
     arg_attention_head_size := 4;
     arg_hidden_continuous_size := 8;
     arg_hidden_continuous_sizes := [];
     arg_share_single_variable_networks := false |}.

Lemma init_multi_target_scalar_width_raises_witness :
  init (example_args_multi (SizeInt 7)) [] =
  Raise (TypeError "'int' object is not iterable").
Proof.
  apply (init_multi_target_scalar_width_raises (example_args_multi (SizeInt 7)) [] 7).
  - reflexivity.
  - reflexivity.
Defined.

(** With several targets and a list of widths, the output layer is a list
    of as many pairwise distinct linear heads as there are widths, the
    [i]-th mapping the hidden size to the [i]-th width. *)
Theorem init_builds_one_head_per_width (a : InitArgs) (h : Heap) (sizes : list Z) :
  1 < arg_output_dim a ->
  arg_output_size a = SizeList sizes ->
  exists m h' layers,
    init a h = Ok (m, h') /\
    output_layer m = HeadList layers /\
    length layers = length sizes /\
    NoDup layers /\
    forall i, (i < length sizes)%nat ->
      nth_error h' (nth i layers 0%nat)
      = Some (Linear (arg_hidden_size a) (nth i sizes 0)).
Proof.
  intros Hdim Hsize.
  destruct (init_prefix a h) as (hh & m0 & E & _).
  rewrite E, new_output_layer_cases, Hsize.
  destruct (arg_output_dim a >? 1) eqn:Egt;
    [|rewrite Z.gtb_ltb in Egt; apply Z.ltb_ge in Egt; lia].
  eexists _, _, _. split; [reflexivity|].
  cbn [with_output_layer output_layer]. split; [reflexivity|].
  split; [apply length_seq|]. split; [apply seq_NoDup|].
  intros i Hi. rewrite seq_nth by assumption.
  rewrite nth_error_app2 by lia.
  replace (length hh + i - length hh)%nat with i by lia.
  rewrite nth_error_map.
  rewrite (nth_error_nth' sizes 0 Hi). reflexivity.
Qed.

Lemma init_builds_one_head_per_width_witness :
  exists m h' layers,
    init (example_args_multi (SizeList [7; 3])) [] = Ok (m, h') /\
    output_layer m = HeadList layers /\
    length layers = 2%nat /\
    NoDup layers /\
    forall i, (i < 2)%nat ->
      nth_error h' (nth i layers 0%nat) = Some (Linear 8 (nth i [7; 3] 0)).
Proof.
  apply (init_builds_one_head_per_width (example_args_multi (SizeList [7; 3])) []
           [7; 3]); reflexivity.
Defined.

(** What [__init__] returns when the output width fits: the attributes of
    the prefix with the output layer, on a heap that extends the heap of the
    prefix. *)
Lemma init_with_fit (a : InitArgs) (h : Heap) :
  output_size_fits a ->
  exists hh m0 ol ext,
    init a h = Ok (with_output_layer m0 ol, hh ++ ext) /\
    variables m0 = arg_variables a /\
    n_targets m0 = arg_output_dim a /\
    PyDict.keys (prescalers m0) =
      PyDict.unique (VariableGroups.reals_input (arg_variables a)) /\
    Forall (fun go => nth_error hh (fst go) = Some (snd go)) (fixed_layers a m0) /\
    NoDup (map fst (fixed_layers a m0)) /\
    (arg_share_single_variable_networks a = false ->
     forall n1 n2 g1 g2,
       PyDict.get (vsn_single_variable_grns (encoder_variable_selection m0)) n1
         = Some g1 ->
       PyDict.get (vsn_single_variable_grns (decoder_variable_selection m0)) n2
         = Some g2 ->
       (g1 < g2)%nat) /\
    (arg_output_dim a <= 1 ->
     exists size, arg_output_size a = SizeInt size /\
                  ol = SingleHead (length hh) /\
                  ext = [Linear (arg_hidden_size a) size]).
Proof.
  intros Hfit.
  destruct (init_prefix a h) as (hh & m0 & E & Hv & Hn & Hp & Hl & Hnd & Hu).
  rewrite E, new_output_layer_cases. unfold output_size_fits in Hfit.
  destruct (arg_output_dim a >? 1) eqn:Egt; destruct Hfit as [sz ->].
  - eexists hh, m0, _, _. split; [reflexivity|].
    repeat (split; [assumption|]).
    rewrite Z.gtb_ltb in Egt. apply Z.ltb_lt in Egt. lia.
  - eexists hh, m0, _, _. split; [reflexivity|].
    repeat (split; [assumption|]).
    intros _. now exists sz.
Qed.

(** Every fixed layer of a constructed module is an object of the
    configured kind and sizes - the LSTMs without dropout unless there are
    several layers, the pre-output gate without dropout - and the thirteen
    layers are pairwise distinct objects. *)
Theorem init_fixed_layers_are_as_configured (a : InitArgs) (h : Heap) :
  output_size_fits a ->
  exists m h',
    init a h = Ok (m, h') /\
    Forall (fun go => nth_error h' (fst go) = Some (snd go)) (fixed_layers a m) /\
    NoDup (map fst (fixed_layers a m)).
Proof.
  intros Hfit.
  destruct (init_with_fit a h Hfit)
    as (hh & m0 & ol & ext & E & _ & _ & _ & Hl & Hnd & _).
  eexists _, _. split; [exact E|].
  change (fixed_layers a (with_output_layer m0 ol)) with (fixed_layers a m0).
  split; [|exact Hnd].
  eapply Forall_impl; [|exact Hl]. intros [g o] Hg. cbn [fst snd] in *.
  rewrite nth_error_app1; [exact Hg|].
  apply nth_error_Some. congruence.
Qed.

Lemma init_fixed_layers_are_as_configured_witness :
  exists m h',
    init (example_args true) [] = Ok (m, h') /\
    Forall (fun go => nth_error h' (fst go) = Some (snd go))
           (fixed_layers (example_args true) m) /\
    NoDup (map fst (fixed_layers (example_args true) m)).
Proof.
  apply (init_fixed_layers_are_as_configured (example_args true) []).
  exists 7. reflexivity.
Defined.

(** Without sharing, no sub-network instance serves both the encoder gate
    and the decoder gate, whatever the feature names. *)
Theorem unshared_gates_have_no_common_instance (a : InitArgs) (h : Heap) :
  arg_share_single_variable_networks a = false ->
  output_size_fits a ->
  exists m h',
    init a h = Ok (m, h') /\
    forall n1 n2 g1 g2,
      PyDict.get (vsn_single_variable_grns (encoder_variable_selection m)) n1
        = Some g1 ->
      PyDict.get (vsn_single_variable_grns (decoder_variable_selection m)) n2
        = Some g2 ->
      g1 <> g2.
Proof.
  intros Hs Hfit.
  destruct (init_with_fit a h Hfit)
    as (hh & m0 & ol & ext & E & _ & _ & _ & _ & _ & Hu & _).
  eexists _, _. split; [exact E|].
  cbn [with_output_layer encoder_variable_selection decoder_variable_selection].
  intros n1 n2 g1 g2 H1 H2. specialize (Hu Hs n1 n2 g1 g2 H1 H2). lia.
Qed.

Lemma unshared_gates_have_no_common_instance_witness :
  exists m h',
    init (example_args false) [] = Ok (m, h') /\
    forall n1 n2 g1 g2,
      PyDict.get (vsn_single_variable_grns (encoder_variable_selection m)) n1
        = Some g1 ->
      PyDict.get (vsn_single_variable_grns (decoder_variable_selection m)) n2
        = Some g2 ->
      g1 <> g2.
Proof.
  apply (unshared_gates_have_no_common_instance (example_args false) []).
  - reflexivity.
  - exists 7. reflexivity.
Defined.

End TFTModule.

(** ** Configuration checks ([TFTModel.__init__]) *)

Module TFTModelInit.

Import TFTModule.

(** What [isinstance(loss_fn, QuantileLoss)] can tell about the loss. *)
Inductive LossFn : Type :=
| QuantileLoss
| OtherLoss (name : string)
| NoLoss.

Definition isinstance_QuantileLoss (loss_fn : LossFn) : bool :=
  match loss_fn with QuantileLoss => true | _ => false end.

(** [output_size != k] for [output_size: Union[int, List[int]]]: a list is
    never equal to an integer. *)
Definition size_neq (output_size : OutputSize) (k : Z) : bool :=
  match output_size with
  | SizeInt n => negb (n =? k)
  | SizeList _ => true
  end.

(** Modelled from the spec: [raise_if] is imported from [darts.logging],
    outside the sources.  The specification calls its effect signalling a
    configuration error: when the condition holds the call raises
    [ValueError] with the message, otherwise it returns. *)
Definition raise_if (condition : bool) (message : string) : result unit :=
  if condition then Raise (ValueError message) else Ok tt.

Definition quantile_message : string :=
  "For now when using QuantileLoss, the output_size must be equal to 7 (quantiles)".

(** The attributes [__init__] sets. *)
Record TFTModel : Type := {
  input_chunk_length : Z;
  output_chunk_length : Z;
  output_size : OutputSize;
  hidden_size : Z;
  lstm_layers : Z;
  dropout : Q;
  loss_fn : LossFn;
  attention_head_size : Z;
  max_encoder_length : Z;
  hidden_continuous_size : Z;
  hidden_continuous_sizes : PyDict.dict Z;
  share_single_variable_networks : bool;
  has_likelihood : bool
}.

(** The arguments of [__init__]; [arg_output_size] is [None] when the caller
    passes [output_size=None]. *)
Record Args : Type := {
  arg_input_chunk_length : Z;
  arg_output_chunk_length : Z;
  arg_output_size : option OutputSize;
  arg_hidden_size : Z;
  arg_lstm_layers : Z;
  arg_dropout : Q;
  arg_loss_fn : LossFn;
  arg_attention_head_size : Z;
  arg_max_encoder_length : Z;
  arg_hidden_continuous_size : Z;
  arg_hidden_continuous_sizes : PyDict.dict Z;
  arg_share_single_variable_networks : bool;
  arg_likelihood : bool
}.

Section Init.

(** [QuantileLoss().quantiles], the quantile levels of a default-constructed
    loss ([tft_submodels_darts], outside the sources). *)
Variable quantiles : list Q.

(** The outcome of [super().__init__(likelihood=likelihood, **kwargs)]: the
    exception the base class raises, if any. *)
Variable super_init : Args -> option PyExn.

(** [TFTModel.__init__] *)
Definition init (a : Args) : result TFTModel :=
  let* _ := match super_init a with
            | Some e => Raise e
            | None => Ok tt
            end in
  let is_quantile := isinstance_QuantileLoss (arg_loss_fn a) in
  let* size :=
    match arg_output_size a with
    | Some output_size =>
        let* _ := raise_if
                    (is_quantile && size_neq output_size (Z.of_nat (length quantiles)))
                    quantile_message in
        let* _ := raise_if (negb is_quantile && size_neq output_size 1) "" in
        Ok output_size
    | None =>
        Ok (SizeInt (if is_quantile then Z.of_nat (length quantiles) else 1))
    end in
  Ok {| input_chunk_length := arg_input_chunk_length a;
        output_chunk_length := arg_output_chunk_length a;
        output_size := size;
        hidden_size := arg_hidden_size a;
        lstm_layers := arg_lstm_layers a;
        dropout := arg_dropout a;
        loss_fn := arg_loss_fn a;
        attention_head_size := arg_attention_head_size a;
        max_encoder_length := arg_max_encoder_length a;
        hidden_continuous_size := arg_hidden_continuous_size a;
        hidden_continuous_sizes := arg_hidden_continuous_sizes a;
        share_single_variable_networks := arg_share_single_variable_networks a;
        has_likelihood := arg_likelihood a |}.

(** The loss and the output width disagree. *)
Definition mismatch (loss : LossFn) (output_size : OutputSize) : Prop :=
  (isinstance_QuantileLoss loss = true /\
   size_neq output_size (Z.of_nat (length quantiles)) = true) \/
  (isinstance_QuantileLoss loss = false /\ size_neq output_size 1 = true).

(** A construction that passes both checks returns a model holding the
    width it was given. *)
Lemma init_accepts (a : Args) (output_size0 : OutputSize) :
  super_init a = None ->
  arg_output_size a = Some output_size0 ->
  ~ mismatch (arg_loss_fn a) output_size0 ->
  exists m, init a = Ok m /\ output_size m = output_size0.
Proof.
  intros Hs Ho Hm. unfold init, mismatch in *. rewrite Hs, Ho. cbn [rbind].
  destruct (isinstance_QuantileLoss (arg_loss_fn a)) eqn:Eq;
    destruct (size_neq output_size0 (Z.of_nat (length quantiles))) eqn:E1;
    destruct (size_neq output_size0 1) eqn:E2;
    cbn; try (eexists; split; reflexivity); exfalso; apply Hm; auto.
Qed.

(** C7: constructing with a quantile loss and an output width other than
    the number of quantiles (of [QuantileLoss()]), or with another loss and
    an output width other than 1, raises; no model object is returned, so no
    forward pass can run on it, and when the base-class constructor returned
    the exception is the configuration error [ValueError]. *)
Theorem init_rejects_mismatch (a : Args) (output_size0 : OutputSize) :
  arg_output_size a = Some output_size0 ->
  mismatch (arg_loss_fn a) output_size0 ->
  (exists e, init a = Raise e) /\
  (forall m, init a <> Ok m) /\
  (super_init a = None ->
   init a = Raise (ValueError (if isinstance_QuantileLoss (arg_loss_fn a)
                               then quantile_message else ""))).
Proof.
  intros Ho Hm.
  assert (H : init a = match super_init a with
                       | Some e => Raise e
                       | None => Raise (ValueError
                                          (if isinstance_QuantileLoss (arg_loss_fn a)
                                           then quantile_message else ""))
                       end).
  { unfold init. destruct (super_init a); [reflexivity|]. rewrite Ho. cbn [rbind].
    destruct Hm as [[-> ->]|[-> ->]]; reflexivity. }
  rewrite H. destruct (super_init a) as [e|].
  - split; [now exists e|]. split; [discriminate | discriminate].
  - split; [now eexists|]. split; [discriminate | reflexivity].
Qed.

Lemma init_ok_output_size (a : Args) (m : TFTModel) :
  init a = Ok m ->
  output_size m =
    SizeInt (if isinstance_QuantileLoss (arg_loss_fn a)
             then Z.of_nat (length quantiles) else 1).
Proof.
  unfold init. destruct (super_init a); [discriminate|]. cbn [rbind].
  destruct (arg_output_size a) as [[n|ns]|]; unfold raise_if, size_neq;
    destruct (isinstance_QuantileLoss (arg_loss_fn a)); cbn [andb negb rbind];
    try discriminate.
  - destruct (n =? Z.of_nat (length quantiles)) eqn:E; cbn [negb rbind];
      [|discriminate].
    apply Z.eqb_eq in E. subst n. intros H. now injection H as <-.
  - destruct (n =? 1) eqn:E; cbn [negb rbind]; [|discriminate].
    apply Z.eqb_eq in E. subst n. intros H. now injection H as <-.
  - intros H. now injection H as <-.
  - intros H. now injection H as <-.
Qed.

(** Every model that [__init__] returns holds one integer as output width:
    the number of quantiles under a quantile loss and 1 under any other
    loss, whether the width was given or left to the default.  A list of
    widths never passes the checks. *)
Theorem constructed_model_output_size (a : Args) (m : TFTModel) :
  init a = Ok m ->
  output_size m =
    SizeInt (if isinstance_QuantileLoss (arg_loss_fn a)
             then Z.of_nat (length quantiles) else 1) /\
  loss_fn m = arg_loss_fn a.
Proof.
  unfold init. destruct (super_init a); [discriminate|]. cbn [rbind].
  destruct (arg_output_size a) as [[n|ns]|]; unfold raise_if, size_neq;
    destruct (isinstance_QuantileLoss (arg_loss_fn a)); cbn [andb negb rbind];
    try discriminate.
  - destruct (n =? Z.of_nat (length quantiles)) eqn:E; cbn [negb rbind];
      [|discriminate].
    apply Z.eqb_eq in E. subst n. intros H. injection H as <-. split; reflexivity.
  - destruct (n =? 1) eqn:E; cbn [negb rbind]; [|discriminate].
    apply Z.eqb_eq in E. subst n. intros H. injection H as <-. split; reflexivity.
  - intros H. injection H as <-. split; reflexivity.
  - intros H. injection H as <-. split; reflexivity.
Qed.

End Init.

(** The quantile levels of the default loss in the reference architecture. *)
Definition seven_quantiles : list Q :=
  [(2 # 100); (1 # 10); (1 # 4); (1 # 2); (3 # 4); (9 # 10); (98 # 100)]%Q.

Definition example_args (loss : LossFn) (size : option OutputSize) : Args :=
  {| arg_input_chunk_length := 12;
     arg_output_chunk_length := 1;
     arg_output_size := size;
     arg_hidden_size := 16;
     arg_lstm_layers := 1;
     arg_dropout := (1 # 10)%Q;
     arg_loss_fn := loss;
     arg_attention_head_size := 4;
     arg_max_encoder_length := 10;
     arg_hidden_continuous_size := 8;
     arg_hidden_continuous_sizes := [];
     arg_share_single_variable_networks := false;
     arg_likelihood := false |}.

(** The theorem at a quantile loss with output width 3 against seven
    quantiles. *)
Lemma init_rejects_mismatch_witness :
  init seven_quantiles (fun _ => None)
       (example_args QuantileLoss (Some (SizeInt 3)))
  = Raise (ValueError quantile_message).
Proof.
  apply (init_rejects_mismatch seven_quantiles (fun _ => None)
           (example_args QuantileLoss (Some (SizeInt 3))) (SizeInt 3)).
  - reflexivity.
  - left. split; reflexivity.
  - reflexivity.
Defined.

Example init_mse_width_two_raises :
  init seven_quantiles (fun _ => None)
       (example_args (OtherLoss "MSELoss") (Some (SizeInt 2)))
  = Raise (ValueError "").
Proof. reflexivity. Qed.

Example init_quantile_width_seven_returns :
  is_ok (init seven_quantiles (fun _ => None)
           (example_args QuantileLoss (Some (SizeInt 7)))) = true.
Proof. reflexivity. Qed.

Lemma constructed_model_output_size_witness :
  exists m,
    init seven_quantiles (fun _ => None) (example_args QuantileLoss None) = Ok m /\
    output_size m = SizeInt 7.
Proof.
  eexists. split; [reflexivity|].
  apply (constructed_model_output_size seven_quantiles (fun _ => None)
           (example_args QuantileLoss None)).
  reflexivity.
Defined.

End TFTModelInit.

(** ** Building the network from a training sample ([TFTModel._create_model]) *)

Module CreateModel.

Import VariableGroups.

(** The call [_TFTModule(...)] that ends [_create_model]: the arguments are
    the variable groups of the sample and the attributes of the model. *)
Definition module_args (self : TFTModelInit.TFTModel) (v : Variables)
  : TFTModule.InitArgs :=
  {| TFTModule.arg_variables := model_config v;
     TFTModule.arg_input_dim := Z.of_nat (input_dim v);
     TFTModule.arg_output_dim := Z.of_nat (output_dim v);
     TFTModule.arg_input_chunk_length := TFTModelInit.input_chunk_length self;
     TFTModule.arg_output_chunk_length := TFTModelInit.output_chunk_length self;
     TFTModule.arg_output_size := TFTModelInit.output_size self;
     TFTModule.arg_hidden_size := TFTModelInit.hidden_size self;
     TFTModule.arg_lstm_layers := TFTModelInit.lstm_layers self;
     TFTModule.arg_dropout := TFTModelInit.dropout self;
     TFTModule.arg_attention_head_size := TFTModelInit.attention_head_size self;
     TFTModule.arg_hidden_continuous_size :=
       TFTModelInit.hidden_continuous_size self;
     TFTModule.arg_hidden_continuous_sizes :=
       TFTModelInit.hidden_continuous_sizes self;
     TFTModule.arg_share_single_variable_networks :=
       TFTModelInit.share_single_variable_networks self |}.

(** [_create_model(train_sample)] *)
Definition create_model (self : TFTModelInit.TFTModel) (s : TrainSample)
  : TFTModule.Init TFTModule.TFTModule :=
  fun h =>
    match create_model_variables s with
    | Ok v => TFTModule.init (module_args self v) h
    | Raise e => Raise e
    | OutOfFuel => OutOfFuel
    end.

Section CreateModel.

Variable quantiles : list Q.
Variable super_init : TFTModelInit.Args -> option PyExn.

(** A model that passed the checks of [TFTModel.__init__] cannot be fitted
    to a target with several columns: building the network raises a
    [TypeError], because the output width is one integer and [_TFTModule]
    iterates over it when there are several targets. *)
Theorem create_model_multivariate_target_raises
  (a : TFTModelInit.Args) (self : TFTModelInit.TFTModel) (s : TrainSample)
  (d : nat) (h : TFTModule.Heap) :
  TFTModelInit.init quantiles super_init a = Ok self ->
  future_target s = Some d ->
  (1 < d)%nat ->
  create_model self s h = Raise (TypeError "'int' object is not iterable").
Proof.
  intros Hinit Hft Hd.
  pose proof (TFTModelInit.init_ok_output_size quantiles super_init a self Hinit)
    as Hsize.
  destruct (create_model_variables_returns s d Hft) as (v & Ev & Hout).
  unfold create_model. rewrite Ev.
  destruct (TFTModule.init_prefix (module_args self v) h) as (hh & m0 & E & _).
  rewrite E, TFTModule.new_output_layer_cases.
  cbn [module_args TFTModule.arg_output_dim TFTModule.arg_output_size].
  rewrite Hsize.
  destruct (Z.of_nat (output_dim v) >? 1) eqn:Egt; [reflexivity|].
  rewrite Z.gtb_ltb in Egt. apply Z.ltb_ge in Egt. lia.
Qed.

(** For a target with one column, building the network returns a module
    with a prescaler for every encoder and decoder variable and a single
    output head, a linear layer from the hidden size to the number of
    quantiles under a quantile loss and to 1 under any other loss. *)
Theorem create_model_univariate_target
  (a : TFTModelInit.Args) (self : TFTModelInit.TFTModel) (s : TrainSample)
  (d : nat) (h : TFTModule.Heap) :
  TFTModelInit.init quantiles super_init a = Ok self ->
  future_target s = Some d ->
  (d <= 1)%nat ->
  exists m h' head,
    create_model self s h = Ok (m, h') /\
    TFTModule.n_targets m = Z.of_nat d /\
    (forall name,
       In name (TFTModule.encoder_variables m) \/
       In name (TFTModule.decoder_variables m) ->
       PyDict.mem (TFTModule.prescalers m) name = true) /\
    TFTModule.output_layer m = TFTModule.SingleHead head /\
    nth_error h' head =
      Some (TFTModule.Linear (TFTModelInit.hidden_size self)
              (if TFTModelInit.isinstance_QuantileLoss (TFTModelInit.arg_loss_fn a)
               then Z.of_nat (length quantiles) else 1)).
Proof.
  intros Hinit Hft Hd.
  pose proof (TFTModelInit.init_ok_output_size quantiles super_init a self Hinit)
    as Hsize.
  destruct (create_model_variables_returns s d Hft) as (v & Ev & Hout).
  unfold create_model. rewrite Ev.
  assert (Hle : TFTModule.arg_output_dim (module_args self v) <= 1).
  { cbn [module_args TFTModule.arg_output_dim]. lia. }
  assert (Hfit : TFTModule.output_size_fits (module_args self v)).
  { unfold TFTModule.output_size_fits.
    destruct (TFTModule.arg_output_dim (module_args self v) >? 1) eqn:Egt.
    - rewrite Z.gtb_ltb in Egt. apply Z.ltb_lt in Egt. lia.
    - eexists. cbn [module_args TFTModule.arg_output_size]. exact Hsize. }
  destruct (TFTModule.init_with_fit (module_args self v) h Hfit)
    as (hh & m0 & ol & ext & E & Hvars & Hn & Hpre & _ & _ & _ & Hhead).
  destruct (Hhead Hle) as (size & Hsz & -> & ->).
  cbn [module_args TFTModule.arg_output_size] in Hsz.
  rewrite Hsize in Hsz. injection Hsz as <-.
  eexists _, _, _. split; [exact E|].
  cbn [TFTModule.with_output_layer TFTModule.n_targets TFTModule.prescalers
       TFTModule.output_layer].
  unfold TFTModule.encoder_variables, TFTModule.decoder_variables.
  cbn [TFTModule.with_output_layer TFTModule.variables].
  split; [rewrite Hn; cbn [module_args TFTModule.arg_output_dim]; lia|].
  split; [|split; [reflexivity | apply TFTModule.nth_error_snoc]].
  intros name Hin. apply PyDict.mem_In_keys. rewrite Hpre.
  apply PyDict.unique_In. rewrite Hvars in Hin.
  cbn [module_args TFTModule.arg_variables] in *.
  now apply (groups_in_reals s v name Ev).
Qed.

End CreateModel.

(** A sample with one target column, two past covariates and one future
    covariate, and the same with two target columns. *)
Definition example_sample (targets : nat) : TrainSample :=
  {| past_target := Some targets; past_covariate := Some 2%nat;
     historic_future_covariate := Some 1%nat; future_covariate := Some 1%nat;
     future_target := Some targets |}.

Lemma create_model_multivariate_target_raises_witness :
  exists self,
    TFTModelInit.init TFTModelInit.seven_quantiles (fun _ => None)
      (TFTModelInit.example_args TFTModelInit.QuantileLoss None) = Ok self /\
    create_model self (example_sample 2) [] =
    Raise (TypeError "'int' object is not iterable").
Proof.
  eexists. split; [reflexivity|].
  apply (create_model_multivariate_target_raises TFTModelInit.seven_quantiles
           (fun _ => None)
           (TFTModelInit.example_args TFTModelInit.QuantileLoss None) _
           (example_sample 2) 2 []).
  - reflexivity.
  - reflexivity.
  - lia.
Defined.

Lemma create_model_univariate_target_witness :
  exists self m h' head,
    TFTModelInit.init TFTModelInit.seven_quantiles (fun _ => None)
      (TFTModelInit.example_args TFTModelInit.QuantileLoss None) = Ok self /\
    create_model self (example_sample 1) [] = Ok (m, h') /\
    TFTModule.output_layer m = TFTModule.SingleHead head /\
    nth_error h' head = Some (TFTModule.Linear 16 7).
Proof.
  eexists.
  destruct (create_model_univariate_target TFTModelInit.seven_quantiles
              (fun _ => None)
              (TFTModelInit.example_args TFTModelInit.QuantileLoss None) _
              (example_sample 1) 1 [] eq_refl eq_refl (le_n 1))
    as (m & h' & head & E & _ & _ & Hol & Hhead).
  exists m, h', head. repeat split; assumption.
Defined.

End CreateModel.

(** ** The forward pass ([_TFTModule.forward]) and the module state

    The forward pass runs over the state of the module: its attributes and
    the parameters and buffers of its sub-networks.  The sub-networks are
    defined in [tft_submodels_darts] and in torch, outside the sources; their
    calls are parameters of the model, as are the tensor operations. *)

Module Forward.

Import TFTModule.

(** What [forward] returns: one tensor, or a list for several targets. *)
Inductive Output (T : Type) : Type :=
| OneTensor (t : T)
| TensorList (ts : list T).

Arguments OneTensor {T} t.
Arguments TensorList {T} ts.

Section Forward.

(** Tensors, and the parameters and buffers of the sub-networks. *)
Variables (T P : Type).

(** The state a call can read and write. *)
Record ModuleState : Type := {
  self : TFTModule;
  params : P
}.

(** A computation over the module state. *)
Definition M (A : Type) : Type := StateResult.M ModuleState A.

Definition ret {A : Type} (a : A) : M A := StateResult.ret a.

Definition bind {A B : Type} (c : M A) (k : A -> M B) : M B :=
  StateResult.bind c k.

(** Reads an attribute of [self]. *)
Definition attr {A : Type} (f : TFTModule -> A) : M A :=
  fun s => (Ok (f (self s)), s).

(** A tensor operation: it touches no state. *)
Definition pure {A : Type} (r : result A) : M A := StateResult.pure r.

(** A sub-network call: it runs over the parameters. *)
Definition call {A : Type} (f : P -> result A * P) : M A :=
  fun s => let '(r, p) := f (params s) in
           (r, {| self := self s; params := p |}).

#[local] Notation "x <- c ;; k" := (bind c (fun x => k))
  (at level 61, c at next level, right associativity).

#[local] Notation "' pat <- c ;; k" := (bind c (fun x => match x with pat => k end))
  (at level 61, pat pattern, c at next level, right associativity).

Fixpoint map_m {A B : Type} (f : A -> M B) (xs : list A) : M (list B) :=
  match xs with
  | [] => ret []
  | x :: xs' => y <- f x ;; ys <- map_m f xs' ;; ret (y :: ys)
  end.

(** Tensor operations. *)
Variable cat : list T -> Z -> result T.
Variable shape0 : T -> Z.
Variable last_column : T -> nat -> result T.
Variable zeros : Z -> Z -> T.
Variable expand_time : T -> Z -> T.
Variable expand_layers : T -> Z -> T.
Variable time_before : T -> Z -> T.
Variable time_from : T -> Z -> T.

(** Sub-network calls. *)
Variable grn : handle -> T -> option T -> P -> result T * P.
Variable vsn : VariableSelectionNetwork -> PyDict.dict T -> T -> P -> result (T * T) * P.
Variable lstm : handle -> T -> T * T -> list Z -> P -> result (T * (T * T)) * P.
Variable glu : handle -> T -> P -> result T * P.
Variable add_norm : handle -> T -> T -> P -> result T * P.
Variable mha : handle -> T -> T -> T -> list (list (list bool)) -> P -> result (T * T) * P.
Variable gate_add_norm : handle -> T -> T -> P -> result T * P.
Variable linear : handle -> T -> P -> result T * P.

(** [[t for t in ts if t is not None]] *)
Definition not_none (ts : list (option T)) : list T :=
  flat_map (fun t => match t with Some x => [x] | None => [] end) ts.

(** [t.shape[0]] of a possibly absent tensor. *)
Definition batch_size (t : option T) : result Z :=
  match t with
  | Some x => Ok (shape0 x)
  | None => Raise (AttributeError "'NoneType' object has no attribute 'shape'")
  end.

(** [{name: x[..., idx].unsqueeze(-1) for idx, name in enumerate(names)}] *)
Fixpoint input_vectors (x : T) (names : list string) (idx : nat)
  (d : PyDict.dict T) : result (PyDict.dict T) :=
  match names with
  | [] => Ok d
  | name :: names' =>
      let* col := last_column x idx in
      input_vectors x names' (S idx) (PyDict.set d name col)
  end.

(** [{name: vectors[name] for name in names}] *)
Fixpoint embeddings (vectors : PyDict.dict T) (names : list string)
  (d : PyDict.dict T) : result (PyDict.dict T) :=
  match names with
  | [] => Ok d
  | name :: names' =>
      match PyDict.get vectors name with
      | Some v => embeddings vectors names' (PyDict.set d name v)
      | None => Raise (KeyError name)
      end
  end.

(** [[n] * b] *)
Definition repeat_length (n b : Z) : list Z := repeat n (Z.to_nat b).

(** [expand_static_context(context, timesteps)] *)
Definition expand_static_context (context : T) (timesteps : Z) : T :=
  expand_time context timesteps.

(** The last statements of [forward]: the output heads. *)
Definition apply_output_layer (m : TFTModule) (output : T) : M (Output T) :=
  if n_targets m >? 1
  then match output_layer m with
       | HeadList layers =>
           outs <- map_m (fun l => call (linear l output)) layers ;;
           ret (TensorList outs)
       | SingleHead _ => pure (Raise (TypeError "'Linear' object is not iterable"))
       end
  else match output_layer m with
       | SingleHead l => out <- call (linear l output) ;; ret (OneTensor out)
       | HeadList _ => pure (Raise (TypeError "forward() of ModuleList is not implemented"))
       end.

(** [forward(x)] with
    [x = (past_target, past_covariates, historic_future_covariates,
    future_covariates)]. *)
Definition forward
  (x : option T * option T * option T * option T) : M (Output T) :=
  let '(past_target, past_covariates, historic_future_covariates,
        future_covariates) := x in
  let static_covariates : option T := None in
  x_cont_past <- pure (cat (not_none [past_target; past_covariates;
                                      historic_future_covariates;
                                      static_covariates]) 2) ;;
  x_cont_future <- pure (cat (not_none [future_covariates; static_covariates]) 2) ;;
  icl <- attr input_chunk_length ;;
  ocl <- attr output_chunk_length ;;
  b_past <- pure (batch_size past_target) ;;
  let encoder_lengths := repeat_length icl b_past in
  b_future <- pure (batch_size future_covariates) ;;
  let decoder_lengths := repeat_length ocl b_future in
  let timesteps := icl + ocl in
  let max_encoder_length := icl in
  enc_names <- attr encoder_variables ;;
  input_vectors_past <- pure (input_vectors x_cont_past enc_names 0 []) ;;
  dec_names <- attr decoder_variables ;;
  input_vectors_future <- pure (input_vectors x_cont_future dec_names 0 []) ;;
  hidden <- attr hidden_size ;;
  let static_embedding := zeros b_past hidden in
  let static_variable_selection := zeros b_past 0 in
  scvs <- attr static_context_variable_selection ;;
  context <- call (grn scvs static_embedding None) ;;
  let static_context_variable_selection :=
    expand_static_context context timesteps in
  embeddings_varying_encoder <- pure (embeddings input_vectors_past enc_names []) ;;
  evs <- attr encoder_variable_selection ;;
  '(embeddings_varying_encoder, encoder_sparse_weights) <-
    call (vsn evs embeddings_varying_encoder
            (time_before static_context_variable_selection max_encoder_length)) ;;
  embeddings_varying_decoder <- pure (embeddings input_vectors_future dec_names []) ;;
  dvs <- attr decoder_variable_selection ;;
  '(embeddings_varying_decoder, decoder_sparse_weights) <-
    call (vsn dvs embeddings_varying_decoder
            (time_from static_context_variable_selection max_encoder_length)) ;;
  layers <- attr lstm_layers ;;
  sch <- attr static_context_initial_hidden_lstm ;;
  h0 <- call (grn sch static_embedding None) ;;
  let input_hidden := expand_layers h0 layers in
  scc <- attr static_context_initial_cell_lstm ;;
  c0 <- call (grn scc static_embedding None) ;;
  let input_cell := expand_layers c0 layers in
  le <- attr lstm_encoder ;;
  '(encoder_output, (hidden_state, cell)) <-
    call (lstm le embeddings_varying_encoder (input_hidden, input_cell)
            encoder_lengths) ;;
  ld <- attr lstm_decoder ;;
  '(decoder_output, _) <-
    call (lstm ld embeddings_varying_decoder (hidden_state, cell) decoder_lengths) ;;
  ge <- attr post_lstm_gate_encoder ;;
  lstm_output_encoder <- call (glu ge encoder_output) ;;
  ne <- attr post_lstm_add_norm_encoder ;;
  lstm_output_encoder <-
    call (add_norm ne lstm_output_encoder embeddings_varying_encoder) ;;
  gd <- attr post_lstm_gate_decoder ;;
  lstm_output_decoder <- call (glu gd decoder_output) ;;
  nd <- attr post_lstm_add_norm_decoder ;;
  lstm_output_decoder <-
    call (add_norm nd lstm_output_decoder embeddings_varying_decoder) ;;
  lstm_output <- pure (cat [lstm_output_encoder; lstm_output_decoder] 1) ;;
  sce <- attr static_context_enrichment ;;
  static_context_enrichment <- call (grn sce static_embedding None) ;;
  se <- attr static_enrichment ;;
  attn_input <-
    call (grn se lstm_output
            (Some (expand_static_context static_context_enrichment timesteps))) ;;
  attn <- attr multihead_attn ;;
  mask <- pure (AttentionMask.get_attention_mask encoder_lengths
                  (timesteps - max_encoder_length)) ;;
  '(attn_output, attn_output_weights) <-
    call (mha attn (time_from attn_input max_encoder_length) attn_input attn_input
            mask) ;;
  pagn <- attr post_attn_gate_norm ;;
  attn_output <-
    call (gate_add_norm pagn attn_output (time_from attn_input max_encoder_length)) ;;
  pwf <- attr pos_wise_ff ;;
  output <- call (grn pwf attn_output None) ;;
  pogn <- attr pre_output_gate_norm ;;
  output <-
    call (gate_add_norm pogn output (time_from lstm_output max_encoder_length)) ;;
  m <- attr (fun m => m) ;;
  apply_output_layer m output.

(** *** The footprint of a forward pass *)

(** A computation hands back the state it was started in, whether it
    returns or raises. *)
Definition preserves_state {A : Type} (c : M A) : Prop :=
  forall s, snd (c s) = s.

Lemma preserves_ret {A : Type} (a : A) : preserves_state (ret a).
Proof. intros s. reflexivity. Qed.

Lemma preserves_attr {A : Type} (f : TFTModule -> A) : preserves_state (attr f).
Proof. intros s. reflexivity. Qed.

Lemma preserves_pure {A : Type} (r : result A) : preserves_state (pure r).
Proof. intros s. reflexivity. Qed.

Lemma preserves_call {A : Type} (f : P -> result A * P) :
  (forall p, snd (f p) = p) -> preserves_state (call f).
Proof.
  intros Hf [m p]. unfold call. cbn [params self].
  specialize (Hf p). destruct (f p) as [r p']. cbn in *. now subst.
Qed.

Lemma preserves_bind {A B : Type} (c : M A) (k : A -> M B) :
  preserves_state c -> (forall a, preserves_state (k a)) ->
  preserves_state (bind c k).
Proof.
  intros Hc Hk s. unfold bind, StateResult.bind. specialize (Hc s).
  destruct (c s) as [[a| e |] s']; cbn in Hc; subst s'; [apply Hk | reflexivity ..].
Qed.

Lemma preserves_map_m {A B : Type} (f : A -> M B) (xs : list A) :
  (forall x, preserves_state (f x)) -> preserves_state (map_m f xs).
Proof.
  intros Hf. induction xs as [|x xs IH]; simpl.
  - apply preserves_ret.
  - apply preserves_bind; [apply Hf|]. intros y.
    apply preserves_bind; [exact IH|]. intros ys. apply preserves_ret.
Qed.

(** The sub-networks read their parameters and leave them as they are. *)
Definition sub_networks_read_only : Prop :=
  (forall g x c p, snd (grn g x c p) = p) /\
  (forall v x c p, snd (vsn v x c p) = p) /\
  (forall l x hx lens p, snd (lstm l x hx lens p) = p) /\
  (forall g x p, snd (glu g x p) = p) /\
  (forall n x skip p, snd (add_norm n x skip p) = p) /\
  (forall a q k v mask p, snd (mha a q k v mask p) = p) /\
  (forall g x skip p, snd (gate_add_norm g x skip p) = p) /\
  (forall l x p, snd (linear l x p) = p).

Lemma apply_output_layer_preserves (m : TFTModule) (output : T) :
  sub_networks_read_only -> preserves_state (apply_output_layer m output).
Proof.
  intros (_ & _ & _ & _ & _ & _ & _ & Hlin). unfold apply_output_layer.
  destruct (n_targets m >? 1), (output_layer m).
  - apply preserves_pure.
  - apply preserves_bind; [|intros; apply preserves_ret].
    apply preserves_map_m. intros l. apply preserves_call. apply Hlin.
  - apply preserves_bind; [|intros; apply preserves_ret].
    apply preserves_call. apply Hlin.
  - apply preserves_pure.
Qed.

(** One step of the footprint argument: split a sequence, or close a
    single statement. *)
Ltac footprint_step :=
  first
    [ apply preserves_ret
    | apply preserves_attr
    | apply preserves_pure
    | apply preserves_call; solve [auto]
    | apply preserves_bind; [| intros ? ]
    | match goal with
      | |- preserves_state (match ?x with _ => _ end) => destruct x
      end ].

(** C10: when the sub-networks leave their parameters and buffers as they
    are, a forward pass on any input 4-tuple ends, returning or raising, in
    exactly the module state it started from: same attributes, same
    parameters. *)
Theorem forward_preserves_module_state
  (x : option T * option T * option T * option T) (s : ModuleState) :
  sub_networks_read_only ->
  snd (forward x s) = s.
Proof.
  intros Hsub. revert s. fold (preserves_state (forward x)).
  pose proof (apply_output_layer_preserves) as Hout.
  destruct Hsub as (Hgrn & Hvsn & Hlstm & Hglu & Hadd & Hmha & Hgate & Hlin).
  assert (Hsub : sub_networks_read_only) by (repeat split; assumption).
  destruct x as [[[past_target past_covariates] historic_future_covariates]
                 future_covariates].
  unfold forward.
  repeat footprint_step.
  apply Hout. exact Hsub.
Qed.

(** *** What a forward pass needs and what it returns *)

(** Without a past target or without future covariates the pass raises
    while it is still reading its input: nothing is returned and the module
    state is untouched, whatever the sub-networks would do. *)
Theorem forward_needs_past_target_and_future_covariates
  (past_target past_covariates historic_future_covariates future_covariates
   : option T) (s : ModuleState) :
  past_target = None \/ future_covariates = None ->
  snd (forward (past_target, past_covariates, historic_future_covariates,
                future_covariates) s) = s /\
  forall o, fst (forward (past_target, past_covariates,
                          historic_future_covariates, future_covariates) s)
            <> Ok o.
Proof.
  intros H. unfold forward, bind, StateResult.bind, pure, StateResult.pure, attr.
  destruct (cat (not_none [past_target; past_covariates;
                           historic_future_covariates; None]) 2) as [xp| e |];
    [|split; [reflexivity | discriminate] ..].
  destruct (cat (not_none [future_covariates; None]) 2) as [xf| e |];
    [|split; [reflexivity | discriminate] ..].
  destruct past_target as [pt|]; cbn [batch_size];
    [|split; [reflexivity | discriminate]].
  destruct future_covariates as [fc|]; cbn [batch_size];
    [|split; [reflexivity | discriminate]].
  destruct H; discriminate.
Qed.

(** A computation leaves the attributes of the module as they are. *)
Definition keeps_self {A : Type} (c : M A) : Prop :=
  forall s, self (snd (c s)) = self s.

Lemma keeps_self_pure {A : Type} (r : result A) : keeps_self (pure r).
Proof. intros s. reflexivity. Qed.

Lemma keeps_self_call {A : Type} (f : P -> result A * P) : keeps_self (call f).
Proof. intros s. unfold call. now destruct (f (params s)). Qed.

(** Every value a computation returns from a state with attributes [m]
    satisfies [Q]. *)
Definition ends_in (m : TFTModule) (Q : Output T -> Prop) (c : M (Output T))
  : Prop :=
  forall s o s', self s = m -> c s = (Ok o, s') -> Q o.

Lemma ends_in_bind {A : Type} (c : M A) (k : A -> M (Output T))
  (m : TFTModule) (Q : Output T -> Prop) :
  keeps_self c -> (forall a, ends_in m Q (k a)) -> ends_in m Q (bind c k).
Proof.
  intros Hc Hk s o s' Hs H. unfold bind in H.
  apply StateResult.bind_inv in H. destruct H as (a & s1 & E & H).
  apply (Hk a s1 o s'); [|exact H].
  specialize (Hc s). rewrite E in Hc. cbn [snd] in Hc. congruence.
Qed.

Lemma ends_in_bind_attr {A : Type} (f : TFTModule -> A) (k : A -> M (Output T))
  (m : TFTModule) (Q : Output T -> Prop) :
  ends_in m Q (k (f m)) -> ends_in m Q (bind (attr f) k).
Proof.
  intros Hk s o s' Hs H. unfold bind, attr in H.
  apply StateResult.bind_inv in H. destruct H as (a & s1 & E & H).
  injection E as <- <-. rewrite Hs in H. exact (Hk s o s' Hs H).
Qed.

Lemma map_m_length {A B : Type} (f : A -> M B) (xs : list A) :
  forall s ys s', map_m f xs s = (Ok ys, s') -> length ys = length xs.
Proof.
  induction xs as [|x xs IH]; intros s ys s' H; cbn [map_m] in H.
  - injection H as <- _. reflexivity.
  - unfold bind in H.
    apply StateResult.bind_inv in H. destruct H as (y & s1 & _ & H).
    apply StateResult.bind_inv in H. destruct H as (ys' & s2 & E & H).
    injection H as <- _. cbn [length]. f_equal. exact (IH _ _ _ E).
Qed.

(** The output fits the heads of the module: one tensor for a single head,
    a list with one tensor per head for a list of heads. *)
Definition output_matches_heads (m : TFTModule) (o : Output T) : Prop :=
  match output_layer m with
  | SingleHead _ => n_targets m <= 1 /\ exists t, o = OneTensor t
  | HeadList layers =>
      1 < n_targets m /\
      exists ts, o = TensorList ts /\ length ts = length layers
  end.

Lemma apply_output_layer_matches (m : TFTModule) (output : T) :
  ends_in m (output_matches_heads m) (apply_output_layer m output).
Proof.
  intros s o s' _ H. unfold apply_output_layer in H. unfold output_matches_heads.
  destruct (n_targets m >? 1) eqn:Egt; rewrite Z.gtb_ltb in Egt;
    [apply Z.ltb_lt in Egt | apply Z.ltb_ge in Egt];
    destruct (output_layer m) as [l | layers]; try discriminate.
  - unfold bind in H.
    apply StateResult.bind_inv in H. destruct H as (outs & s1 & E & H).
    injection H as <- _. split; [exact Egt|].
    exists outs. split; [reflexivity|]. exact (map_m_length _ _ _ _ _ E).
  - unfold bind in H.
    apply StateResult.bind_inv in H. destruct H as (out & s1 & _ & H).
    injection H as <- _. split; [exact Egt|]. now exists out.
Qed.

(** Whatever a forward pass returns fits the heads of the module it ran
    on: one tensor when the module has a single head (and at most one
    target), and otherwise a list with exactly one tensor per head. *)
Theorem forward_output_matches_heads
  (x : option T * option T * option T * option T) (s s' : ModuleState)
  (o : Output T) :
  forward x s = (Ok o, s') ->
  output_matches_heads (self s) o.
Proof.
  intros H.
  assert (Hends : ends_in (self s) (output_matches_heads (self s)) (forward x));
    [|exact (Hends s o s' eq_refl H)].
  clear H.
  destruct x as [[[past_target past_covariates] historic_future_covariates]
                 future_covariates].
  unfold forward.
  repeat first
    [ apply ends_in_bind_attr
    | apply ends_in_bind;
        [ first [apply keeps_self_pure | apply keeps_self_call] | intros ? ]
    | match goal with
      | |- ends_in _ _ (match ?x with _ => _ end) => destruct x
      end ].
  apply apply_output_layer_matches.
Qed.


End Forward.

Arguments self {P} m.
Arguments params {P} m.

(** The theorem at the univariate example module, with one-point tensors
    and sub-networks that return without touching their parameters. *)
Example forward_returns_one_tensor :
  match TFTModule.init (TFTModule.example_args true) [] with
  | Ok (m, _) =>
      fst (forward unit nat
             (fun _ _ => Ok tt) (fun _ => 1) (fun _ _ => Ok tt) (fun _ _ => tt)
             (fun _ _ => tt) (fun _ _ => tt) (fun _ _ => tt) (fun _ _ => tt)
             (fun _ _ _ p => (Ok tt, p)) (fun _ _ _ p => (Ok (tt, tt), p))
             (fun _ _ _ _ p => (Ok (tt, (tt, tt)), p)) (fun _ _ p => (Ok tt, p))
             (fun _ _ _ p => (Ok tt, p)) (fun _ _ _ _ _ p => (Ok (tt, tt), p))
             (fun _ _ _ p => (Ok tt, p)) (fun _ _ p => (Ok tt, p))
             (Some tt, Some tt, Some tt, Some tt)
             {| self := m; params := 0%nat |})
      = Ok (OneTensor tt)
  | _ => False
  end.
Proof. vm_compute. reflexivity. Qed.

Lemma forward_preserves_module_state_witness :
  exists m h,
    TFTModule.init (TFTModule.example_args true) [] = Ok (m, h) /\
    snd (forward unit nat
           (fun _ _ => Ok tt) (fun _ => 1) (fun _ _ => Ok tt) (fun _ _ => tt)
           (fun _ _ => tt) (fun _ _ => tt) (fun _ _ => tt) (fun _ _ => tt)
           (fun _ _ _ p => (Ok tt, p)) (fun _ _ _ p => (Ok (tt, tt), p))
           (fun _ _ _ _ p => (Ok (tt, (tt, tt)), p)) (fun _ _ p => (Ok tt, p))
           (fun _ _ _ p => (Ok tt, p)) (fun _ _ _ _ _ p => (Ok (tt, tt), p))
           (fun _ _ _ p => (Ok tt, p)) (fun _ _ p => (Ok tt, p))
           (Some tt, Some tt, Some tt, Some tt)
           {| self := m; params := 0%nat |})
    = {| self := m; params := 0%nat |}.
Proof.
  destruct (TFTModule.init_returns (TFTModule.example_args true) [])
    as (m & h & E & _).
  - exists 7. reflexivity.
  - exists m, h. split; [exact E|].
    apply forward_preserves_module_state.
    repeat split; reflexivity.
Defined.

(** The forward pass over one-point tensors and sub-networks that return
    without touching their parameters. *)
Definition example_forward
  (x : option unit * option unit * option unit * option unit)
  (s : ModuleState nat) : result (Output unit) * ModuleState nat :=
  forward unit nat
    (fun _ _ => Ok tt) (fun _ => 1) (fun _ _ => Ok tt) (fun _ _ => tt)
    (fun _ _ => tt) (fun _ _ => tt) (fun _ _ => tt) (fun _ _ => tt)
    (fun _ _ _ p => (Ok tt, p)) (fun _ _ _ p => (Ok (tt, tt), p))
    (fun _ _ _ _ p => (Ok (tt, (tt, tt)), p)) (fun _ _ p => (Ok tt, p))
    (fun _ _ _ p => (Ok tt, p)) (fun _ _ _ _ _ p => (Ok (tt, tt), p))
    (fun _ _ _ p => (Ok tt, p)) (fun _ _ p => (Ok tt, p))
    x s.

(** The univariate example module on a batch without future covariates. *)
Lemma forward_needs_past_target_and_future_covariates_witness :
  match TFTModule.init (TFTModule.example_args true) [] with
  | Ok (m, _) =>
      snd (example_forward (Some tt, Some tt, Some tt, None)
             {| self := m; params := 0%nat |})
      = {| self := m; params := 0%nat |} /\
      fst (example_forward (Some tt, Some tt, Some tt, None)
             {| self := m; params := 0%nat |})
      <> Ok (OneTensor tt)
  | _ => False
  end.
Proof.
  destruct (TFTModule.init (TFTModule.example_args true) []) as [[m h]| e |] eqn:E;
    try (vm_compute in E; discriminate).
  unfold example_forward.
  match goal with
  | |- snd (forward _ _ ?cat ?shape0 ?lc ?zeros ?et ?el ?tb ?tf ?grn ?vsn ?lstm
              ?glu ?an ?mha ?gan ?lin _ ?s) = _ /\ _ =>
      destruct (forward_needs_past_target_and_future_covariates unit nat
                  cat shape0 lc zeros et el tb tf grn vsn lstm glu an mha gan lin
                  (Some tt) (Some tt) (Some tt) None s (or_intror eq_refl))
        as (Hs & Hr)
  end.
  split; [exact Hs | apply Hr].
Defined.

(** The univariate example module has a single head and returns one
    tensor. *)
Lemma forward_output_matches_heads_witness :
  match TFTModule.init (TFTModule.example_args true) [] with
  | Ok (m, _) => output_matches_heads unit m (OneTensor tt)
  | _ => False
  end.
Proof.
  destruct (TFTModule.init (TFTModule.example_args true) []) as [[m h]| e |] eqn:E;
    try (vm_compute in E; discriminate).
  vm_compute in E. injection E as <- _.
  match goal with
  | |- output_matches_heads _ ?m _ =>
      apply (forward_output_matches_heads unit nat
               (fun _ _ => Ok tt) (fun _ => 1) (fun _ _ => Ok tt) (fun _ _ => tt)
               (fun _ _ => tt) (fun _ _ => tt) (fun _ _ => tt) (fun _ _ => tt)
               (fun _ _ _ p => (Ok tt, p)) (fun _ _ _ p => (Ok (tt, tt), p))
               (fun _ _ _ _ p => (Ok (tt, (tt, tt)), p)) (fun _ _ p => (Ok tt, p))
               (fun _ _ _ p => (Ok tt, p)) (fun _ _ _ _ _ p => (Ok (tt, tt), p))
               (fun _ _ _ p => (Ok tt, p)) (fun _ _ p => (Ok tt, p))
               (Some tt, Some tt, Some tt, Some tt)
               {| self := m; params := 0%nat |}
               {| self := m; params := 0%nat |}
               (OneTensor tt))
  end.
  vm_compute. reflexivity.
Defined.


(** *** The calls a forward pass makes on the post-LSTM skip connection

    The LSTM, gate and add-normalize calls of a forward pass are observed
    by running the same [forward] over sub-networks that also append an
    event to a log kept beside the parameters. *)

Section Trace.

Variables (T P : Type).

Variable cat : list T -> Z -> result T.
Variable shape0 : T -> Z.
Variable last_column : T -> nat -> result T.
Variable zeros : Z -> Z -> T.
Variable expand_time : T -> Z -> T.
Variable expand_layers : T -> Z -> T.
Variable time_before : T -> Z -> T.
Variable time_from : T -> Z -> T.

Variable grn : handle -> T -> option T -> P -> result T * P.
Variable vsn : VariableSelectionNetwork -> PyDict.dict T -> T -> P -> result (T * T) * P.
Variable lstm : handle -> T -> T * T -> list Z -> P -> result (T * (T * T)) * P.
Variable glu : handle -> T -> P -> result T * P.
Variable add_norm : handle -> T -> T -> P -> result T * P.
Variable mha : handle -> T -> T -> T -> list (list (list bool)) -> P -> result (T * T) * P.
Variable gate_add_norm : handle -> T -> T -> P -> result T * P.
Variable linear : handle -> T -> P -> result T * P.

(** A call that returned: the instance, the parameters it ran on, its
    input and its output. *)
Inductive Event : Type :=
| LstmCall (l : handle) (output : T)
| GluCall (g : handle) (p : P) (x y : T)
| AddNormCall (n : handle) (p : P) (x skip y : T).

(** The parameters with the log of the calls made so far. *)
Definition Logged : Type := (P * list Event)%type.

(** A sub-network call that is not observed. *)
Definition silent {A : Type} (f : P -> result A * P) (s : Logged)
  : result A * Logged :=
  let '(r, p') := f (fst s) in (r, (p', snd s)).

(** A sub-network call that is observed when it returns. *)
Definition logging {A : Type} (f : P -> result A * P) (ev : P -> A -> Event)
  (s : Logged) : result A * Logged :=
  let '(r, p') := f (fst s) in
  (r, (p', match r with
           | Ok a => snd s ++ [ev (fst s) a]
           | _ => snd s
           end)).

(** [forward] over the observed sub-networks. *)
Definition traced_forward (x : option T * option T * option T * option T)
  : M Logged (Output T) :=
  forward T Logged cat shape0 last_column zeros expand_time expand_layers
    time_before time_from
    (fun g x c => silent (grn g x c))
    (fun v d c => silent (vsn v d c))
    (fun l x hx lens => logging (lstm l x hx lens) (fun _ r => LstmCall l (fst r)))
    (fun g x => logging (glu g x) (fun p y => GluCall g p x y))
    (fun n x skip =>
       logging (add_norm n x skip) (fun p y => AddNormCall n p x skip y))
    (fun a q k v mask => silent (mha a q k v mask))
    (fun g x skip => silent (gate_add_norm g x skip))
    (fun l x => silent (linear l x))
    x.

(** [forward] over the sub-networks themselves. *)
Definition plain_forward (x : option T * option T * option T * option T)
  : M P (Output T) :=
  forward T P cat shape0 last_column zeros expand_time expand_layers
    time_before time_from grn vsn lstm glu add_norm mha gate_add_norm linear x.

Definition log_of (s : ModuleState Logged) : list Event := snd (params s).

(** **** Observing changes nothing *)

Definition erased (s : ModuleState Logged) : ModuleState P :=
  {| self := self s; params := fst (params s) |}.

(** The observed computation returns what the plain one returns, and
    leaves the same attributes and parameters. *)
Definition erases {A : Type} (c' : M Logged A) (c : M P A) : Prop :=
  forall s, fst (c' s) = fst (c (erased s)) /\
            erased (snd (c' s)) = snd (c (erased s)).

Lemma erases_pure {A : Type} (r : result A) : erases (pure Logged r) (pure P r).
Proof. intros s. split; reflexivity. Qed.

Lemma erases_ret {A : Type} (a : A) : erases (ret Logged a) (ret P a).
Proof. intros s. split; reflexivity. Qed.

Lemma erases_attr {A : Type} (f : TFTModule -> A) :
  erases (attr Logged f) (attr P f).
Proof. intros s. split; reflexivity. Qed.

Lemma erases_call_silent {A : Type} (f : P -> result A * P) :
  erases (call Logged (silent f)) (call P f).
Proof.
  intros s. unfold call, silent, erased. cbn [params self].
  destruct (f (fst (params s))) as [r p']. split; reflexivity.
Qed.

Lemma erases_call_logging {A : Type} (f : P -> result A * P) (ev : P -> A -> Event) :
  erases (call Logged (logging f ev)) (call P f).
Proof.
  intros s. unfold call, logging, erased. cbn [params self].
  destruct (f (fst (params s))) as [r p']. split; reflexivity.
Qed.

Lemma erases_bind {A B : Type} (c' : M Logged A) (c : M P A)
  (k' : A -> M Logged B) (k : A -> M P B) :
  erases c' c -> (forall a, erases (k' a) (k a)) ->
  erases (bind Logged c' k') (bind P c k).
Proof.
  intros Hc Hk s. unfold bind, StateResult.bind.
  destruct (Hc s) as (Hr & Hs).
  destruct (c' s) as [r' s1'], (c (erased s)) as [r s1].
  cbn [fst snd] in Hr, Hs. subst r s1.
  destruct r' as [a| e |]; [apply Hk | split; reflexivity ..].
Qed.

Lemma erases_map_m {A B : Type} (f' : A -> M Logged B) (f : A -> M P B)
  (xs : list A) :
  (forall x, erases (f' x) (f x)) -> erases (map_m Logged f' xs) (map_m P f xs).
Proof.
  intros Hf. induction xs as [|x xs IH]; cbn [map_m].
  - apply erases_ret.
  - apply erases_bind; [apply Hf|]. intros y.
    apply erases_bind; [exact IH|]. intros ys. apply erases_ret.
Qed.

Lemma erases_apply_output_layer (m : TFTModule) (output : T) :
  erases (apply_output_layer T Logged (fun l x => silent (linear l x)) m output)
         (apply_output_layer T P linear m output).
Proof.
  unfold apply_output_layer.
  destruct (n_targets m >? 1), (output_layer m).
  - apply erases_pure.
  - apply erases_bind; [|intros; apply erases_ret].
    apply erases_map_m. intros l. apply erases_call_silent.
  - apply erases_bind; [|intros; apply erases_ret]. apply erases_call_silent.
  - apply erases_pure.
Qed.

Lemma traced_forward_erases (x : option T * option T * option T * option T) :
  erases (traced_forward x) (plain_forward x).
Proof.
  destruct x as [[[past_target past_covariates] historic_future_covariates]
                 future_covariates].
  unfold traced_forward, plain_forward, forward.
  repeat first
    [ apply erases_pure
    | apply erases_attr
    | apply erases_call_silent
    | apply erases_call_logging
    | apply erases_apply_output_layer
    | apply erases_bind; [| intros ? ]
    | match goal with
      | |- erases (match ?x with _ => _ end) _ => destruct x
      end ].
Qed.

(** **** The events of a pass that returns *)

(** A computation that returns has kept the attributes and the log. *)
Definition quiet {A : Type} (c : M Logged A) : Prop :=
  forall s a s', c s = (Ok a, s') -> self s' = self s /\ log_of s' = log_of s.

Lemma quiet_pure {A : Type} (r : result A) : quiet (pure Logged r).
Proof. intros s a s' H. injection H as _ <-. split; reflexivity. Qed.

Lemma quiet_ret {A : Type} (a : A) : quiet (ret Logged a).
Proof. intros s a' s' H. injection H as _ <-. split; reflexivity. Qed.

Lemma quiet_call_silent {A : Type} (f : P -> result A * P) :
  quiet (call Logged (silent f)).
Proof.
  intros s a s'. unfold call, silent.
  destruct (f (fst (params s))) as [r p']. intros H. injection H as _ <-.
  split; reflexivity.
Qed.

Lemma quiet_bind {A B : Type} (c : M Logged A) (k : A -> M Logged B) :
  quiet c -> (forall a, quiet (k a)) -> quiet (bind Logged c k).
Proof.
  intros Hc Hk s b s' H. unfold bind in H.
  apply StateResult.bind_inv in H. destruct H as (a & s1 & E & H).
  destruct (Hc _ _ _ E) as (Hs1 & Hl1). destruct (Hk _ _ _ _ H) as (Hs2 & Hl2).
  split; congruence.
Qed.

Lemma quiet_map_m {A B : Type} (f : A -> M Logged B) (xs : list A) :
  (forall x, quiet (f x)) -> quiet (map_m Logged f xs).
Proof.
  intros Hf. induction xs as [|x xs IH]; cbn [map_m].
  - apply quiet_ret.
  - apply quiet_bind; [apply Hf|]. intros y.
    apply quiet_bind; [exact IH|]. intros ys. apply quiet_ret.
Qed.

Lemma quiet_apply_output_layer (m : TFTModule) (output : T) :
  quiet (apply_output_layer T Logged (fun l x => silent (linear l x)) m output).
Proof.
  unfold apply_output_layer.
  destruct (n_targets m >? 1), (output_layer m).
  - apply quiet_pure.
  - apply quiet_bind; [|intros; apply quiet_ret].
    apply quiet_map_m. intros l. apply quiet_call_silent.
  - apply quiet_bind; [|intros; apply quiet_ret]. apply quiet_call_silent.
  - apply quiet_pure.
Qed.

(** Started on a module with attributes [m], a computation that returns
    [a] has appended events [evs] with [Q a evs]. *)
Definition traces {A : Type} (m : TFTModule) (c : M Logged A)
  (Q : A -> list Event -> Prop) : Prop :=
  forall s a s', self s = m -> c s = (Ok a, s') ->
    exists evs, log_of s' = log_of s ++ evs /\ Q a evs.

Lemma traces_quiet {A : Type} (m : TFTModule) (c : M Logged A)
  (Q : A -> list Event -> Prop) :
  quiet c -> (forall a, Q a []) -> traces m c Q.
Proof.
  intros Hc HQ s a s' _ H. destruct (Hc _ _ _ H) as (_ & ->).
  exists []. split; [now rewrite app_nil_r | apply HQ].
Qed.

Lemma traces_bind_quiet {A B : Type} (m : TFTModule) (c : M Logged A)
  (k : A -> M Logged B) (Q : B -> list Event -> Prop) :
  quiet c -> (forall a, traces m (k a) Q) -> traces m (bind Logged c k) Q.
Proof.
  intros Hc Hk s b s' Hs H. unfold bind in H.
  apply StateResult.bind_inv in H. destruct H as (a & s1 & E & H).
  destruct (Hc _ _ _ E) as (Hs1 & Hl1).
  destruct (Hk a s1 b s') as (evs & Hl & HQ); [congruence | exact H |].
  exists evs. split; [congruence | exact HQ].
Qed.

Lemma traces_bind_attr {A B : Type} (m : TFTModule) (f : TFTModule -> A)
  (k : A -> M Logged B) (Q : B -> list Event -> Prop) :
  traces m (k (f m)) Q -> traces m (bind Logged (attr Logged f) k) Q.
Proof.
  intros Hk s b s' Hs H. unfold bind, attr in H.
  apply StateResult.bind_inv in H. destruct H as (a & s1 & E & H).
  injection E as <- <-. rewrite Hs in H. exact (Hk s b s' Hs H).
Qed.

Lemma traces_bind_logging {A B : Type} (m : TFTModule)
  (f : P -> result A * P) (ev : P -> A -> Event)
  (k : A -> M Logged B) (Q : B -> list Event -> Prop) :
  (forall p a, fst (f p) = Ok a ->
     traces m (k a) (fun b evs => Q b (ev p a :: evs))) ->
  traces m (bind Logged (call Logged (logging f ev)) k) Q.
Proof.
  intros Hk s b s' Hs H. unfold bind in H.
  apply StateResult.bind_inv in H. destruct H as (a & s1 & E & H).
  unfold call, logging in E.
  destruct (f (fst (params s))) as [r p'] eqn:Ef.
  injection E as -> <-.
  assert (Hfa : fst (f (fst (params s))) = Ok a) by now rewrite Ef.
  destruct (Hk (fst (params s)) a Hfa
              {| self := self s;
                 params := (p', snd (params s) ++ [ev (fst (params s)) a]) |}
              b s' Hs H) as (evs & Hl & HQ).
  - exists (ev (fst (params s)) a :: evs). split; [|exact HQ].
    rewrite Hl. unfold log_of. cbn [params snd]. now rewrite <- app_assoc.
Qed.

(** The events of the post-LSTM skip connection, in the order of the
    calls: both LSTMs, then gate and add-normalize on the encoder output,
    then gate and add-normalize on the decoder output. *)
Definition skip_connection_events (m : TFTModule) (evs : list Event) : Prop :=
  exists enc_out dec_out p1 enc_gated p2 enc_skip enc_normed
         p3 dec_gated p4 dec_skip dec_normed,
    evs = [ LstmCall (lstm_encoder m) enc_out;
            LstmCall (lstm_decoder m) dec_out;
            GluCall (post_lstm_gate_encoder m) p1 enc_out enc_gated;
            AddNormCall (post_lstm_add_norm_encoder m) p2 enc_gated enc_skip
              enc_normed;
            GluCall (post_lstm_gate_decoder m) p3 dec_out dec_gated;
            AddNormCall (post_lstm_add_norm_decoder m) p4 dec_gated dec_skip
              dec_normed ] /\
    fst (glu (post_lstm_gate_encoder m) enc_out p1) = Ok enc_gated /\
    fst (add_norm (post_lstm_add_norm_encoder m) enc_gated enc_skip p2)
      = Ok enc_normed /\
    fst (glu (post_lstm_gate_decoder m) dec_out p3) = Ok dec_gated /\
    fst (add_norm (post_lstm_add_norm_decoder m) dec_gated dec_skip p4)
      = Ok dec_normed.

Lemma forward_trace (x : option T * option T * option T * option T)
  (m : TFTModule) :
  traces m (traced_forward x) (fun _ evs => skip_connection_events m evs).
Proof.
  destruct x as [[[past_target past_covariates] historic_future_covariates]
                 future_covariates].
  unfold traced_forward, forward.
  repeat first
    [ apply traces_bind_attr
    | apply traces_bind_quiet;
        [ first [apply quiet_pure | apply quiet_call_silent] | intros ? ]
    | apply traces_bind_logging; intros ? ? ?
    | match goal with
      | |- traces _ (match ?x with _ => _ end) _ => destruct x
      end ].
  apply traces_quiet; [apply quiet_apply_output_layer|].
  intros o. cbv beta. unfold skip_connection_events. cbn [fst].
  do 12 eexists. split; [reflexivity|]. repeat split; eassumption.
Qed.

(** **** The parameters the observed calls ran on *)

(** An event was observed on the parameters [p]. *)
Definition has_param (p : P) (e : Event) : Prop :=
  match e with
  | LstmCall _ _ => True
  | GluCall _ p' _ _ => p' = p
  | AddNormCall _ p' _ _ _ => p' = p
  end.

(** A computation started on the parameters [p] keeps them, and observes
    its calls on them. *)
Definition steady {A : Type} (p : P) (c : M Logged A) : Prop :=
  forall s a s',
    fst (params s) = p -> Forall (has_param p) (log_of s) ->
    c s = (Ok a, s') ->
    fst (params s') = p /\ Forall (has_param p) (log_of s').

Lemma steady_pure {A : Type} (p : P) (r : result A) : steady p (pure Logged r).
Proof. intros s a s' Hp Hl H. injection H as _ <-. auto. Qed.

Lemma steady_ret {A : Type} (p : P) (a : A) : steady p (ret Logged a).
Proof. intros s a' s' Hp Hl H. injection H as _ <-. auto. Qed.

Lemma steady_attr {A : Type} (p : P) (f : TFTModule -> A) :
  steady p (attr Logged f).
Proof. intros s a s' Hp Hl H. injection H as _ <-. auto. Qed.

Lemma steady_call_silent {A : Type} (p : P) (f : P -> result A * P) :
  (forall p0, snd (f p0) = p0) -> steady p (call Logged (silent f)).
Proof.
  intros Hf s a s' Hp Hl. unfold call, silent, Logged in *.
  specialize (Hf (fst (params s))).
  destruct (f (fst (params s))) as [r p']. cbn [snd] in Hf. subst p'.
  intros H. injection H as _ <-. cbn [params fst]. auto.
Qed.

Lemma steady_call_logging {A : Type} (p : P) (f : P -> result A * P)
  (ev : P -> A -> Event) :
  (forall p0, snd (f p0) = p0) -> (forall a, has_param p (ev p a)) ->
  steady p (call Logged (logging f ev)).
Proof.
  intros Hf Hev s a s' Hp Hl. unfold call, logging, Logged in *.
  specialize (Hf (fst (params s))).
  destruct (f (fst (params s))) as [r p']. cbn [snd] in Hf. subst p'.
  intros H. injection H as -> <-. cbn [params fst]. split; [exact Hp|].
  unfold log_of. cbn [params snd]. apply Forall_app. split; [exact Hl|].
  constructor; [|constructor]. rewrite Hp. apply Hev.
Qed.

Lemma steady_bind {A B : Type} (p : P) (c : M Logged A) (k : A -> M Logged B) :
  steady p c -> (forall a, steady p (k a)) -> steady p (bind Logged c k).
Proof.
  intros Hc Hk s b s' Hp Hl H. unfold bind in H.
  apply StateResult.bind_inv in H. destruct H as (a & s1 & E & H).
  destruct (Hc _ _ _ Hp Hl E) as (Hp1 & Hl1). exact (Hk _ _ _ _ Hp1 Hl1 H).
Qed.

Lemma steady_map_m {A B : Type} (p : P) (f : A -> M Logged B) (xs : list A) :
  (forall x, steady p (f x)) -> steady p (map_m Logged f xs).
Proof.
  intros Hf. induction xs as [|x xs IH]; cbn [map_m].
  - apply steady_ret.
  - apply steady_bind; [apply Hf|]. intros y.
    apply steady_bind; [exact IH|]. intros ys. apply steady_ret.
Qed.

Lemma steady_apply_output_layer (p : P) (m : TFTModule) (output : T) :
  (forall l x p0, snd (linear l x p0) = p0) ->
  steady p (apply_output_layer T Logged (fun l x => silent (linear l x)) m output).
Proof.
  intros Hlin. unfold apply_output_layer.
  destruct (n_targets m >? 1), (output_layer m).
  - apply steady_pure.
  - apply steady_bind; [|intros; apply steady_ret].
    apply steady_map_m. intros l. apply steady_call_silent. apply Hlin.
  - apply steady_bind; [|intros; apply steady_ret].
    apply steady_call_silent. apply Hlin.
  - apply steady_pure.
Qed.

Lemma forward_steady (x : option T * option T * option T * option T) (p : P) :
  sub_networks_read_only T P grn vsn lstm glu add_norm mha gate_add_norm linear ->
  steady p (traced_forward x).
Proof.
  intros (Hgrn & Hvsn & Hlstm & Hglu & Hadd & Hmha & Hgate & Hlin).
  destruct x as [[[past_target past_covariates] historic_future_covariates]
                 future_covariates].
  unfold traced_forward, forward.
  repeat first
    [ apply steady_pure
    | apply steady_attr
    | apply steady_call_silent; solve [auto]
    | apply steady_call_logging; [solve [auto] | intros ?; cbn; auto]
    | apply steady_apply_output_layer; exact Hlin
    | apply steady_bind; [| intros ? ]
    | match goal with
      | |- steady _ (match ?x with _ => _ end) => destruct x
      end ].
Qed.

(** C6: in every constructed module the decoder-side gate and
    add-normalize attributes of the post-LSTM skip connection hold the very
    instances of the encoder side (one [GatedLinearUnit] object and one
    [AddNorm] object of the heap, while the two LSTMs are two objects), and
    every forward pass that returns has called that one gate on the encoder
    LSTM output and on the decoder LSTM output, and that one add-normalize on
    each gated output; when the sub-networks leave their parameters as they
    are, all four calls ran on the parameters the pass started with, so the
    decoder side goes through the same functions as the encoder side. *)
Theorem decoder_skip_connection_reuses_encoder_instances
  (a : InitArgs) (h : Heap) :
  output_size_fits a ->
  exists m h' gate norm,
    init a h = Ok (m, h') /\
    post_lstm_gate_encoder m = gate /\ post_lstm_gate_decoder m = gate /\
    post_lstm_add_norm_encoder m = norm /\ post_lstm_add_norm_decoder m = norm /\
    nth_error h' gate
      = Some (GatedLinearUnit (arg_hidden_size a) (Some (arg_dropout a))) /\
    nth_error h' norm = Some (AddNorm (arg_hidden_size a)) /\
    lstm_decoder m <> lstm_encoder m /\
    forall x p o s,
      plain_forward x {| self := m; params := p |} = (Ok o, s) ->
      fst (traced_forward x {| self := m; params := (p, []) |}) = Ok o /\
      exists enc_out dec_out p1 enc_gated p2 enc_skip enc_normed
             p3 dec_gated p4 dec_skip dec_normed,
        log_of (snd (traced_forward x {| self := m; params := (p, []) |})) =
          [ LstmCall (lstm_encoder m) enc_out;
            LstmCall (lstm_decoder m) dec_out;
            GluCall gate p1 enc_out enc_gated;
            AddNormCall norm p2 enc_gated enc_skip enc_normed;
            GluCall gate p3 dec_out dec_gated;
            AddNormCall norm p4 dec_gated dec_skip dec_normed ] /\
        fst (glu gate enc_out p1) = Ok enc_gated /\
        fst (add_norm norm enc_gated enc_skip p2) = Ok enc_normed /\
        fst (glu gate dec_out p3) = Ok dec_gated /\
        fst (add_norm norm dec_gated dec_skip p4) = Ok dec_normed /\
        (sub_networks_read_only T P grn vsn lstm glu add_norm mha
           gate_add_norm linear ->
         p1 = p /\ p2 = p /\ p3 = p /\ p4 = p).
Proof.
  intros Hfit.
  destruct (init_returns a h Hfit) as (m & h' & E & _ & Hg & Hn & Hl & _).
  destruct (init_with_fit a h Hfit)
    as (hh & m0 & ol & ext & E0 & _ & _ & _ & Hfixed & _).
  rewrite E in E0. injection E0 as Em Eh.
  exists m, h', (post_lstm_gate_encoder m), (post_lstm_add_norm_encoder m).
  split; [exact E|]. split; [reflexivity|]. split; [exact Hg|].
  split; [reflexivity|]. split; [exact Hn|].
  rewrite Forall_forall in Hfixed.
  split; [|split; [|split; [exact Hl|]]].
  - rewrite Eh, Em. apply nth_error_app_keep.
    apply (Hfixed (post_lstm_gate_encoder m0, _)).
    unfold fixed_layers. cbn [In]. tauto.
  - rewrite Eh, Em. apply nth_error_app_keep.
    apply (Hfixed (post_lstm_add_norm_encoder m0, _)).
    unfold fixed_layers. cbn [In]. tauto.
  - clear Em Eh Hfixed. intros x p o s H.
    match goal with
    | |- context [traced_forward x ?S] => set (st := S)
    end.
    destruct (traced_forward_erases x st) as (Hr & _).
    assert (Hsame : fst (traced_forward x st) = Ok o).
    { rewrite Hr. unfold erased, st. cbn [self params fst]. now rewrite H. }
    clear Hr. split; [exact Hsame|].
    destruct (traced_forward x st) as [r s'] eqn:Et. cbn [fst snd] in *. subst r.
    destruct (forward_trace x m st o s' eq_refl Et) as (evs & Hlog & Hev).
    change (log_of st) with (@nil Event) in Hlog. cbn [app] in Hlog. subst evs.
    destruct Hev as (eo & dout & p1 & y1 & p2 & ee & z1 & p3 & y2 & p4 & de & z2
                     & Hevs & H1 & H2 & H3 & H4).
    rewrite Hg in Hevs, H3. rewrite Hn in Hevs, H4.
    exists eo, dout, p1, y1, p2, ee, z1, p3, y2, p4, de, z2.
    split; [exact Hevs|]. repeat (split; [assumption|]).
    intros Hro.
    destruct (forward_steady x p Hro st o s' eq_refl (Forall_nil _) Et)
      as (_ & Hall).
    rewrite Hevs in Hall.
    repeat match goal with
           | H : Forall _ (_ :: _) |- _ => inversion H; clear H; subst
           end.
    cbn [has_param] in *. repeat split; congruence.
Qed.

End Trace.

(** Sub-networks over integers that show what went through them: an LSTM
    returns 100 plus its own handle, a gate adds 1000 to its input, an
    add-normalize adds 10000; the others return their input.  None touches
    the parameters. *)
Definition example_traced
  (x : option Z * option Z * option Z * option Z)
  (s : ModuleState (Logged Z nat))
  : result (Output Z) * ModuleState (Logged Z nat) :=
  traced_forward Z nat
    (fun _ _ => Ok 0) (fun _ => 1) (fun _ _ => Ok 0) (fun _ _ => 0)
    (fun t _ => t) (fun t _ => t) (fun t _ => t) (fun t _ => t)
    (fun _ t _ p => (Ok t, p)) (fun _ _ c p => (Ok (c, c), p))
    (fun l _ _ _ p => (Ok (100 + Z.of_nat l, (0, 0)), p))
    (fun _ t p => (Ok (t + 1000), p))
    (fun _ t _ p => (Ok (t + 10000), p))
    (fun _ q _ _ _ p => (Ok (q, q), p))
    (fun _ t _ p => (Ok t, p)) (fun _ t p => (Ok t, p))
    x s.

(** The theorem at the univariate example module: objects 15 and 16 serve
    both sides, and the log of a pass shows gate 15 on the output of the
    encoder LSTM (object 13) and on the output of the decoder LSTM (object
    14). *)
Lemma decoder_skip_connection_reuses_encoder_instances_witness :
  exists m h',
    init (example_args true) [] = Ok (m, h') /\
    post_lstm_gate_decoder m = 15%nat /\ post_lstm_gate_encoder m = 15%nat /\
    post_lstm_add_norm_decoder m = 16%nat /\
    post_lstm_add_norm_encoder m = 16%nat /\
    nth_error h' 15%nat = Some (GatedLinearUnit 8 (Some (1 # 10)%Q)) /\
    nth_error h' 16%nat = Some (AddNorm 8) /\
    exists skip_e skip_d,
      log_of Z nat
        (snd (example_traced (Some 0, Some 0, Some 0, Some 0)
                {| self := m; params := (0%nat, []) |})) =
      [ LstmCall Z nat 13%nat 113; LstmCall Z nat 14%nat 114;
        GluCall Z nat 15%nat 0%nat 113 1113;
        AddNormCall Z nat 16%nat 0%nat 1113 skip_e 11113;
        GluCall Z nat 15%nat 0%nat 114 1114;
        AddNormCall Z nat 16%nat 0%nat 1114 skip_d 11114 ].
Proof.
  destruct (decoder_skip_connection_reuses_encoder_instances Z nat
              (fun _ _ => Ok 0) (fun _ => 1) (fun _ _ => Ok 0) (fun _ _ => 0)
              (fun t _ => t) (fun t _ => t) (fun t _ => t) (fun t _ => t)
              (fun _ t _ p => (Ok t, p)) (fun _ _ c p => (Ok (c, c), p))
              (fun l _ _ _ p => (Ok (100 + Z.of_nat l, (0, 0)), p))
              (fun _ t p => (Ok (t + 1000), p))
              (fun _ t _ p => (Ok (t + 10000), p))
              (fun _ q _ _ _ p => (Ok (q, q), p))
              (fun _ t _ p => (Ok t, p)) (fun _ t p => (Ok t, p))
              (example_args true) [])
    as (m & h' & gate & norm & E & Hge & Hgd & Hne & Hnd & Hog & Hon & _ & Hrun).
  - exists 7. reflexivity.
  - assert (Egate : gate = 15%nat /\ norm = 16%nat).
    { vm_compute in E. injection E as <- <-. cbn in Hge, Hne. now subst. }
    destruct Egate as (-> & ->).
    exists m, h'. split; [exact E|]. split; [exact Hgd|]. split; [exact Hge|].
    split; [exact Hnd|]. split; [exact Hne|]. split; [exact Hog|].
    split; [exact Hon|].
    vm_compute in E. injection E as <- <-.
    match goal with
    | |- context [example_traced ?x {| self := ?m; params := _ |}] =>
        destruct (Hrun x 0%nat (OneTensor 0) {| self := m; params := 0%nat |})
          as (_ & eo & dout & p1 & y1 & p2 & ee & z1 & p3 & y2 & p4 & de & z2
              & Hlog & _)
    end.
    + vm_compute. reflexivity.
    + exists ee, de. unfold example_traced. rewrite Hlog.
      vm_compute in Hlog. injection Hlog; intros; subst. reflexivity.
Defined.


End Forward.

(** ** Three-dimensional tensors (batch, time, component)

    A tensor is its shape and its entries.  The rollout only moves entries
    around (slices, concatenation, roll, assignment to a slice), so the type
    of the entries is left open. *)

Module Tensor.

Section Tensor.

Variable A : Type.

Record tensor : Type := {
  dim0 : nat;
  dim1 : nat;
  dim2 : nat;
  at_ : nat -> nat -> nat -> A
}.

Definition shape (t : tensor) : nat * nat * nat := (dim0 t, dim1 t, dim2 t).

(** A slice bound [i] on an axis of size [d], as Python clamps it: a
    negative bound counts from the end. *)
Definition norm_index (d : nat) (i : Z) : nat :=
  if i <? 0 then Z.to_nat (Z.max 0 (i + Z.of_nat d))
  else Nat.min (Z.to_nat i) d.

(** [start:stop] on an axis of size [d]: the first position and the number
    of positions. *)
Definition slice_range (d : nat) (start stop : option Z) : nat * nat :=
  let a := match start with Some i => norm_index d i | None => 0%nat end in
  let b := match stop with Some i => norm_index d i | None => d end in
  (a, (b - a)%nat).

(** [t[:, start:stop, :]] *)
Definition slice_time (t : tensor) (start stop : option Z) : tensor :=
  let '(a, len) := slice_range (dim1 t) start stop in
  {| dim0 := dim0 t; dim1 := len; dim2 := dim2 t;
     at_ := fun i j k => at_ t i (a + j)%nat k |}.

(** [t[:, :, start:stop]] *)
Definition slice_comp (t : tensor) (start stop : option Z) : tensor :=
  let '(a, len) := slice_range (dim2 t) start stop in
  {| dim0 := dim0 t; dim1 := dim1 t; dim2 := len;
     at_ := fun i j k => at_ t i j (a + k)%nat |}.

(** [t[:, :, idx].unsqueeze(dim=2)] for a non-negative index. *)
Definition select_comp (t : tensor) (idx : nat) : result tensor :=
  if (idx <? dim2 t)%nat
  then Ok {| dim0 := dim0 t; dim1 := dim1 t; dim2 := 1;
             at_ := fun i j _ => at_ t i j idx |}
  else Raise (IndexError "index is out of bounds for dimension 2").

(** [torch.cat((t1, t2), dim)] for [dim] 1 or 2: the other two sizes must
    agree. *)
Definition cat2 (dim : nat) (t1 t2 : tensor) : result tensor :=
  match dim with
  | 1%nat =>
      if ((dim0 t1 =? dim0 t2) && (dim2 t1 =? dim2 t2))%nat
      then Ok {| dim0 := dim0 t1; dim1 := dim1 t1 + dim1 t2; dim2 := dim2 t1;
                 at_ := fun i j k => if (j <? dim1 t1)%nat then at_ t1 i j k
                                     else at_ t2 i (j - dim1 t1)%nat k |}
      else Raise (RuntimeError "Sizes of tensors must match except in dimension 1")
  | 2%nat =>
      if ((dim0 t1 =? dim0 t2) && (dim1 t1 =? dim1 t2))%nat
      then Ok {| dim0 := dim0 t1; dim1 := dim1 t1; dim2 := dim2 t1 + dim2 t2;
                 at_ := fun i j k => if (k <? dim2 t1)%nat then at_ t1 i j k
                                     else at_ t2 i j (k - dim2 t1)%nat |}
      else Raise (RuntimeError "Sizes of tensors must match except in dimension 2")
  | _ => Raise (IndexError "Dimension out of range")
  end.

(** [torch.cat(ts, dim)] of a list, left to right. *)
Fixpoint cat_onto (dim : nat) (acc : tensor) (ts : list tensor) : result tensor :=
  match ts with
  | [] => Ok acc
  | t :: ts' => let* acc' := cat2 dim acc t in cat_onto dim acc' ts'
  end.

Definition cat (ts : list tensor) (dim : nat) : result tensor :=
  match ts with
  | [] => Raise (RuntimeError "torch.cat(): expected a non-empty list of Tensors")
  | t :: ts' => cat_onto dim t ts'
  end.

(** [torch.roll(t, shifts, 1)]: position [j] receives the entry that was
    [shifts] positions before it, around the time axis. *)
Definition roll_time (t : tensor) (shifts : Z) : tensor :=
  {| dim0 := dim0 t; dim1 := dim1 t; dim2 := dim2 t;
     at_ := fun i j k =>
              at_ t i (Z.to_nat ((Z.of_nat j - shifts) mod Z.of_nat (dim1 t))) k |}.

(** A source size can be broadcast to a target size. *)
Definition broadcastable (src tgt : nat) : bool :=
  ((src =? tgt) || (src =? 1))%nat.

(** [t[:, a:b, c:d] = src] on a fresh copy of [t]: the source is broadcast
    to the shape of the slice, or the assignment is refused. *)
Definition assign (t : tensor) (time comp : option Z * option Z) (src : tensor)
  : result tensor :=
  let '(a, len) := slice_range (dim1 t) (fst time) (snd time) in
  let '(c, wid) := slice_range (dim2 t) (fst comp) (snd comp) in
  if (broadcastable (dim0 src) (dim0 t) && broadcastable (dim1 src) len
      && broadcastable (dim2 src) wid)%bool
  then Ok {| dim0 := dim0 t; dim1 := dim1 t; dim2 := dim2 t;
             at_ := fun i j k =>
                      if ((a <=? j) && (j <? a + len)
                          && (c <=? k) && (k <? c + wid))%nat
                      then at_ src (if (dim0 src =? 1)%nat then 0 else i)%nat
                                   (if (dim1 src =? 1)%nat then 0 else j - a)%nat
                                   (if (dim2 src =? 1)%nat then 0 else k - c)%nat
                      else at_ t i j k |}
  else Raise (RuntimeError "The expanded size of the tensor must match the existing size").

(** [torch.clone(t)] *)
Definition clone (t : tensor) : tensor := t.

(** A tensor filled with one value. *)
Definition full (b n w : nat) (a : A) : tensor :=
  {| dim0 := b; dim1 := n; dim2 := w; at_ := fun _ _ _ => a |}.

(** *** Shapes *)

Lemma dims_of_shape (t : tensor) (b n w : nat) :
  shape t = (b, n, w) <-> dim0 t = b /\ dim1 t = n /\ dim2 t = w.
Proof.
  unfold shape. split.
  - intros H. inversion H. auto.
  - intros (-> & -> & ->). reflexivity.
Qed.

Lemma slice_range_prefix (d : nat) (stop : Z) :
  0 <= stop -> slice_range d None (Some stop) = (0%nat, Nat.min (Z.to_nat stop) d).
Proof.
  intros H. unfold slice_range, norm_index.
  destruct (stop <? 0) eqn:E; [lia|]. f_equal. lia.
Qed.

Lemma slice_range_suffix (d : nat) (k : Z) :
  0 < k <= Z.of_nat d ->
  slice_range d (Some (- k)) None = ((d - Z.to_nat k)%nat, Z.to_nat k).
Proof.
  intros H. unfold slice_range, norm_index.
  destruct (- k <? 0) eqn:E; [|lia]. f_equal; lia.
Qed.

Lemma slice_range_window (d : nat) (a b : Z) :
  0 <= a <= b -> b <= Z.of_nat d ->
  slice_range d (Some a) (Some b) = (Z.to_nat a, Z.to_nat (b - a)).
Proof.
  intros H1 H2. unfold slice_range, norm_index.
  destruct (a <? 0) eqn:Ea; [lia|]. destruct (b <? 0) eqn:Eb; [lia|].
  f_equal; lia.
Qed.

Lemma slice_range_all (d : nat) : slice_range d None None = (0%nat, d).
Proof. unfold slice_range. f_equal. lia. Qed.

Lemma slice_range_from (d : nat) (a : Z) :
  0 <= a <= Z.of_nat d ->
  slice_range d (Some a) None = (Z.to_nat a, (d - Z.to_nat a)%nat).
Proof.
  intros H. unfold slice_range, norm_index.
  destruct (a <? 0) eqn:Ea; [lia|]. f_equal; lia.
Qed.

Lemma shape_slice_time (t : tensor) (start stop : option Z) :
  shape (slice_time t start stop) =
  (dim0 t, snd (slice_range (dim1 t) start stop), dim2 t).
Proof.
  unfold slice_time. destruct (slice_range (dim1 t) start stop). reflexivity.
Qed.

Lemma shape_slice_comp (t : tensor) (start stop : option Z) :
  shape (slice_comp t start stop) =
  (dim0 t, dim1 t, snd (slice_range (dim2 t) start stop)).
Proof.
  unfold slice_comp. destruct (slice_range (dim2 t) start stop). reflexivity.
Qed.

Lemma shape_roll_time (t : tensor) (shifts : Z) :
  shape (roll_time t shifts) = shape t.
Proof. reflexivity. Qed.

Lemma assign_ok (t : tensor) (time comp : option Z * option Z) (src : tensor) :
  broadcastable (dim0 src) (dim0 t) = true ->
  broadcastable (dim1 src) (snd (slice_range (dim1 t) (fst time) (snd time))) = true ->
  broadcastable (dim2 src) (snd (slice_range (dim2 t) (fst comp) (snd comp))) = true ->
  exists t', assign t time comp src = Ok t' /\ shape t' = shape t.
Proof.
  intros H0 H1 H2. unfold assign.
  destruct (slice_range (dim1 t) (fst time) (snd time)) as [a len].
  destruct (slice_range (dim2 t) (fst comp) (snd comp)) as [c wid].
  cbn [snd] in *. rewrite H0, H1, H2. cbn [andb].
  eexists. split; reflexivity.
Qed.

Lemma dims_slice_time (t : tensor) (start stop : option Z) :
  dim0 (slice_time t start stop) = dim0 t /\
  dim1 (slice_time t start stop) = snd (slice_range (dim1 t) start stop) /\
  dim2 (slice_time t start stop) = dim2 t.
Proof. apply dims_of_shape, shape_slice_time. Qed.

Lemma dims_slice_comp (t : tensor) (start stop : option Z) :
  dim0 (slice_comp t start stop) = dim0 t /\
  dim1 (slice_comp t start stop) = dim1 t /\
  dim2 (slice_comp t start stop) = snd (slice_range (dim2 t) start stop).
Proof. apply dims_of_shape, shape_slice_comp. Qed.

Lemma broadcastable_refl (n : nat) : broadcastable n n = true.
Proof. unfold broadcastable. now rewrite Nat.eqb_refl. Qed.

(** An assignment whose source has the batch size and the number of time
    steps of the slice, and a width that can be broadcast to it. *)
Lemma assign_fits (t : tensor) (time comp : option Z * option Z) (src : tensor)
  (a len c wid : nat) :
  slice_range (dim1 t) (fst time) (snd time) = (a, len) ->
  slice_range (dim2 t) (fst comp) (snd comp) = (c, wid) ->
  dim0 src = dim0 t -> dim1 src = len -> broadcastable (dim2 src) wid = true ->
  exists t', assign t time comp src = Ok t' /\
             dim0 t' = dim0 t /\ dim1 t' = dim1 t /\ dim2 t' = dim2 t.
Proof.
  intros Ht Hc H0 H1 H2.
  destruct (assign_ok t time comp src) as (t' & E & Hs).
  - rewrite H0. apply broadcastable_refl.
  - rewrite Ht, H1. apply broadcastable_refl.
  - now rewrite Hc.
  - exists t'. split; [exact E|]. now apply dims_of_shape.
Qed.

Lemma cat2_time_ok (t1 t2 : tensor) :
  dim0 t1 = dim0 t2 -> dim2 t1 = dim2 t2 ->
  exists t, cat2 1 t1 t2 = Ok t /\
            shape t = (dim0 t1, (dim1 t1 + dim1 t2)%nat, dim2 t1).
Proof.
  intros H0 H2. unfold cat2. rewrite H0, H2, !Nat.eqb_refl. cbn [andb].
  eexists. split; reflexivity.
Qed.

Lemma cat2_comp_ok (t1 t2 : tensor) :
  dim0 t1 = dim0 t2 -> dim1 t1 = dim1 t2 ->
  exists t, cat2 2 t1 t2 = Ok t /\
            shape t = (dim0 t1, dim1 t1, (dim2 t1 + dim2 t2)%nat).
Proof.
  intros H0 H1. unfold cat2. rewrite H0, H1, !Nat.eqb_refl. cbn [andb].
  eexists. split; reflexivity.
Qed.

End Tensor.

Arguments dim0 {A} t.
Arguments dim1 {A} t.
Arguments dim2 {A} t.
Arguments at_ {A} t i j k.
Arguments shape {A} t.
Arguments slice_time {A} t start stop.
Arguments slice_comp {A} t start stop.
Arguments select_comp {A} t idx.
Arguments cat2 {A} dim t1 t2.
Arguments cat_onto {A} dim acc ts.
Arguments cat {A} ts dim.
Arguments roll_time {A} t shifts.
Arguments assign {A} t time comp src.
Arguments clone {A} t.
Arguments full {A} b n w a.

End Tensor.

(** ** The rollout ([TFTModel._produce_predict_output],
       [TFTModel._get_batch_prediction]) *)

Module Rollout.

Import Tensor.
Import TFTModelInit.

Section Rollout.

(** The numbers the tensors hold. *)
Variable A : Type.

#[local] Abbreviation tensor := (Tensor.tensor A).
#[local] Abbreviation Output := (Forward.Output tensor).

(** The model object: the attributes set by [TFTModel.__init__]. *)
Variable self : TFTModel.

(** [self.first_prediction_index], a property of the base class. *)
Variable first_prediction_index : Z.

(** [QuantileLoss().quantiles] *)
Variable quantiles : list Q.

(** The generator kept on the model object by the decorator
    [random_method] ([darts.utils.torch], outside the sources): every
    decorated call draws a seed from it and runs under that seed. *)
Variables (Gen Seed : Type).
Variable next_seed : Gen -> Seed * Gen.

(** [self.model(x)] under a seed, on
    [x = (past_target, past_covariates, historic_future_covariates,
    future_covariates)]. *)
Variable model :
  Seed -> tensor * option tensor * option tensor * option tensor -> result Output.

(** [self.likelihood.sample(output)] under a seed. *)
Variable sample : Seed -> Output -> result Output.

(** A call over the generator of the model object. *)
Definition R (X : Type) : Type := StateResult.M Gen X.

Notation "x <- c ;; k" := (StateResult.bind c (fun x => k))
  (at level 61, c at next level, right associativity).

Notation "' pat <- c ;; k" :=
  (StateResult.bind c (fun x => match x with pat => k end))
  (at level 61, pat pattern, c at next level, right associativity).

(** [l.index(x)] *)
Fixpoint index_of (x : Q) (l : list Q) : option nat :=
  match l with
  | [] => None
  | y :: l' => if Qeq_bool y x then Some 0%nat else option_map S (index_of x l')
  end.

(** [_produce_predict_output(x)] *)
Definition produce_predict_output
  (x : tensor * option tensor * option tensor * option tensor) : R Output :=
  fun g =>
    let '(seed, g') := next_seed g in
    (let* output :=
       if isinstance_QuantileLoss (loss_fn self)
       then
         let* p50_index :=
           match index_of (1 # 2)%Q quantiles with
           | Some i => Ok i
           | None => Raise (ValueError "0.5 is not in list")
           end in
         let* o := model seed x in
         match o with
         | Forward.OneTensor t =>
             let* median := select_comp t p50_index in
             Ok (Forward.OneTensor median)
         | Forward.TensorList _ =>
             Raise (TypeError "list indices must be integers or slices, not tuple")
         end
       else model seed x in
     if has_likelihood self then sample seed output else Ok output,
     g').

(** [output[:, start:, :]] *)
Definition output_from (o : Output) (start : Z) : result tensor :=
  match o with
  | Forward.OneTensor t => Ok (slice_time t (Some start) None)
  | Forward.TensorList _ =>
      Raise (TypeError "list indices must be integers or slices, not tuple")
  end.

(** [t[:, a:b, :]] of a possibly absent tensor. *)
Definition subscript_time (t : option tensor) (a b : option Z) : result tensor :=
  match t with
  | Some x => Ok (slice_time x a b)
  | None => Raise (TypeError "'NoneType' object is not subscriptable")
  end.

(** [l[-1] = f(l[-1])] *)
Fixpoint map_last (f : tensor -> tensor) (l : list tensor) : list tensor :=
  match l with
  | [] => []
  | [t] => [f t]
  | t :: l' => t :: map_last f l'
  end.

Definition set_last (f : tensor -> tensor) (l : list tensor) : result (list tensor) :=
  match l with
  | [] => Raise (IndexError "list index out of range")
  | _ => Ok (map_last f l)
  end.

(** The variables the [while] loop updates. *)
Record LoopState : Type := {
  roll_size : Z;
  prediction_length : Z;
  batch_prediction : list tensor;
  input_past : tensor;
  out : tensor
}.

(** The quantities fixed before the loop. *)
Record Frame : Type := {
  n_targets : nat;
  n_past_covs : nat;
  n_future_covs : nat;
  future_covariates : option tensor;
  future_past_covariates : option tensor
}.

(** The block under the comment "we want the last prediction to end exactly
    at n": the new [roll_size], [prediction_length] and
    [batch_prediction]. *)
Definition step_back (n : Z) (st : LoopState)
  : result (Z * Z * list tensor) :=
  let ocl := output_chunk_length self in
  if prediction_length st + ocl >? n
  then
    let spillover_prediction_length := prediction_length st + ocl - n in
    let roll := roll_size st - spillover_prediction_length in
    let pl := prediction_length st - spillover_prediction_length in
    let* bp := set_last (fun t => slice_time t None (Some roll))
                        (batch_prediction st) in
    Ok (roll, pl, bp)
  else Ok (roll_size st, prediction_length st, batch_prediction st).

(** The block "PAST INPUT": the rolled and overwritten past window, and
    [right_past]. *)
Definition update_past (f : Frame) (input_past0 out0 : tensor) (roll pl : Z)
  : result (tensor * Z) :=
  let icl := input_chunk_length self in
  let nt := Z.of_nat (n_targets f) in
  let npc := Z.of_nat (n_past_covs f) in
  let input_past := roll_time input_past0 (- roll) in
  let* input_past :=
    if icl >=? roll
    then assign input_past (Some (- roll), None) (None, Some nt)
                (slice_time out0 None (Some roll))
    else assign input_past (None, None) (None, Some nt)
                (slice_time out0 (Some (- icl)) None) in
  let '(left_past, right_past) :=
    if icl >=? roll then (pl - roll, pl) else (pl - icl, pl) in
  let* input_past :=
    if (negb (n_past_covs f =? 0)%nat && (icl >=? roll))%bool
    then
      let* src := subscript_time (future_past_covariates f)
                                 (Some left_past) (Some right_past) in
      assign input_past (Some (- roll), None) (Some nt, Some (nt + npc)) src
    else if negb (n_past_covs f =? 0)%nat
    then
      let* src := subscript_time (future_past_covariates f)
                                 (Some left_past) (Some right_past) in
      assign input_past (None, None) (Some nt, Some (nt + npc)) src
    else Ok input_past in
  let* input_past :=
    if (negb (n_future_covs f =? 0)%nat && (icl >=? roll))%bool
    then
      let* src := subscript_time (future_covariates f)
                                 (Some left_past) (Some right_past) in
      assign input_past (Some (- roll), None) (Some (nt + npc), None) src
    else if negb (n_future_covs f =? 0)%nat
    then
      let* src := subscript_time (future_covariates f)
                                 (Some left_past) (Some right_past) in
      assign input_past (None, None) (Some (nt + npc), None) src
    else Ok input_past in
  Ok (input_past, right_past).

(** The block "convert back into separate datasets": the 4-tuple handed to
    the model. *)
Definition split_input (f : Frame) (input_past input_future : tensor)
  : tensor * option tensor * option tensor * option tensor :=
  let nt := Z.of_nat (n_targets f) in
  let npc := Z.of_nat (n_past_covs f) in
  let input_past_target := slice_comp input_past None (Some nt) in
  let input_past_covs :=
    if (n_past_covs f =? 0)%nat then None
    else Some (slice_comp input_past (Some nt) (Some (nt + npc))) in
  let input_historic_future_covs :=
    if (n_future_covs f =? 0)%nat then None
    else Some (slice_comp input_past (Some (nt + npc)) None) in
  let input_future_covs :=
    if (n_future_covs f =? 0)%nat then None else Some input_future in
  (input_past_target, input_past_covs, input_historic_future_covs,
   input_future_covs).

(** One turn of the [while] loop. *)
Definition loop_body (n : Z) (f : Frame) (st : LoopState) : R LoopState :=
  let ocl := output_chunk_length self in
  '(roll, pl, bp) <- StateResult.pure (step_back n st) ;;
  '(input_past, right_past) <-
    StateResult.pure (update_past f (input_past st) (out st) roll pl) ;;
  let left_future := right_past in
  let right_future := right_past + ocl in
  input_future <-
    StateResult.pure (subscript_time (future_covariates f)
                                     (Some left_future) (Some right_future)) ;;
  o <- produce_predict_output (split_input f input_past input_future) ;;
  out' <- StateResult.pure (output_from o first_prediction_index) ;;
  StateResult.ret
    {| roll_size := roll;
       prediction_length := pl + ocl;
       batch_prediction := bp ++ [out'];
       input_past := input_past;
       out := out' |}.

(** [while prediction_length < n: ...], with a bound on the number of
    turns. *)
Fixpoint while_loop (fuel : nat) (n : Z) (f : Frame) (st : LoopState)
  : R LoopState :=
  if prediction_length st <? n
  then match fuel with
       | O => fun g => (OutOfFuel, g)
       | S fuel' => st' <- loop_body n f st ;; while_loop fuel' n f st'
       end
  else StateResult.ret st.

(** [t.shape[2] if not t is None else 0] *)
Definition components (t : option tensor) : nat :=
  match t with Some x => dim2 x | None => 0%nat end.

Definition not_none (ts : list (option tensor)) : list tensor :=
  flat_map (fun t => match t with Some x => [x] | None => [] end) ts.

(** [_get_batch_prediction(n, input_batch, roll_size)] with
    [input_batch = (past_target, past_covariates,
    historic_future_covariates, future_covariates,
    future_past_covariates)]. *)
Definition get_batch_prediction (fuel : nat) (n : Z)
  (input_batch : tensor * option tensor * option tensor * option tensor
                 * option tensor)
  (roll_size0 : Z) : R tensor :=
  let '(past_target, past_covariates, historic_future_covariates,
        future_covariates0, future_past_covariates0) := input_batch in
  let f := {| n_targets := dim2 past_target;
              n_past_covs := components past_covariates;
              n_future_covs := components future_covariates0;
              future_covariates := future_covariates0;
              future_past_covariates := future_past_covariates0 |} in
  input_past0 <-
    StateResult.pure
      (cat (not_none [Some past_target; past_covariates;
                      historic_future_covariates]) 2) ;;
  let input_future :=
    match future_covariates0 with
    | Some fc => Some (clone (slice_time fc None (Some roll_size0)))
    | None => None
    end in
  o <- produce_predict_output
         (past_target, past_covariates, historic_future_covariates, input_future) ;;
  out0 <- StateResult.pure (output_from o first_prediction_index) ;;
  let st0 := {| roll_size := roll_size0;
                prediction_length := roll_size0;
                batch_prediction := [slice_time out0 None (Some roll_size0)];
                input_past := input_past0;
                out := out0 |} in
  st <- while_loop fuel n f st0 ;;
  prediction <- StateResult.pure (cat (batch_prediction st) 1) ;;
  StateResult.ret (slice_time prediction None (Some n)).

(** *** Shapes along the rollout *)

(** The total number of time steps held by a list of chunks. *)
Definition total_steps (chunks : list tensor) : nat :=
  fold_right (fun t acc => (dim1 t + acc)%nat) 0%nat chunks.

(** Every chunk has [b] samples and [w] components. *)
Definition chunks_of (b w : nat) (chunks : list tensor) : Prop :=
  Forall (fun t => dim0 t = b /\ dim2 t = w) chunks.

Lemma total_steps_app (l1 l2 : list tensor) :
  total_steps (l1 ++ l2) = (total_steps l1 + total_steps l2)%nat.
Proof.
  induction l1 as [|t l1 IH]; simpl; [reflexivity|]. rewrite IH. lia.
Qed.

Lemma cat_onto_time_ok (b w : nat) (chunks : list tensor) :
  forall acc,
    dim0 acc = b -> dim2 acc = w -> chunks_of b w chunks ->
    exists t, cat_onto 1 acc chunks = Ok t /\
              shape t = (b, (dim1 acc + total_steps chunks)%nat, w).
Proof.
  induction chunks as [|c chunks IH]; intros acc H0 H2 Hc;
    cbn [cat_onto total_steps fold_right].
  - eexists. split; [reflexivity|]. unfold shape. rewrite H0, H2. f_equal. f_equal. lia.
  - inversion Hc as [|? ? [Hc0 Hc2] Hc']; subst.
    destruct (cat2_time_ok A acc c) as (t & E & Ht); [congruence | congruence|].
    rewrite E. cbn [rbind]. unfold shape in Ht. injection Ht as Ht0 Ht1 Ht2.
    destruct (IH t) as (t' & E' & Ht'); [congruence | congruence | assumption|].
    exists t'. split; [exact E'|]. rewrite Ht', Ht1. f_equal. f_equal.
    unfold total_steps. lia.
Qed.

Lemma cat_time_ok (b w : nat) (chunks : list tensor) :
  chunks <> [] -> chunks_of b w chunks ->
  exists t, cat chunks 1 = Ok t /\ shape t = (b, total_steps chunks, w).
Proof.
  intros Hne Hc. destruct chunks as [|c chunks]; [congruence|].
  inversion Hc as [|? ? [Hc0 Hc2] Hc']; subst. cbn [cat total_steps fold_right].
  now apply cat_onto_time_ok.
Qed.

Lemma map_last_cons (f : tensor -> tensor) (c : tensor) (l : list tensor) :
  l <> [] -> map_last f (c :: l) = c :: map_last f l.
Proof. destruct l; [congruence | reflexivity]. Qed.

Lemma set_last_nonempty (f : tensor -> tensor) (init : list tensor) (last : tensor) :
  set_last f (init ++ [last]) = Ok (map_last f (init ++ [last])).
Proof. destruct init; reflexivity. Qed.

(** Cutting the last chunk, of [len] steps, down to its first [keep]. *)
Lemma map_last_truncate (b w len keep : nat) (chunks : list tensor) :
  forall last,
    chunks_of b w (chunks ++ [last]) ->
    dim1 last = len -> (keep <= len)%nat ->
    let chunks' := map_last (fun t => slice_time t None (Some (Z.of_nat keep)))
                            (chunks ++ [last]) in
    chunks_of b w chunks' /\
    (total_steps chunks' + (len - keep) = total_steps (chunks ++ [last]))%nat /\
    chunks' <> [].
Proof.
  induction chunks as [|c chunks IH]; intros last Hc Hlen Hkeep chunks';
    subst chunks'.
  - cbn [app map_last] in *.
    inversion Hc as [|? ? [H0 H2] _]; subst.
    pose proof (shape_slice_time A last None (Some (Z.of_nat keep))) as Hs.
    rewrite slice_range_prefix in Hs by lia. cbn [snd] in Hs.
    apply dims_of_shape in Hs. destruct Hs as (Hs0 & Hs1 & Hs2).
    split; [|split; [|discriminate]].
    + constructor; [|constructor]. split; assumption.
    + cbn [total_steps fold_right]. rewrite Hs1. lia.
  - rewrite <- app_comm_cons in *.
    inversion Hc as [|? ? Hc0 Hc']; subst.
    destruct (IH last Hc' eq_refl Hkeep) as (IH1 & IH2 & IH3).
    rewrite map_last_cons by (destruct chunks; discriminate).
    split; [|split; [|discriminate]].
    + constructor; assumption.
    + cbn [total_steps fold_right] in *. fold (total_steps (chunks ++ [last])).
      fold (total_steps
              (map_last (fun t => slice_time t None (Some (Z.of_nat keep)))
                        (chunks ++ [last]))).
      lia.
Qed.

(** Overwriting a slice with a window [lft:rgt] of a covariate tensor. *)
Lemma assign_window_fits (t cov : tensor) (time comp : option Z * option Z)
  (a len c wid : nat) (lft rgt : Z) :
  slice_range (dim1 t) (fst time) (snd time) = (a, len) ->
  slice_range (dim2 t) (fst comp) (snd comp) = (c, wid) ->
  dim0 cov = dim0 t -> dim2 cov = wid ->
  0 <= lft -> rgt - lft = Z.of_nat len -> rgt <= Z.of_nat (dim1 cov) ->
  exists t', assign t time comp (slice_time cov (Some lft) (Some rgt)) = Ok t' /\
             dim0 t' = dim0 t /\ dim1 t' = dim1 t /\ dim2 t' = dim2 t.
Proof.
  intros Ht Hc H0 H2 Hl Hlen Hr.
  destruct (dims_slice_time A cov (Some lft) (Some rgt)) as (D0 & D1 & D2).
  rewrite slice_range_window in D1 by lia. cbn [snd] in D1.
  apply (assign_fits A t time comp _ a len c wid Ht Hc).
  - congruence.
  - rewrite D1. lia.
  - rewrite D2, H2. apply broadcastable_refl.
Qed.

Section Shapes.

(** Batch size, chunk lengths, numbers of target, past-covariate and
    future-covariate components, width of the model output, horizon. *)
Variables (B icl ocl nt npc nfc W : nat) (n : Z).

Hypothesis Hicl : input_chunk_length self = Z.of_nat icl.
Hypothesis Hocl : output_chunk_length self = Z.of_nat ocl.
Hypothesis Hicl_pos : (1 <= icl)%nat.
Hypothesis Hocl_pos : (1 <= ocl)%nat.
Hypothesis Hnfc_pos : (1 <= nfc)%nat.

(** The quantities fixed before the loop fit the shapes. *)
Definition frame_ok (f : Frame) : Prop :=
  n_targets f = nt /\ n_past_covs f = npc /\ n_future_covs f = nfc /\
  (exists fc, future_covariates f = Some fc /\ dim0 fc = B /\ dim2 fc = nfc /\
              n <= Z.of_nat (dim1 fc)) /\
  (npc <> 0%nat ->
   exists fpc, future_past_covariates f = Some fpc /\ dim0 fpc = B /\
               dim2 fpc = npc /\ n - Z.of_nat ocl <= Z.of_nat (dim1 fpc)).

(** A tensor has the shape of the past window. *)
Definition past_window (t : tensor) : Prop :=
  dim0 t = B /\ dim1 t = icl /\ dim2 t = (nt + npc + nfc)%nat.

Lemma update_past_ok (f : Frame) (ip out0 : tensor) (wout : nat) (roll pl : Z) :
  frame_ok f -> past_window ip ->
  dim0 out0 = B -> dim1 out0 = ocl -> dim2 out0 = wout ->
  broadcastable wout nt = true ->
  1 <= roll <= Z.of_nat ocl -> roll <= pl -> pl <= n - Z.of_nat ocl ->
  exists ip', update_past f ip out0 roll pl = Ok (ip', pl) /\ past_window ip'.
Proof.
  intros (Hnt & Hnpc & Hnfcf & (fc & Efc & Hfc0 & Hfc2 & Hfc1) & Hfpc)
         (Hi0 & Hi1 & Hi2) Ho0 Ho1 Ho2 Hw Hroll Hpl Hpln.
  unfold update_past. rewrite Hicl, Hnt, Hnpc, Hnfcf, Efc.
  assert (Enfc : (nfc =? 0)%nat = false) by (apply Nat.eqb_neq; lia).
  rewrite Enfc. cbn [negb andb subscript_time].
  destruct (Z.of_nat icl >=? roll) eqn:Ege.
  - (* the past window holds at least [roll] steps *)
    assert (Hle : roll <= Z.of_nat icl) by (apply Z.geb_le; exact Ege).
    rewrite Bool.andb_true_r.
    assert (Htime : forall t : tensor, dim1 t = icl ->
              slice_range (dim1 t) (Some (- roll)) None
              = ((icl - Z.to_nat roll)%nat, Z.to_nat roll)).
    { intros t ->. apply slice_range_suffix. lia. }
    destruct (assign_fits A (roll_time ip (- roll)) (Some (- roll), None)
                (None, Some (Z.of_nat nt)) (slice_time out0 None (Some roll))
                (icl - Z.to_nat roll) (Z.to_nat roll) 0 nt)
      as (ip1 & E1 & D10 & D11 & D12).
    + apply Htime. exact Hi1.
    + cbn [fst snd roll_time dim2]. rewrite Hi2, slice_range_prefix by lia.
      f_equal. lia.
    + destruct (dims_slice_time A out0 None (Some roll)) as (-> & _ & _).
      cbn [roll_time dim0]. congruence.
    + destruct (dims_slice_time A out0 None (Some roll)) as (_ & -> & _).
      rewrite Ho1, slice_range_prefix by lia. cbn [snd]. lia.
    + destruct (dims_slice_time A out0 None (Some roll)) as (_ & _ & ->).
      rewrite Ho2. exact Hw.
    + rewrite E1. cbn [rbind]. simpl in D10, D11, D12.
      assert (Hpast : exists ip2,
                (if negb (npc =? 0)%nat
                 then let* src := subscript_time (future_past_covariates f)
                                    (Some (pl - roll)) (Some pl) in
                      assign ip1 (Some (- roll), None)
                        (Some (Z.of_nat nt), Some (Z.of_nat nt + Z.of_nat npc)) src
                 else if negb (npc =? 0)%nat
                 then let* src := subscript_time (future_past_covariates f)
                                    (Some (pl - roll)) (Some pl) in
                      assign ip1 (None, None)
                        (Some (Z.of_nat nt), Some (Z.of_nat nt + Z.of_nat npc)) src
                 else Ok ip1) = Ok ip2 /\ past_window ip2).
      { destruct (npc =? 0)%nat eqn:Enpc; cbn [negb].
        - exists ip1. split; [reflexivity|]. repeat split; congruence.
        - apply Nat.eqb_neq in Enpc.
          destruct (Hfpc Enpc) as (fpc & Efpc & Hp0 & Hp2 & Hp1).
          rewrite Efpc. cbn [subscript_time rbind].
          destruct (assign_window_fits ip1 fpc (Some (- roll), None)
                      (Some (Z.of_nat nt), Some (Z.of_nat nt + Z.of_nat npc))
                      (icl - Z.to_nat roll) (Z.to_nat roll) nt npc (pl - roll) pl)
            as (ip2 & E2 & D20 & D21 & D22);
            [ apply Htime; congruence
            | cbn [fst snd]; rewrite D12, Hi2, slice_range_window by lia;
              f_equal; lia
            | lia .. | ].
          exists ip2. split; [exact E2|]. repeat split; congruence. }
      destruct Hpast as (ip2 & E2 & (D20 & D21 & D22)). rewrite E2. cbn [rbind].
      destruct (assign_window_fits ip2 fc (Some (- roll), None)
                  (Some (Z.of_nat nt + Z.of_nat npc), None)
                  (icl - Z.to_nat roll) (Z.to_nat roll) (nt + npc) nfc (pl - roll) pl)
        as (ip3 & E3 & D30 & D31 & D32);
        [ apply Htime; exact D21
        | cbn [fst snd]; rewrite D22, slice_range_from by lia; f_equal; lia
        | lia .. | ].
      rewrite E3. cbn [rbind]. exists ip3. split; [reflexivity|].
      repeat split; congruence.
  - (* the past window is shorter than [roll]: it is overwritten whole *)
    assert (Hlt : Z.of_nat icl < roll).
    { rewrite Z.geb_leb in Ege. apply Z.leb_gt in Ege. exact Ege. }
    rewrite Bool.andb_false_r. cbv iota.
    assert (Htime : forall t : tensor, dim1 t = icl ->
              slice_range (dim1 t) None None = (0%nat, icl)).
    { intros t ->. apply slice_range_all. }
    destruct (assign_fits A (roll_time ip (- roll)) (None, None)
                (None, Some (Z.of_nat nt))
                (slice_time out0 (Some (- Z.of_nat icl)) None) 0 icl 0 nt)
      as (ip1 & E1 & D10 & D11 & D12).
    + apply Htime. exact Hi1.
    + cbn [fst snd roll_time dim2]. rewrite Hi2, slice_range_prefix by lia.
      f_equal. lia.
    + destruct (dims_slice_time A out0 (Some (- Z.of_nat icl)) None) as (-> & _ & _).
      cbn [roll_time dim0]. congruence.
    + destruct (dims_slice_time A out0 (Some (- Z.of_nat icl)) None) as (_ & -> & _).
      rewrite Ho1, slice_range_suffix by lia. cbn [snd]. lia.
    + destruct (dims_slice_time A out0 (Some (- Z.of_nat icl)) None) as (_ & _ & ->).
      rewrite Ho2. exact Hw.
    + rewrite E1. cbn [rbind]. simpl in D10, D11, D12.
      assert (Hpast : exists ip2,
                (if negb (npc =? 0)%nat
                 then let* src := subscript_time (future_past_covariates f)
                                    (Some (pl - Z.of_nat icl)) (Some pl) in
                      assign ip1 (None, None)
                        (Some (Z.of_nat nt), Some (Z.of_nat nt + Z.of_nat npc)) src
                 else Ok ip1) = Ok ip2 /\ past_window ip2).
      { destruct (npc =? 0)%nat eqn:Enpc; cbn [negb].
        - exists ip1. split; [reflexivity|]. repeat split; congruence.
        - apply Nat.eqb_neq in Enpc.
          destruct (Hfpc Enpc) as (fpc & Efpc & Hp0 & Hp2 & Hp1).
          rewrite Efpc. cbn [subscript_time rbind].
          destruct (assign_window_fits ip1 fpc (None, None)
                      (Some (Z.of_nat nt), Some (Z.of_nat nt + Z.of_nat npc))
                      0 icl nt npc (pl - Z.of_nat icl) pl)
            as (ip2 & E2 & D20 & D21 & D22);
            [ apply Htime; congruence
            | cbn [fst snd]; rewrite D12, Hi2, slice_range_window by lia;
              f_equal; lia
            | lia .. | ].
          exists ip2. split; [exact E2|]. repeat split; congruence. }
      destruct Hpast as (ip2 & E2 & (D20 & D21 & D22)).
      destruct (negb (npc =? 0)%nat); rewrite E2; cbn [rbind];
        (destruct (assign_window_fits ip2 fc (None, None)
                     (Some (Z.of_nat nt + Z.of_nat npc), None)
                     0 icl (nt + npc) nfc (pl - Z.of_nat icl) pl)
           as (ip3 & E3 & D30 & D31 & D32);
         [ apply Htime; exact D21
         | cbn [fst snd]; rewrite D22, slice_range_from by lia; f_equal; lia
         | lia ..
         | rewrite E3; cbn [rbind]; exists ip3; split; [reflexivity|];
           repeat split; congruence ]).
Qed.

(** The 4-tuple handed to the model has the shapes the model was built
    for. *)
Definition model_input_ok
  (x : tensor * option tensor * option tensor * option tensor) : Prop :=
  let '(pt, pc, hfc, fc) := x in
  shape pt = (B, icl, nt) /\
  match pc with
  | None => npc = 0%nat
  | Some t => (1 <= npc)%nat /\ shape t = (B, icl, npc)
  end /\
  (exists t, hfc = Some t /\ shape t = (B, icl, nfc)) /\
  (exists t, fc = Some t /\ shape t = (B, ocl, nfc)).

(** The model answers every well-shaped call with one tensor of
    [output_chunk_length] steps and [W] components. *)
Definition model_answers : Prop :=
  forall seed x, model_input_ok x ->
    exists t, model seed x = Ok (Forward.OneTensor t) /\ shape t = (B, ocl, W).

(** A configured likelihood samples one tensor of the shape it is given. *)
Definition sample_keeps_shape : Prop :=
  has_likelihood self = true ->
  forall seed t, exists t',
    sample seed (Forward.OneTensor t) = Ok (Forward.OneTensor t') /\
    shape t' = shape t.

(** With a quantile loss the model output has a column for the median. *)
Definition median_available : Prop :=
  isinstance_QuantileLoss (loss_fn self) = true ->
  exists p, index_of (1 # 2)%Q quantiles = Some p /\ (p < W)%nat.

(** The number of components of a prediction. *)
Definition width_out : nat :=
  if isinstance_QuantileLoss (loss_fn self) then 1%nat else W.

Hypothesis Hmodel : model_answers.
Hypothesis Hsample : sample_keeps_shape.
Hypothesis Hmedian : median_available.
Hypothesis Hfpi : first_prediction_index = 0.
Hypothesis Hwidth : broadcastable width_out nt = true.

(** A tensor has the shape of a prediction chunk of [len] steps. *)
Definition chunk_of (len : nat) (t : tensor) : Prop :=
  dim0 t = B /\ dim1 t = len /\ dim2 t = width_out.

Lemma produce_predict_output_ok
  (x : tensor * option tensor * option tensor * option tensor) (g : Gen) :
  model_input_ok x ->
  exists t,
    produce_predict_output x g = (Ok (Forward.OneTensor t), snd (next_seed g)) /\
    chunk_of ocl t.
Proof.
  intros Hx. unfold produce_predict_output, chunk_of, width_out.
  destruct (next_seed g) as [seed g'] eqn:Eg. cbn [snd].
  destruct (Hmodel seed x Hx) as (t & Em & Ht).
  apply dims_of_shape in Ht. destruct Ht as (Ht0 & Ht1 & Ht2).
  assert (Hlik : forall t0 : tensor,
            exists t', (if has_likelihood self
                        then sample seed (Forward.OneTensor t0)
                        else Ok (Forward.OneTensor t0)) = Ok (Forward.OneTensor t')
                       /\ shape t' = shape t0).
  { intros t0. destruct (has_likelihood self) eqn:El.
    - apply (Hsample El).
    - now exists t0. }
  destruct (isinstance_QuantileLoss (loss_fn self)) eqn:Eq.
  - destruct (Hmedian Eq) as (p & Ep & Hp). rewrite Ep, Em. cbn [rbind].
    unfold select_comp. rewrite Ht2.
    destruct (p <? W)%nat eqn:Elt; [|apply Nat.ltb_ge in Elt; lia].
    cbn [rbind].
    match goal with
    | |- context [sample seed (Forward.OneTensor ?m)] =>
        destruct (Hlik m) as (t' & Et' & Hs')
    end.
    exists t'. rewrite Et'. split; [reflexivity|].
    apply dims_of_shape. rewrite Hs'. unfold shape. cbn. congruence.
  - rewrite Em. cbn [rbind]. destruct (Hlik t) as (t' & Et' & Hs').
    exists t'. rewrite Et'. split; [reflexivity|].
    apply dims_of_shape. rewrite Hs'. unfold shape. congruence.
Qed.

Lemma split_input_ok (f : Frame) (ip input_future : tensor) :
  frame_ok f -> past_window ip ->
  shape input_future = (B, ocl, nfc) ->
  model_input_ok (split_input f ip input_future).
Proof.
  intros (Hnt & Hnpc & Hnfcf & _) (Hi0 & Hi1 & Hi2) Hfut.
  unfold split_input, model_input_ok. rewrite Hnt, Hnpc, Hnfcf.
  assert (Enfc : (nfc =? 0)%nat = false) by (apply Nat.eqb_neq; lia).
  rewrite Enfc.
  split; [|split; [|split]].
  - rewrite shape_slice_comp, Hi0, Hi1, Hi2, slice_range_prefix by lia.
    cbn [snd]. repeat f_equal. lia.
  - destruct (npc =? 0)%nat eqn:Enpc.
    + now apply Nat.eqb_eq.
    + apply Nat.eqb_neq in Enpc. split; [lia|].
      rewrite shape_slice_comp, Hi0, Hi1, Hi2, slice_range_window by lia.
      cbn [snd]. repeat f_equal. lia.
  - eexists. split; [reflexivity|].
    rewrite shape_slice_comp, Hi0, Hi1, Hi2, slice_range_from by lia.
    cbn [snd]. repeat f_equal. lia.
  - eexists. split; [reflexivity | exact Hfut].
Qed.

(** The invariant of the [while] loop when [roll_size] starts at
    [output_chunk_length]: the chunks add up to [prediction_length], and as
    long as the horizon is not reached [roll_size] is still
    [output_chunk_length] and so is the length of the last chunk. *)
Definition loop_inv (st : LoopState) : Prop :=
  past_window (input_past st) /\
  chunk_of ocl (out st) /\
  chunks_of B width_out (batch_prediction st) /\
  Z.of_nat (total_steps (batch_prediction st)) = prediction_length st /\
  Z.of_nat ocl <= prediction_length st /\
  (prediction_length st < n ->
   roll_size st = Z.of_nat ocl /\
   exists init last, batch_prediction st = init ++ [last] /\ dim1 last = ocl).

Lemma step_back_ok (st : LoopState) :
  loop_inv st -> prediction_length st < n ->
  exists roll pl bp,
    step_back n st = Ok (roll, pl, bp) /\
    1 <= roll <= Z.of_nat ocl /\ roll <= pl /\
    pl + Z.of_nat ocl <= n /\ prediction_length st < pl + Z.of_nat ocl /\
    chunks_of B width_out bp /\ Z.of_nat (total_steps bp) = pl /\
    (pl + Z.of_nat ocl < n -> roll = Z.of_nat ocl).
Proof.
  intros (_ & _ & Hc & Htot & Hge & Hlast) Hlt.
  destruct (Hlast Hlt) as (Hroll & init & last & Ebp & Hlen).
  unfold step_back. rewrite Hocl, Hroll.
  destruct (prediction_length st + Z.of_nat ocl >? n) eqn:Egt.
  - assert (Hspill : n < prediction_length st + Z.of_nat ocl).
    { rewrite Z.gtb_ltb in Egt. now apply Z.ltb_lt. }
    set (spill := prediction_length st + Z.of_nat ocl - n).
    assert (Hkeep : Z.of_nat ocl - spill = Z.of_nat (ocl - Z.to_nat spill)) by lia.
    rewrite Hkeep, Ebp, set_last_nonempty. cbn [rbind].
    rewrite Ebp in Hc, Htot.
    destruct (map_last_truncate B width_out ocl (ocl - Z.to_nat spill) init last
                Hc Hlen ltac:(lia)) as (Hc' & Htot' & _).
    eexists _, _, _. split; [reflexivity|].
    repeat split; try lia; try assumption.
  - assert (Hfit : prediction_length st + Z.of_nat ocl <= n).
    { rewrite Z.gtb_ltb in Egt. now apply Z.ltb_ge. }
    eexists _, _, _. split; [reflexivity|].
    repeat split; try lia; assumption.
Qed.

Lemma loop_body_ok (f : Frame) (st : LoopState) (g : Gen) :
  frame_ok f -> loop_inv st -> prediction_length st < n ->
  exists st' g',
    loop_body n f st g = (Ok st', g') /\ loop_inv st' /\
    prediction_length st < prediction_length st' <= n.
Proof.
  intros Hf Hinv Hlt.
  destruct (step_back_ok st Hinv Hlt)
    as (roll & pl & bp & Estep & Hroll & Hrp & Hpn & Hprog & Hc & Htot & Hkeep).
  destruct Hinv as (Hip & (Ho0 & Ho1 & Ho2) & _).
  destruct (update_past_ok f (input_past st) (out st) width_out roll pl
              Hf Hip Ho0 Ho1 Ho2 Hwidth Hroll Hrp ltac:(lia))
    as (ip' & Eup & Hip').
  pose proof Hf as (_ & _ & _ & (fc & Efc & Hfc0 & Hfc2 & Hfc1) & _).
  unfold loop_body.
  rewrite (StateResult.bind_pure_ok _ _ _ _ Estep).
  rewrite (StateResult.bind_pure_ok _ _ _ _ Eup).
  rewrite Efc, Hocl. cbn [subscript_time].
  rewrite (StateResult.bind_pure_ok _ _ _ _ eq_refl).
  assert (Hfut : shape (slice_time fc (Some pl) (Some (pl + Z.of_nat ocl)))
                 = (B, ocl, nfc)).
  { rewrite shape_slice_time, slice_range_window by lia. cbn [snd].
    rewrite Hfc0, Hfc2. repeat f_equal. lia. }
  destruct (produce_predict_output_ok _ g (split_input_ok f ip' _ Hf Hip' Hfut))
    as (t & Ep & (Ht0 & Ht1 & Ht2)).
  rewrite (StateResult.bind_ok _ _ _ _ _ Ep).
  rewrite Hfpi. cbn [output_from].
  rewrite (StateResult.bind_pure_ok _ _ _ _ eq_refl).
  unfold StateResult.ret.
  destruct (dims_slice_time A t (Some 0) None) as (Hs0 & Hs1 & Hs2).
  rewrite slice_range_from in Hs1 by lia. cbn [snd] in Hs1.
  assert (Hchunk : chunk_of ocl (slice_time t (Some 0) None)).
  { repeat split; try congruence. rewrite Hs1, Ht1. lia. }
  eexists _, _. split; [reflexivity|]. unfold loop_inv.
  cbn [prediction_length roll_size batch_prediction input_past out].
  split; [|lia].
  split; [exact Hip'|]. split; [exact Hchunk|].
  split; [|split; [|split]].
  - apply Forall_app. split; [exact Hc|]. constructor; [|constructor].
    destruct Hchunk as (? & ? & ?). split; assumption.
  - rewrite total_steps_app. cbn [total_steps fold_right].
    destruct Hchunk as (_ & -> & _). lia.
  - lia.
  - intros Hmore. split; [apply Hkeep; exact Hmore|].
    eexists _, _. split; [reflexivity|]. apply Hchunk.
Qed.

Lemma while_loop_ok (f : Frame) :
  frame_ok f ->
  forall fuel st g,
    loop_inv st ->
    (Z.to_nat (n - prediction_length st) <= fuel)%nat ->
    exists st' g',
      while_loop fuel n f st g = (Ok st', g') /\ loop_inv st' /\
      n <= prediction_length st'.
Proof.
  intros Hf fuel. induction fuel as [|fuel IH]; intros st g Hinv Hfuel;
    cbn [while_loop]; destruct (prediction_length st <? n) eqn:Elt.
  - apply Z.ltb_lt in Elt. lia.
  - apply Z.ltb_ge in Elt. now exists st, g.
  - apply Z.ltb_lt in Elt.
    destruct (loop_body_ok f st g Hf Hinv Elt) as (st1 & g1 & E1 & Hinv1 & Hprog).
    rewrite (StateResult.bind_ok _ _ _ _ _ E1). apply IH; [exact Hinv1 | lia].
  - apply Z.ltb_ge in Elt. now exists st, g.
Qed.

(** The input batch has the shapes of the configuration and covariates
    that reach the horizon. *)
Definition batch_ok
  (batch : tensor * option tensor * option tensor * option tensor * option tensor)
  : Prop :=
  let '(pt, pc, hfc, fc, fpc) := batch in
  shape pt = (B, icl, nt) /\
  match pc with
  | None => npc = 0%nat
  | Some t =>
      (1 <= npc)%nat /\ shape t = (B, icl, npc) /\
      exists c, fpc = Some c /\ dim0 c = B /\ dim2 c = npc /\
                n - Z.of_nat ocl <= Z.of_nat (dim1 c)
  end /\
  (exists t, hfc = Some t /\ shape t = (B, icl, nfc)) /\
  (exists c, fc = Some c /\ dim0 c = B /\ dim2 c = nfc /\
             n <= Z.of_nat (dim1 c) /\ (ocl <= dim1 c)%nat).

Lemma initial_window_ok (pt : tensor) (pc : option tensor) (hfc : tensor) :
  shape pt = (B, icl, nt) ->
  match pc with
  | None => npc = 0%nat
  | Some t => shape t = (B, icl, npc)
  end ->
  shape hfc = (B, icl, nfc) ->
  exists ip, cat (not_none [Some pt; pc; Some hfc]) 2 = Ok ip /\ past_window ip.
Proof.
  intros Hpt Hpc Hhfc.
  apply dims_of_shape in Hpt, Hhfc.
  destruct Hpt as (P0 & P1 & P2), Hhfc as (H0 & H1 & H2).
  destruct pc as [c|]; cbn [not_none flat_map app cat cat_onto].
  - apply dims_of_shape in Hpc. destruct Hpc as (C0 & C1 & C2).
    destruct (cat2_comp_ok A pt c) as (t1 & E1 & S1); [congruence ..|].
    apply dims_of_shape in S1. destruct S1 as (T0 & T1 & T2).
    rewrite E1. cbn [rbind].
    destruct (cat2_comp_ok A t1 hfc) as (t2 & E2 & S2); [congruence ..|].
    apply dims_of_shape in S2. destruct S2 as (U0 & U1 & U2).
    rewrite E2. cbn [rbind]. exists t2. split; [reflexivity|].
    repeat split; congruence.
  - destruct (cat2_comp_ok A pt hfc) as (t1 & E1 & S1); [congruence ..|].
    apply dims_of_shape in S1. destruct S1 as (T0 & T1 & T2).
    rewrite E1. cbn [rbind]. exists t1. split; [reflexivity|].
    repeat split; try congruence. rewrite T2, P2, H2, Hpc. lia.
Qed.

(** With [roll_size = output_chunk_length] the rollout returns a tensor of
    exactly [n] steps and [width_out] components. *)
Lemma get_batch_prediction_shape
  (batch : tensor * option tensor * option tensor * option tensor * option tensor)
  (fuel : nat) (g : Gen) :
  1 <= n -> batch_ok batch -> (Z.to_nat n <= fuel)%nat ->
  exists t g',
    get_batch_prediction fuel n batch (Z.of_nat ocl) g = (Ok t, g') /\
    shape t = (B, Z.to_nat n, width_out).
Proof.
  intros Hn Hbatch Hfuel.
  destruct batch as [[[[pt pc] hfc'] fc'] fpc'].
  destruct Hbatch as (Hpt & Hpc & (hfc & -> & Hhfc)
                      & (fc & -> & Hfc0 & Hfc2 & Hfc1 & Hfcl)).
  unfold get_batch_prediction.
  destruct (initial_window_ok pt pc hfc Hpt
              ltac:(destruct pc; [apply Hpc | exact Hpc]) Hhfc)
    as (ip & Eip & Hip).
  rewrite (StateResult.bind_pure_ok _ _ _ _ Eip).
  assert (Hfirst : model_input_ok
                     (pt, pc, Some hfc,
                      Some (clone (slice_time fc None (Some (Z.of_nat ocl)))))).
  { split; [exact Hpt|]. split; [destruct pc; [split; apply Hpc | exact Hpc]|].
    split; [now exists hfc|]. eexists. split; [reflexivity|].
    unfold clone. rewrite shape_slice_time, slice_range_prefix by lia.
    cbn [snd]. rewrite Hfc0, Hfc2. repeat f_equal. lia. }
  destruct (produce_predict_output_ok _ g Hfirst) as (t0 & Ep & (Ht0 & Ht1 & Ht2)).
  rewrite (StateResult.bind_ok _ _ _ _ _ Ep).
  rewrite Hfpi. cbn [output_from].
  rewrite (StateResult.bind_pure_ok _ _ _ _ eq_refl).
  set (out0 := slice_time t0 (Some 0) None).
  destruct (dims_slice_time A t0 (Some 0) None) as (Hs0 & Hs1 & Hs2).
  rewrite slice_range_from in Hs1 by lia. cbn [snd] in Hs1.
  assert (Hout0 : chunk_of ocl out0).
  { subst out0. repeat split; try congruence. rewrite Hs1, Ht1. lia. }
  set (first := slice_time out0 None (Some (Z.of_nat ocl))).
  assert (Hfirst_chunk : chunk_of ocl first).
  { destruct Hout0 as (O0 & O1 & O2).
    destruct (dims_slice_time A out0 None (Some (Z.of_nat ocl))) as (F0 & F1 & F2).
    rewrite slice_range_prefix in F1 by lia. cbn [snd] in F1.
    subst first. repeat split; try congruence. rewrite F1, O1. lia. }
  set (f := {| n_targets := dim2 pt;
               n_past_covs := components pc;
               n_future_covs := components (Some fc);
               future_covariates := Some fc;
               future_past_covariates := fpc' |}).
  assert (Hf : frame_ok f).
  { apply dims_of_shape in Hpt. destruct Hpt as (P0 & P1 & P2).
    subst f. unfold frame_ok.
    cbn [n_targets n_past_covs n_future_covs future_covariates
         future_past_covariates components].
    split; [exact P2|]. split.
    { destruct pc as [c|]; cbn [components].
      - destruct Hpc as (_ & Hc & _). apply dims_of_shape in Hc. apply Hc.
      - now symmetry. }
    split; [exact Hfc2|]. split; [now exists fc|].
    intros Hnz. destruct pc as [c|]; [|contradiction].
    destruct Hpc as (_ & _ & Hfpc). exact Hfpc. }
  set (st0 := {| roll_size := Z.of_nat ocl;
                 prediction_length := Z.of_nat ocl;
                 batch_prediction := [first];
                 input_past := ip;
                 out := out0 |}).
  assert (Hinv0 : loop_inv st0).
  { subst st0. unfold loop_inv.
    cbn [prediction_length roll_size batch_prediction input_past out].
    split; [exact Hip|]. split; [exact Hout0|].
    destruct Hfirst_chunk as (F0 & F1 & F2).
    split; [constructor; [split; assumption | constructor]|].
    split; [cbn [total_steps fold_right]; lia|].
    split; [lia|]. intros _. split; [reflexivity|].
    exists [], first. split; [reflexivity | exact F1]. }
  destruct (while_loop_ok f Hf fuel st0 (snd (next_seed g)) Hinv0)
    as (st & g' & Ew & Hinv & Hdone).
  { subst st0. cbn [prediction_length]. lia. }
  rewrite (StateResult.bind_ok _ _ _ _ _ Ew).
  destruct Hinv as (_ & _ & Hc & Htot & Hge & _).
  destruct (cat_time_ok B width_out (batch_prediction st)) as (p & Ec & Hp).
  { intros E. rewrite E in Htot. cbn in Htot. lia. }
  { exact Hc. }
  rewrite (StateResult.bind_pure_ok _ _ _ _ Ec). unfold StateResult.ret.
  eexists _, _. split; [reflexivity|].
  apply dims_of_shape in Hp. destruct Hp as (Q0 & Q1 & Q2).
  rewrite shape_slice_time, slice_range_prefix by lia. cbn [snd].
  rewrite Q0, Q1, Q2. repeat f_equal. lia.
Qed.

End Shapes.

(** A rollout call the model was built for: [roll_size] is
    [output_chunk_length], predictions start at index 0 of the model
    output, the model was configured with output width [W] and answers
    well-shaped calls, and the batch has the shapes of the configuration. *)
Record valid_rollout (B icl ocl nt npc nfc W : nat) (n : Z)
  (batch : tensor * option tensor * option tensor * option tensor * option tensor)
  (roll : Z) : Prop := {
  v_icl : input_chunk_length self = Z.of_nat icl;
  v_ocl : output_chunk_length self = Z.of_nat ocl;
  v_size : output_size self = TFTModule.SizeInt (Z.of_nat W);
  v_icl_pos : (1 <= icl)%nat;
  v_ocl_pos : (1 <= ocl)%nat;
  v_nfc_pos : (1 <= nfc)%nat;
  v_fpi : first_prediction_index = 0;
  v_roll : roll = Z.of_nat ocl;
  v_n : 1 <= n;
  v_model : model_answers B icl ocl nt npc nfc W;
  v_sample : sample_keeps_shape;
  v_median : median_available W;
  v_width : broadcastable (width_out W) nt = true;
  v_batch : batch_ok B icl ocl nt npc nfc n batch
}.

(** C3 (as the code behaves): on every valid rollout call whose
    [roll_size] is [output_chunk_length], [_get_batch_prediction] returns one
    tensor of shape (batch, n, w), where w is 1 under a quantile loss (only
    the median column of the model output is kept) and the configured output
    width under any other loss. *)
Theorem rollout_returns_batch_n_width
  (B icl ocl nt npc nfc W : nat) (n : Z)
  (batch : tensor * option tensor * option tensor * option tensor * option tensor)
  (roll : Z) (fuel : nat) (g : Gen) :
  valid_rollout B icl ocl nt npc nfc W n batch roll ->
  (Z.to_nat n <= fuel)%nat ->
  exists t g',
    get_batch_prediction fuel n batch roll g = (Ok t, g') /\
    shape t = (B, Z.to_nat n,
               if isinstance_QuantileLoss (loss_fn self) then 1%nat else W).
Proof.
  intros [] Hfuel. subst roll.
  now apply (get_batch_prediction_shape B icl ocl nt npc nfc W n).
Qed.

(** *** What every rollout does, whatever the shapes *)

(** The generator after [k] decorated calls. *)
Fixpoint draws (k : nat) (g : Gen) : Gen :=
  match k with
  | O => g
  | S k' => draws k' (snd (next_seed g))
  end.

(** The turns of the [while] loop still to run from [prediction_length]
    [pl]: the chunks of [output_chunk_length] needed to reach [n]. *)
Definition turns (n pl : Z) : nat :=
  Z.to_nat ((n - pl + output_chunk_length self - 1) / output_chunk_length self).

Lemma turns_done (n pl : Z) :
  1 <= output_chunk_length self -> n <= pl -> turns n pl = 0%nat.
Proof.
  intros Hocl Hle. unfold turns.
  assert ((n - pl + output_chunk_length self - 1) / output_chunk_length self <= 0);
    [|lia].
  assert ((n - pl + output_chunk_length self - 1) / output_chunk_length self < 1);
    [|lia].
  apply Z.div_lt_upper_bound; lia.
Qed.

Lemma turns_step (n pl : Z) :
  1 <= output_chunk_length self -> pl < n ->
  turns n pl = S (turns n (Z.min (pl + output_chunk_length self) n)).
Proof.
  intros Hocl Hlt. unfold turns.
  set (ocl := output_chunk_length self) in *.
  destruct (Z.le_gt_cases (pl + ocl) n) as [Hfit | Hspill].
  - rewrite Z.min_l by lia.
    replace (n - pl + ocl - 1) with ((n - (pl + ocl) + ocl - 1) + 1 * ocl) by lia.
    rewrite Z.div_add by lia.
    assert (0 <= (n - (pl + ocl) + ocl - 1) / ocl) by (apply Z.div_pos; lia).
    lia.
  - rewrite Z.min_r by lia.
    replace (n - pl + ocl - 1) with ((n - pl - 1) + 1 * ocl) by lia.
    rewrite Z.div_add by lia.
    rewrite (Z.div_small (n - pl - 1)) by lia.
    replace (n - n + ocl - 1) with (ocl - 1) by lia.
    rewrite (Z.div_small (ocl - 1)) by lia. reflexivity.
Qed.

Lemma produce_predict_output_draws
  (x : tensor * option tensor * option tensor * option tensor) (g : Gen) :
  snd (produce_predict_output x g) = snd (next_seed g).
Proof.
  unfold produce_predict_output. now destruct (next_seed g).
Qed.

Lemma step_back_length (n : Z) (st : LoopState) (roll pl : Z) (bp : list tensor) :
  step_back n st = Ok (roll, pl, bp) ->
  pl + output_chunk_length self
  = Z.min (prediction_length st + output_chunk_length self) n.
Proof.
  unfold step_back.
  destruct (prediction_length st + output_chunk_length self >? n) eqn:Egt.
  - rewrite Z.gtb_ltb in Egt. apply Z.ltb_lt in Egt.
    destruct (set_last _ (batch_prediction st)); cbn [rbind]; try discriminate.
    intros H. injection H as <- <- <-. lia.
  - rewrite Z.gtb_ltb in Egt. apply Z.ltb_ge in Egt.
    intros H. injection H as <- <- <-. lia.
Qed.

Lemma update_past_right (f : Frame) (ip out0 : tensor) (roll pl : Z)
  (ip' : tensor) (rp : Z) :
  update_past f ip out0 roll pl = Ok (ip', rp) -> rp = pl.
Proof.
  unfold update_past.
  destruct (input_chunk_length self >=? roll); cbv zeta;
    repeat match goal with
           | |- rbind ?r _ = _ -> _ =>
               destruct r; cbn [rbind]; try discriminate
           | |- (let '(_, _) := (_, _) in _) = _ -> _ => cbv iota beta
           end;
    intros H; now injection H.
Qed.

(** One turn that returns has drawn one seed and moved [prediction_length]
    to the next chunk boundary, or to [n] when the chunk would pass it. *)
Lemma loop_body_turn (n : Z) (f : Frame) (st st' : LoopState) (g g' : Gen) :
  loop_body n f st g = (Ok st', g') ->
  g' = snd (next_seed g) /\
  prediction_length st'
  = Z.min (prediction_length st + output_chunk_length self) n.
Proof.
  unfold loop_body. intros H.
  apply StateResult.bind_pure_inv in H. destruct H as ([[roll pl] bp] & Es & H).
  apply StateResult.bind_pure_inv in H. destruct H as ([ip rp] & Eu & H).
  apply StateResult.bind_pure_inv in H. destruct H as (fut & _ & H).
  apply StateResult.bind_inv in H. destruct H as (o & g1 & Ep & H).
  apply StateResult.bind_pure_inv in H. destruct H as (out' & _ & H).
  unfold StateResult.ret in H. injection H as <- <-.
  cbn [prediction_length]. split.
  - pose proof (produce_predict_output_draws
                  (split_input f ip fut) g) as Hd.
    rewrite Ep in Hd. exact Hd.
  - now apply step_back_length in Es.
Qed.

(** The seeds drawn by a loop that returns. *)
Lemma while_loop_draws (n : Z) (f : Frame) :
  1 <= output_chunk_length self ->
  forall fuel st g st' g',
    while_loop fuel n f st g = (Ok st', g') ->
    g' = draws (turns n (prediction_length st)) g.
Proof.
  intros Hocl fuel. induction fuel as [|fuel IH]; intros st g st' g';
    cbn [while_loop]; destruct (prediction_length st <? n) eqn:Elt.
  - discriminate.
  - apply Z.ltb_ge in Elt. unfold StateResult.ret. intros H. injection H as _ <-.
    now rewrite turns_done.
  - apply Z.ltb_lt in Elt. intros H.
    apply StateResult.bind_inv in H. destruct H as (st1 & g1 & E1 & H).
    apply loop_body_turn in E1. destruct E1 as (-> & Hpl).
    apply IH in H. rewrite H, Hpl, (turns_step n (prediction_length st)) by assumption.
    reflexivity.
  - apply Z.ltb_ge in Elt. unfold StateResult.ret. intros H. injection H as _ <-.
    now rewrite turns_done.
Qed.

(** A rollout that returns has gone through [_produce_predict_output]
    once for the first chunk and once for every further chunk of
    [output_chunk_length] steps needed to get from [roll_size] to [n], and
    each of these calls drew one seed from the generator of the model:
    1 + ceil((n - roll_size) / output_chunk_length) seeds, and 1 when
    [n <= roll_size]. *)
Theorem rollout_draws_one_seed_per_chunk (fuel : nat) (n : Z)
  (input_batch : tensor * option tensor * option tensor * option tensor
                 * option tensor)
  (roll_size0 : Z) (g : Gen) (t : tensor) :
  1 <= output_chunk_length self ->
  fst (get_batch_prediction fuel n input_batch roll_size0 g) = Ok t ->
  snd (get_batch_prediction fuel n input_batch roll_size0 g)
  = draws (S (turns n roll_size0)) g.
Proof.
  intros Hocl.
  destruct (get_batch_prediction fuel n input_batch roll_size0 g) as [r g'] eqn:E.
  cbn [fst snd]. intros ->.
  destruct input_batch as [[[[pt pc] hfc] fc] fpc].
  unfold get_batch_prediction in E.
  apply StateResult.bind_pure_inv in E. destruct E as (ip & _ & E).
  apply StateResult.bind_inv in E. destruct E as (o & g1 & Ep & E).
  apply StateResult.bind_pure_inv in E. destruct E as (out0 & _ & E).
  apply StateResult.bind_inv in E. destruct E as (st & g2 & Ew & E).
  apply StateResult.bind_pure_inv in E. destruct E as (p & _ & E).
  unfold StateResult.ret in E. injection E as _ <-.
  apply (while_loop_draws n _ Hocl) in Ew. cbn [prediction_length] in Ew.
  match type of Ep with
  | produce_predict_output ?x g = _ =>
      pose proof (produce_predict_output_draws x g) as Hd
  end.
  rewrite Ep in Hd. cbn [snd] in Hd. subst g1. exact Ew.
Qed.

(** Without future covariates only the first chunk can be predicted: a
    call that has to enter the loop ([roll_size < n]) never returns a
    tensor, because the loop subscripts [future_covariates]. *)
Theorem rollout_without_future_covariates_never_returns (fuel : nat) (n : Z)
  (past_target : tensor)
  (past_covariates historic_future_covariates future_past_covariates0
   : option tensor)
  (roll_size0 : Z) (g : Gen) (t : tensor) :
  roll_size0 < n ->
  fst (get_batch_prediction fuel n
         (past_target, past_covariates, historic_future_covariates, None,
          future_past_covariates0) roll_size0 g) <> Ok t.
Proof.
  intros Hlt H.
  match type of H with
  | fst ?c = _ => destruct c as [r g'] eqn:E
  end.
  cbn [fst] in H. subst r.
  unfold get_batch_prediction in E.
  apply StateResult.bind_pure_inv in E. destruct E as (ip & _ & E).
  apply StateResult.bind_inv in E. destruct E as (o & g1 & _ & E).
  apply StateResult.bind_pure_inv in E. destruct E as (out0 & _ & E).
  apply StateResult.bind_inv in E. destruct E as (st & g2 & Ew & _).
  destruct fuel as [|fuel]; cbn [while_loop prediction_length] in Ew;
    apply Z.ltb_lt in Hlt; rewrite Hlt in Ew; [discriminate|].
  apply StateResult.bind_inv in Ew. destruct Ew as (st1 & g3 & Eb & _).
  unfold loop_body in Eb.
  apply StateResult.bind_pure_inv in Eb. destruct Eb as ([[roll pl] bp] & _ & Eb).
  apply StateResult.bind_pure_inv in Eb. destruct Eb as ([ip1 rp] & _ & Eb).
  apply StateResult.bind_pure_inv in Eb. destruct Eb as (fut & Ef & _).
  cbn [future_covariates subscript_time] in Ef. discriminate.
Qed.


(** *** The loop ends *)

Lemma rbind_fuel {X Y : Type} (r : result X) (k : X -> result Y) :
  r <> OutOfFuel -> (forall x, k x <> OutOfFuel) -> rbind r k <> OutOfFuel.
Proof. destruct r; cbn [rbind]; intros Hr Hk; [apply Hk | discriminate | contradiction]. Qed.

Lemma assign_fuel (t : tensor) (time comp : option Z * option Z) (src : tensor) :
  assign t time comp src <> OutOfFuel.
Proof.
  unfold assign. destruct (slice_range (dim1 t) _ _), (slice_range (dim2 t) _ _).
  destruct (_ && _)%bool; discriminate.
Qed.

Lemma cat2_fuel (dim : nat) (t1 t2 : tensor) : cat2 dim t1 t2 <> OutOfFuel.
Proof.
  unfold cat2. destruct dim as [|[|[|dim]]]; try discriminate;
    destruct (_ && _)%bool; discriminate.
Qed.

Lemma cat_fuel (ts : list tensor) (dim : nat) : cat ts dim <> OutOfFuel.
Proof.
  destruct ts as [|t ts]; [discriminate|]. cbn [cat]. revert t.
  induction ts as [|t' ts IH]; intros t; cbn [cat_onto]; [discriminate|].
  apply rbind_fuel; [apply cat2_fuel | intros acc; apply IH].
Qed.

Lemma subscript_time_fuel (t : option tensor) (a b : option Z) :
  subscript_time t a b <> OutOfFuel.
Proof. destruct t; discriminate. Qed.

Lemma output_from_fuel (o : Output) (start : Z) : output_from o start <> OutOfFuel.
Proof. destruct o; discriminate. Qed.

Lemma step_back_fuel (n : Z) (st : LoopState) : step_back n st <> OutOfFuel.
Proof.
  unfold step_back. destruct (_ >? n); [|discriminate].
  apply rbind_fuel; [|discriminate].
  unfold set_last. destruct (batch_prediction st); discriminate.
Qed.

Lemma update_past_fuel (f : Frame) (ip out0 : tensor) (roll pl : Z) :
  update_past f ip out0 roll pl <> OutOfFuel.
Proof.
  unfold update_past.
  destruct (input_chunk_length self >=? roll),
           (n_past_covs f =? 0)%nat, (n_future_covs f =? 0)%nat;
    cbn [negb andb]; cbv beta iota zeta;
    repeat first
      [ discriminate
      | apply assign_fuel
      | apply subscript_time_fuel
      | apply rbind_fuel; [|intros ?] ].
Qed.

Section Returns.

(** The network and the likelihood return or raise. *)
Hypothesis Hmodel_returns : forall seed x, model seed x <> OutOfFuel.
Hypothesis Hsample_returns : forall seed o, sample seed o <> OutOfFuel.

Lemma produce_predict_output_fuel
  (x : tensor * option tensor * option tensor * option tensor) (g : Gen) :
  fst (produce_predict_output x g) <> OutOfFuel.
Proof.
  unfold produce_predict_output. destruct (next_seed g) as [seed g']. cbn [fst].
  apply rbind_fuel.
  - destruct (isinstance_QuantileLoss (loss_fn self)); [|apply Hmodel_returns].
    apply rbind_fuel; [destruct (index_of _ _); discriminate|]. intros p.
    apply rbind_fuel; [apply Hmodel_returns|]. intros [t|ts]; [|discriminate].
    apply rbind_fuel; [|discriminate].
    unfold select_comp. destruct (_ <? _)%nat; discriminate.
  - intros o. destruct (has_likelihood self); [apply Hsample_returns | discriminate].
Qed.

Lemma pure_fuel {X Y : Type} (r : result X) (k : X -> R Y) (g : Gen) :
  r <> OutOfFuel -> (forall x, fst (k x g) <> OutOfFuel) ->
  fst (StateResult.bind (StateResult.pure r) k g) <> OutOfFuel.
Proof.
  intros Hr Hk. unfold StateResult.bind, StateResult.pure.
  destruct r; cbn [fst]; [apply Hk | discriminate | contradiction].
Qed.

Lemma loop_body_fuel (n : Z) (f : Frame) (st : LoopState) (g : Gen) :
  fst (loop_body n f st g) <> OutOfFuel.
Proof.
  unfold loop_body.
  apply pure_fuel; [apply step_back_fuel|]. intros [[roll pl] bp].
  apply pure_fuel; [apply update_past_fuel|]. intros [ip rp].
  apply pure_fuel; [apply subscript_time_fuel|]. intros fut.
  apply StateResult.bind_fuel; [apply produce_predict_output_fuel|]. intros o g1.
  apply pure_fuel; [apply output_from_fuel|]. intros out'. discriminate.
Qed.

(** With [output_chunk_length >= 1] the loop is over after [turns] turns. *)
Lemma while_loop_fuel (n : Z) (f : Frame) :
  1 <= output_chunk_length self ->
  forall fuel st g,
    (turns n (prediction_length st) <= fuel)%nat ->
    fst (while_loop fuel n f st g) <> OutOfFuel.
Proof.
  intros Hocl fuel. induction fuel as [|fuel IH]; intros st g Hfuel;
    cbn [while_loop]; destruct (prediction_length st <? n) eqn:Elt;
    try discriminate.
  - apply Z.ltb_lt in Elt. rewrite turns_step in Hfuel by assumption. lia.
  - apply Z.ltb_lt in Elt. rewrite turns_step in Hfuel by assumption.
    unfold StateResult.bind.
    pose proof (loop_body_fuel n f st g) as Hb.
    destruct (loop_body n f st g) as [[st1| e |] g1] eqn:E1; cbn [fst] in *;
      [|discriminate|contradiction].
    apply loop_body_turn in E1. destruct E1 as (_ & Hpl).
    apply IH. rewrite Hpl. lia.
Qed.

(** A loop that ended within its budget does the same under a larger one. *)
Lemma while_loop_more_fuel (n : Z) (f : Frame) :
  forall fuel fuel' st g,
    (fuel <= fuel')%nat ->
    fst (while_loop fuel n f st g) <> OutOfFuel ->
    while_loop fuel' n f st g = while_loop fuel n f st g.
Proof.
  intros fuel. induction fuel as [|fuel IH]; intros fuel' st g Hle Hne;
    destruct fuel' as [|fuel']; try lia; cbn [while_loop] in *;
    destruct (prediction_length st <? n); try reflexivity.
  - now contradiction Hne.
  - unfold StateResult.bind in *.
    destruct (loop_body n f st g) as [[st1| e |] g1]; try reflexivity.
    apply IH; [lia | exact Hne].
Qed.

(** When [output_chunk_length >= 1] and the network and the likelihood
    return or raise, the [while] loop of the rollout ends on every input:
    after at most ceil((n - roll_size) / output_chunk_length) turns the call
    has returned a tensor or raised, and a larger bound on the number of
    turns changes nothing. *)
Theorem rollout_loop_terminates (fuel fuel' : nat) (n : Z)
  (input_batch : tensor * option tensor * option tensor * option tensor
                 * option tensor)
  (roll_size0 : Z) (g : Gen) :
  1 <= output_chunk_length self ->
  (turns n roll_size0 <= fuel)%nat ->
  (fuel <= fuel')%nat ->
  fst (get_batch_prediction fuel n input_batch roll_size0 g) <> OutOfFuel /\
  get_batch_prediction fuel' n input_batch roll_size0 g
  = get_batch_prediction fuel n input_batch roll_size0 g.
Proof.
  intros Hocl Hfuel Hle.
  destruct input_batch as [[[[pt pc] hfc] fc] fpc].
  unfold get_batch_prediction. split.
  - apply pure_fuel; [apply cat_fuel|]. intros ip.
    apply StateResult.bind_fuel; [apply produce_predict_output_fuel|]. intros o g1.
    apply pure_fuel; [apply output_from_fuel|]. intros out0.
    apply StateResult.bind_fuel; [now apply while_loop_fuel|]. intros st g2.
    apply pure_fuel; [apply cat_fuel|]. intros p. discriminate.
  - apply StateResult.bind_ext; [reflexivity|]. intros ip g0.
    apply StateResult.bind_ext; [reflexivity|]. intros o g1.
    apply StateResult.bind_ext; [reflexivity|]. intros out0 g2.
    apply StateResult.bind_ext; [|reflexivity].
    apply while_loop_more_fuel; [exact Hle|]. now apply while_loop_fuel.
Qed.

End Returns.


(** *** What the feedback step writes *)

(** The entries of a tensor after an assignment to a slice. *)
Lemma assign_at (t src t' : tensor) (time comp : option Z * option Z)
  (a len c wid : nat) :
  slice_range (dim1 t) (fst time) (snd time) = (a, len) ->
  slice_range (dim2 t) (fst comp) (snd comp) = (c, wid) ->
  assign t time comp src = Ok t' ->
  shape t' = shape t /\
  (forall i j k, (j < a)%nat \/ (k < c)%nat -> at_ t' i j k = at_ t i j k) /\
  (forall i j k, (j < len)%nat -> (k < wid)%nat ->
     at_ t' i (a + j)%nat (c + k)%nat
     = at_ src (if (dim0 src =? 1)%nat then 0 else i)%nat
               (if (dim1 src =? 1)%nat then 0 else j)%nat
               (if (dim2 src =? 1)%nat then 0 else k)%nat).
Proof.
  intros Et Ec. unfold assign. rewrite Et, Ec.
  destruct (_ && _)%bool; [|discriminate]. intros H. injection H as <-.
  split; [reflexivity|]. cbn [at_]. split.
  - intros i j k [Hj | Hk].
    + assert (E : (a <=? j)%nat = false) by (apply Nat.leb_gt; lia).
      now rewrite E.
    + assert (E : (c <=? k)%nat = false) by (apply Nat.leb_gt; lia).
      rewrite E, Bool.andb_false_r. reflexivity.
  - intros i j k Hj Hk.
    assert (E1 : (a <=? a + j)%nat = true) by (apply Nat.leb_le; lia).
    assert (E2 : (a + j <? a + len)%nat = true) by (apply Nat.ltb_lt; lia).
    assert (E3 : (c <=? c + k)%nat = true) by (apply Nat.leb_le; lia).
    assert (E4 : (c + k <? c + wid)%nat = true) by (apply Nat.ltb_lt; lia).
    rewrite E1, E2, E3, E4. cbn [andb].
    replace (a + j - a)%nat with j by lia.
    replace (c + k - c)%nat with k by lia. reflexivity.
Qed.

(** [t'] has the shape of [t] and its entries outside the last [roll] time
    steps and in the first [nt] components. *)
Definition keeps (roll : Z) (nt : nat) (t t' : tensor) : Prop :=
  shape t' = shape t /\
  forall i j k, (j < dim1 t - Z.to_nat roll)%nat \/ (k < nt)%nat ->
    at_ t' i j k = at_ t i j k.

Lemma keeps_trans (roll : Z) (nt : nat) (t1 t2 t3 : tensor) :
  keeps roll nt t1 t2 -> keeps roll nt t2 t3 -> keeps roll nt t1 t3.
Proof.
  intros (S12 & K12) (S23 & K23). split; [congruence|].
  intros i j k H. rewrite K23, K12; try assumption; try reflexivity.
  apply dims_of_shape in S12. destruct S12 as (_ & -> & _). exact H.
Qed.

Lemma if_twice {X : Type} (b : bool) (x y z : X) :
  (if b then x else if b then y else z) = if b then x else z.
Proof. now destruct b. Qed.

(** A covariate block written into the last [roll] time steps, in columns
    from [lo] on, leaves the rest as it was. *)
Lemma covariate_write_keeps (b : bool) (t t' : tensor) (srcr : result tensor)
  (roll lo : Z) (hi : option Z) (nt : nat) :
  0 < roll <= Z.of_nat (dim1 t) ->
  Z.of_nat nt <= lo -> (nt <= dim2 t)%nat ->
  (if b then let* src := srcr in assign t (Some (- roll), None) (Some lo, hi) src
   else Ok t) = Ok t' ->
  keeps roll nt t t'.
Proof.
  intros Hroll Hlo Hnt H. destruct b.
  - destruct srcr as [src| e |]; cbn [rbind] in H; try discriminate.
    destruct (slice_range (dim2 t) (Some lo) hi) as [c wid] eqn:Ec.
    destruct (assign_at t src t' (Some (- roll), None) (Some lo, hi) _ _ c wid
                (slice_range_suffix (dim1 t) roll Hroll) Ec H) as (Hs & Hout & _).
    split; [exact Hs|]. intros i j k [Hj | Hk]; apply Hout; [left; exact Hj|].
    right. unfold slice_range in Ec. injection Ec as <- _.
    unfold norm_index. destruct (lo <? 0) eqn:E; [apply Z.ltb_lt in E; lia|]. lia.
  - injection H as <-. split; reflexivity.
Qed.

(** One feedback step with [roll_size <= input_chunk_length]: the window
    keeps its shape, every entry moves [roll_size] steps towards the past,
    and the target columns of the last [roll_size] steps are the first
    [roll_size] steps of the last prediction. *)
Theorem update_past_slides_window (f : Frame) (ip out0 ip' : tensor)
  (roll pl rp : Z) :
  input_chunk_length self = Z.of_nat (dim1 ip) ->
  0 < roll <= Z.of_nat (dim1 ip) ->
  (n_targets f <= dim2 ip)%nat ->
  update_past f ip out0 roll pl = Ok (ip', rp) ->
  shape ip' = shape ip /\
  (forall i j k, (j + Z.to_nat roll < dim1 ip)%nat ->
     at_ ip' i j k = at_ ip i (j + Z.to_nat roll)%nat k) /\
  (dim0 out0 = dim0 ip -> dim2 out0 = n_targets f ->
   roll <= Z.of_nat (dim1 out0) ->
   forall i j k, (i < dim0 ip)%nat -> (j < Z.to_nat roll)%nat ->
     (k < n_targets f)%nat ->
     at_ ip' i (dim1 ip - Z.to_nat roll + j)%nat k = at_ out0 i j k).
Proof.
  intros Hicl Hroll Hnt H. unfold update_past in H. rewrite Hicl in H.
  assert (Ege : (Z.of_nat (dim1 ip) >=? roll) = true).
  { rewrite Z.geb_leb. apply Z.leb_le. lia. }
  rewrite Ege in H. rewrite !Bool.andb_true_r in H.
  set (rolled := roll_time ip (- roll)) in H.
  assert (Hr1 : dim1 rolled = dim1 ip) by reflexivity.
  assert (Hr2 : dim2 rolled = dim2 ip) by reflexivity.
  destruct (assign rolled (Some (- roll), None)
              (None, Some (Z.of_nat (n_targets f)))
              (slice_time out0 None (Some roll))) as [t1| e |] eqn:E1;
    cbn [rbind] in H; try discriminate.
  destruct (assign_at rolled _ t1 (Some (- roll), None)
              (None, Some (Z.of_nat (n_targets f)))
              _ _ 0%nat (Nat.min (Z.to_nat (Z.of_nat (n_targets f))) (dim2 rolled))
              (slice_range_suffix (dim1 rolled) roll Hroll)
              (slice_range_prefix (dim2 rolled) _ (Nat2Z.is_nonneg _)) E1)
    as (S1 & Out1 & In1).
  pose proof S1 as D1. apply dims_of_shape in D1. destruct D1 as (D10 & D11 & D12).
  cbv beta iota zeta in H.
  match type of H with
  | rbind ?r _ = _ => destruct r as [t2| e |] eqn:E2; cbn [rbind] in H;
                      try discriminate
  end.
  rewrite if_twice in E2.
  apply covariate_write_keeps with (nt := n_targets f) in E2;
    [|lia ..].
  pose proof E2 as (S2 & _). apply dims_of_shape in S2.
  destruct S2 as (D20 & D21 & D22).
  match type of H with
  | rbind ?r _ = _ => destruct r as [t3| e |] eqn:E3; cbn [rbind] in H;
                      try discriminate
  end.
  rewrite if_twice in E3.
  apply covariate_write_keeps with (nt := n_targets f) in E3;
    [|lia ..].
  injection H as <- <-.
  pose proof (keeps_trans _ _ _ _ _ E2 E3) as (S3 & K3).
  split; [rewrite S3, S1; reflexivity|]. split.
  - intros i j k Hj. rewrite K3 by (left; lia).
    rewrite Out1 by (left; lia).
    subst rolled. cbn [roll_time at_]. f_equal.
    replace (Z.of_nat j - - roll) with (Z.of_nat (j + Z.to_nat roll)) by lia.
    rewrite Z.mod_small by lia. apply Nat2Z.id.
  - intros Ho0 Ho2 Ho1 i j k Hi Hj Hk.
    rewrite K3 by (right; exact Hk).
    rewrite <- Hr1.
    change k with (0 + k)%nat at 1.
    rewrite In1 by lia.
    destruct (dims_slice_time A out0 None (Some roll)) as (Q0 & Q1 & Q2).
    rewrite slice_range_prefix in Q1 by lia. cbn [snd] in Q1.
    rewrite Q0, Q1, Q2.
    unfold slice_time. rewrite slice_range_prefix by lia. cbn [at_].
    destruct (dim0 out0 =? 1)%nat eqn:B0;
      [apply Nat.eqb_eq in B0; replace i with 0%nat by lia|];
    (destruct (Nat.min (Z.to_nat roll) (dim1 out0) =? 1)%nat eqn:B1;
      [apply Nat.eqb_eq in B1; replace j with 0%nat by lia|]);
    (destruct (dim2 out0 =? 1)%nat eqn:B2;
      [apply Nat.eqb_eq in B2; replace k with 0%nat by lia|]);
    reflexivity.
Qed.


(** *** What one prediction call returns *)

(** [l.index(x)] is the first position that holds [x]. *)
Lemma index_of_first (x : Q) (l : list Q) (p : nat) :
  forallb (fun q => negb (Qeq_bool q x)) (firstn p l) = true ->
  option_map (fun q => Qeq_bool q x) (nth_error l p) = Some true ->
  index_of x l = Some p.
Proof.
  revert p. induction l as [|y l IH]; intros [|p] Hbefore Hat;
    cbn [nth_error option_map firstn forallb index_of] in *; try discriminate.
  - injection Hat as ->. reflexivity.
  - apply andb_prop in Hbefore. destruct Hbefore as (Hy & Hrest).
    apply Bool.negb_true_iff in Hy. rewrite Hy, (IH p Hrest Hat). reflexivity.
Qed.

(** With a quantile loss and no likelihood, the prediction is the median
    of the network output: when 0.5 is first found at position [p] of the
    quantile levels and the network returns one tensor with more than [p]
    components, [_produce_predict_output] returns a tensor of the same
    batch and time sizes with one component, column [p] of the network
    output. *)
Theorem predict_output_is_median_column
  (x : tensor * option tensor * option tensor * option tensor) (g : Gen)
  (t : tensor) (p : nat) :
  isinstance_QuantileLoss (loss_fn self) = true ->
  has_likelihood self = false ->
  forallb (fun q => negb (Qeq_bool q (1 # 2))) (firstn p quantiles) = true ->
  option_map (fun q => Qeq_bool q (1 # 2)) (nth_error quantiles p) = Some true ->
  model (fst (next_seed g)) x = Ok (Forward.OneTensor t) ->
  (p < dim2 t)%nat ->
  exists t',
    produce_predict_output x g = (Ok (Forward.OneTensor t'), snd (next_seed g)) /\
    shape t' = (dim0 t, dim1 t, 1%nat) /\
    forall i j k, at_ t' i j k = at_ t i j p.
Proof.
  intros Hq Hl Hbefore Hat Hm Hp. unfold produce_predict_output.
  destruct (next_seed g) as [seed g1]. cbn [fst snd] in *.
  rewrite Hq, Hl, (index_of_first _ _ _ Hbefore Hat), Hm. cbn [rbind].
  unfold select_comp. apply Nat.ltb_lt in Hp. rewrite Hp. cbn [rbind].
  eexists. split; [reflexivity|]. split; reflexivity.
Qed.

(** A network with several targets returns a list of tensors, and a list
    cannot be rolled out: without a likelihood, a rollout over a network
    whose every answer is a list never returns a tensor, under any loss
    (the call subscripts the list as a tensor). *)
Theorem rollout_of_list_output_never_returns (fuel : nat) (n : Z)
  (input_batch : tensor * option tensor * option tensor * option tensor
                 * option tensor)
  (roll_size0 : Z) (g : Gen) (t : tensor) :
  has_likelihood self = false ->
  (forall seed x o, model seed x = Ok o -> exists ts, o = Forward.TensorList ts) ->
  fst (get_batch_prediction fuel n input_batch roll_size0 g) <> Ok t.
Proof.
  intros Hl Hlist H.
  match type of H with
  | fst ?c = _ => destruct c as [r g'] eqn:E
  end.
  cbn [fst] in H. subst r.
  destruct input_batch as [[[[pt pc] hfc] fc] fpc].
  unfold get_batch_prediction in E.
  apply StateResult.bind_pure_inv in E. destruct E as (ip & _ & E).
  apply StateResult.bind_inv in E. destruct E as (o & g1 & Ep & E).
  apply StateResult.bind_pure_inv in E. destruct E as (out0 & Eo & _).
  unfold produce_predict_output in Ep.
  destruct (next_seed g) as [seed g2]. rewrite Hl in Ep.
  destruct (isinstance_QuantileLoss (loss_fn self)).
  - destruct (index_of (1 # 2) quantiles); cbn [rbind] in Ep; [|discriminate].
    match type of Ep with
    | context [model seed ?x] =>
        destruct (model seed x) as [o'| e |] eqn:Em; cbn [rbind] in Ep;
        try discriminate
    end.
    destruct (Hlist _ _ _ Em) as (ts & ->). discriminate.
  - match type of Ep with
    | context [model seed ?x] =>
        destruct (model seed x) as [o'| e |] eqn:Em; cbn [rbind] in Ep;
        try discriminate
    end.
    destruct (Hlist _ _ _ Em) as (ts & ->).
    injection Ep as <- _. discriminate.
Qed.


(** *** A horizon within the first chunk *)

(** When [n <= roll_size] the loop is not entered: once the past window is
    assembled and the one prediction call has returned a tensor, the rollout
    returns the first [n] steps of that tensor from [first_prediction_index]
    on, entry for entry, and nothing is fed back. *)
Theorem rollout_within_first_chunk (fuel : nat) (n : Z)
  (past_target : tensor)
  (past_covariates historic_future_covariates future_covariates0
   future_past_covariates0 : option tensor)
  (roll_size0 : Z) (g g1 : Gen) (ip t0 : tensor) :
  0 <= n <= roll_size0 ->
  0 <= first_prediction_index ->
  cat (not_none [Some past_target; past_covariates;
                 historic_future_covariates]) 2 = Ok ip ->
  produce_predict_output
    (past_target, past_covariates, historic_future_covariates,
     match future_covariates0 with
     | Some fc => Some (clone (slice_time fc None (Some roll_size0)))
     | None => None
     end) g = (Ok (Forward.OneTensor t0), g1) ->
  exists t,
    get_batch_prediction fuel n
      (past_target, past_covariates, historic_future_covariates,
       future_covariates0, future_past_covariates0) roll_size0 g = (Ok t, g1) /\
    shape t = (dim0 t0,
               Nat.min (Z.to_nat n) (dim1 t0 - Z.to_nat first_prediction_index),
               dim2 t0) /\
    forall i j k, (j < dim1 t)%nat ->
      at_ t i j k = at_ t0 i (Z.to_nat first_prediction_index + j)%nat k.
Proof.
  intros Hn Hfpi Ecat Ep. unfold get_batch_prediction.
  rewrite (StateResult.bind_pure_ok _ _ _ _ Ecat).
  rewrite (StateResult.bind_ok _ _ _ _ _ Ep). cbn [output_from].
  rewrite (StateResult.bind_pure_ok _ _ _ _ eq_refl).
  assert (Eloop : forall st, prediction_length st = roll_size0 ->
            while_loop fuel n
              {| n_targets := dim2 past_target;
                 n_past_covs := components past_covariates;
                 n_future_covs := components future_covariates0;
                 future_covariates := future_covariates0;
                 future_past_covariates := future_past_covariates0 |} st g1
            = (Ok st, g1)).
  { intros st Hst. destruct fuel; cbn [while_loop]; rewrite Hst;
      (destruct (roll_size0 <? n) eqn:E; [apply Z.ltb_lt in E; lia | reflexivity]). }
  erewrite StateResult.bind_ok by (apply Eloop; reflexivity).
  cbn [batch_prediction cat cat_onto].
  rewrite (StateResult.bind_pure_ok _ _ _ _ eq_refl). unfold StateResult.ret.
  eexists. split; [reflexivity|].
  unfold slice_time, shape. cbn [dim0 dim1 dim2 at_].
  unfold slice_range. cbn [dim0 dim1 dim2 at_].
  unfold norm_index.
  destruct (first_prediction_index <? 0) eqn:E1; [apply Z.ltb_lt in E1; lia|].
  destruct (roll_size0 <? 0) eqn:E2; [apply Z.ltb_lt in E2; lia|].
  destruct (n <? 0) eqn:E3; [apply Z.ltb_lt in E3; lia|].
  split.
  - f_equal. f_equal. lia.
  - intros i j k Hj. f_equal. lia.
Qed.


End Rollout.

(** *** The rollout on a concrete configuration *)

Definition example_model (icl ocl : Z) (loss : LossFn) (width : Z) : TFTModel :=
  {| input_chunk_length := icl;
     output_chunk_length := ocl;
     output_size := TFTModule.SizeInt width;
     hidden_size := 8;
     lstm_layers := 1;
     dropout := (1 # 10)%Q;
     loss_fn := loss;
     attention_head_size := 4;
     max_encoder_length := 10;
     hidden_continuous_size := 8;
     hidden_continuous_sizes := [];
     share_single_variable_networks := false;
     has_likelihood := false |}.

(** A network that answers every call with a constant tensor of [ocl] steps
    and [w] components for the batch of its past target. *)
Definition constant_network (ocl w : nat) (seed : nat)
  (x : tensor Z * option (tensor Z) * option (tensor Z) * option (tensor Z))
  : result (Forward.Output (tensor Z)) :=
  let '(past_target, _, _, _) := x in
  Ok (Forward.OneTensor (full (dim0 past_target) ocl w 0)).

(** A generator that hands out its count as the seed. *)
Definition counter (g : nat) : nat * nat := (g, S g).

(** One series with one target column and one future covariate known over
    [horizon] steps. *)
Definition example_batch (icl horizon : nat)
  : tensor Z * option (tensor Z) * option (tensor Z) * option (tensor Z)
    * option (tensor Z) :=
  (full 1 icl 1 0, None, Some (full 1 icl 1 0), Some (full 1 horizon 1 0), None).

Definition rollout_example (icl ocl w : nat) (loss : LossFn) (n roll : Z)
  (fuel : nat) : result (tensor Z) * nat :=
  get_batch_prediction Z
    (example_model (Z.of_nat icl) (Z.of_nat ocl) loss (Z.of_nat w)) 0
    seven_quantiles nat nat counter (constant_network ocl w) (fun _ o => Ok o)
    fuel n (example_batch icl 16) roll 0%nat.

(** The scenario of the specification: input chunk 5, output chunk 2,
    horizon 5, quantile loss with seven quantiles. *)
Lemma example_valid :
  valid_rollout Z (example_model 5 2 QuantileLoss 7) 0 seven_quantiles nat
    (constant_network 2 7) (fun _ o => Ok o)
    1 5 2 1 0 1 7 5 (example_batch 5 16) 2.
Proof.
  constructor; try reflexivity; try lia.
  - intros seed [[[pt pc] hfc] fc] (Hpt & _).
    apply dims_of_shape in Hpt. destruct Hpt as (H0 & _).
    eexists. split; [reflexivity|]. unfold shape. cbn. now rewrite H0.
  - intros _ seed t. now exists t.
  - intros _. exists 3%nat. split; [reflexivity | lia].
  - unfold batch_ok, example_batch. split; [reflexivity|]. split; [reflexivity|].
    split; eexists; (split; [reflexivity|]); cbn; repeat split; lia.
Qed.

(** The theorem on that scenario: three calls of the network give a tensor
    of shape (1, 5, 1). *)
Lemma rollout_returns_batch_n_width_witness :
  exists t g',
    rollout_example 5 2 7 QuantileLoss 5 2 5 = (Ok t, g') /\
    shape t = (1%nat, 5%nat, 1%nat).
Proof.
  exact (rollout_returns_batch_n_width Z (example_model 5 2 QuantileLoss 7) 0
           seven_quantiles nat nat counter (constant_network 2 7)
           (fun _ o => Ok o) 1 5 2 1 0 1 7 5 (example_batch 5 16) 2 5 0%nat
           example_valid (le_n 5)).
Defined.

(** C3 (as stated) fails: in that scenario the configured output width is 7
    (seven quantiles) and the returned tensor has 1 component, not 7. *)
Lemma rollout_width_counterexample :
  ~ (forall (A : Type) (self : TFTModel) (first_prediction_index : Z)
            (quantiles : list Q) (Gen Seed : Type) (next_seed : Gen -> Seed * Gen)
            (model : Seed -> tensor A * option (tensor A) * option (tensor A)
                             * option (tensor A)
                     -> result (Forward.Output (tensor A)))
            (sample : Seed -> Forward.Output (tensor A)
                      -> result (Forward.Output (tensor A)))
            (B icl ocl nt npc nfc W : nat) (n : Z)
            (batch : tensor A * option (tensor A) * option (tensor A)
                     * option (tensor A) * option (tensor A))
            (roll : Z) (fuel : nat) (g : Gen),
       valid_rollout A self first_prediction_index quantiles Seed model sample
                     B icl ocl nt npc nfc W n batch roll ->
       (Z.to_nat n <= fuel)%nat ->
       exists t g',
         get_batch_prediction A self first_prediction_index quantiles Gen Seed
           next_seed model sample fuel n batch roll g = (Ok t, g') /\
         shape t = (B, Z.to_nat n, W)).
Proof.
  intros H.
  destruct (H Z (example_model 5 2 QuantileLoss 7) 0 seven_quantiles nat nat
              counter (constant_network 2 7) (fun _ o => Ok o)
              1%nat 5%nat 2%nat 1%nat 0%nat 1%nat 7%nat 5 (example_batch 5 16) 2
              5%nat 0%nat example_valid (le_n 5))
    as (t & g' & E & Hs).
  apply dims_of_shape in Hs. destruct Hs as (_ & _ & H2).
  assert (Hw : match fst (get_batch_prediction Z (example_model 5 2 QuantileLoss 7)
                            0 seven_quantiles nat nat counter (constant_network 2 7)
                            (fun _ o => Ok o) 5 5 (example_batch 5 16) 2 0%nat)
               with
               | Ok t0 => dim2 t0 = 1%nat
               | _ => True
               end) by (vm_compute; reflexivity).
  rewrite E in Hw. cbn [fst] in Hw. lia.
Qed.

(** C2 at roll_size 3 with output chunk 4: at horizon 9 the call returns a
    tensor of 8 time steps, and at horizon 8 it raises on an assignment to a
    slice of the past window. *)
Theorem rollout_misses_horizon :
  (exists t g', rollout_example 5 4 1 (OtherLoss "MSELoss") 9 3 9 = (Ok t, g') /\
                shape t = (1%nat, 8%nat, 1%nat)) /\
  (exists e g', rollout_example 5 4 1 (OtherLoss "MSELoss") 8 3 8 = (Raise e, g')).
Proof.
  split.
  - assert (H : match fst (rollout_example 5 4 1 (OtherLoss "MSELoss") 9 3 9) with
                | Ok t => shape t = (1, 8, 1)%nat
                | _ => False
                end) by (vm_compute; reflexivity).
    destruct (rollout_example 5 4 1 (OtherLoss "MSELoss") 9 3 9) as [[t| |] g'];
      cbn [fst] in H; try contradiction.
    now exists t, g'.
  - assert (H : match fst (rollout_example 5 4 1 (OtherLoss "MSELoss") 8 3 8) with
                | Raise _ => True
                | _ => False
                end) by (vm_compute; exact I).
    destruct (rollout_example 5 4 1 (OtherLoss "MSELoss") 8 3 8) as [[|e|] g'];
      cbn [fst] in H; try contradiction.
    now exists e, g'.
Qed.

(** With roll_size equal to the output chunk the same configuration reaches
    horizons 9 and 8 exactly. *)
Example rollout_reaches_horizon_full_roll :
  match fst (rollout_example 5 4 1 (OtherLoss "MSELoss") 9 4 9),
        fst (rollout_example 5 4 1 (OtherLoss "MSELoss") 8 4 8) with
  | Ok t9, Ok t8 => shape t9 = (1, 9, 1)%nat /\ shape t8 = (1, 8, 1)%nat
  | _, _ => False
  end.
Proof. vm_compute. split; reflexivity. Qed.

(** *** Two invocations *)

Section Determinism.

Variables (A : Type) (self : TFTModel) (first_prediction_index : Z)
          (quantiles : list Q) (Gen Seed : Type) (next_seed : Gen -> Seed * Gen).

(** The network and the likelihood. *)
Variable model1 :
  Seed -> tensor A * option (tensor A) * option (tensor A) * option (tensor A)
  -> result (Forward.Output (tensor A)).
Variable sample1 :
  Seed -> Forward.Output (tensor A) -> result (Forward.Output (tensor A)).

Section AnySeed.

(** A network that does not read its seed (dropout switched off), and no
    likelihood to sample from. *)
Hypothesis Hseedless : forall seed seed' x, model1 seed x = model1 seed' x.
Hypothesis Hno_likelihood : has_likelihood self = false.

Lemma produce_predict_output_seedless
  (x : tensor A * option (tensor A) * option (tensor A) * option (tensor A))
  (g g' : Gen) :
  fst (produce_predict_output A self quantiles Gen Seed next_seed model1 sample1 x g) =
  fst (produce_predict_output A self quantiles Gen Seed next_seed model1 sample1 x g').
Proof.
  unfold produce_predict_output.
  destruct (next_seed g) as [seed g1], (next_seed g') as [seed' g1'].
  cbn [fst]. rewrite Hno_likelihood, (Hseedless seed seed'). reflexivity.
Qed.

Lemma while_loop_seedless (n : Z) (f : Frame A) (fuel : nat) :
  forall (st : LoopState A) (g g' : Gen),
    fst (while_loop A self first_prediction_index quantiles Gen Seed next_seed
           model1 sample1 fuel n f st g) =
    fst (while_loop A self first_prediction_index quantiles Gen Seed next_seed
           model1 sample1 fuel n f st g').
Proof.
  induction fuel as [|fuel IH]; intros st g g'; cbn [while_loop];
    destruct (prediction_length A st <? n); try reflexivity.
  apply StateResult.bind_result_ext; [|intros; apply IH]. unfold loop_body.
  apply StateResult.bind_result_ext; [reflexivity|]. intros [[roll pl] bp] g1 g1'.
  apply StateResult.bind_result_ext; [reflexivity|]. intros [ip right_past] g2 g2'.
  apply StateResult.bind_result_ext; [reflexivity|]. intros input_future g3 g3'.
  apply StateResult.bind_result_ext; [apply produce_predict_output_seedless|].
  intros o g4 g4'.
  apply StateResult.bind_result_ext; [reflexivity|]. reflexivity.
Qed.

(** The bookkeeping of the rollout draws nothing from the generator: with
    such a network the result is the same from every generator state, so a
    second invocation returns what the first one returned. *)
Lemma rollout_result_independent_of_generator (fuel : nat) (n : Z)
  (input_batch : tensor A * option (tensor A) * option (tensor A)
                 * option (tensor A) * option (tensor A))
  (roll_size0 : Z) (g g' : Gen) :
  fst (get_batch_prediction A self first_prediction_index quantiles Gen Seed
         next_seed model1 sample1 fuel n input_batch roll_size0 g) =
  fst (get_batch_prediction A self first_prediction_index quantiles Gen Seed
         next_seed model1 sample1 fuel n input_batch roll_size0 g').
Proof.
  destruct input_batch as [[[[pt pc] hfc] fc] fpc]. unfold get_batch_prediction.
  apply StateResult.bind_result_ext; [reflexivity|]. intros ip g1 g1'.
  apply StateResult.bind_result_ext; [apply produce_predict_output_seedless|].
  intros o g2 g2'.
  apply StateResult.bind_result_ext; [reflexivity|]. intros out0 g3 g3'.
  apply StateResult.bind_result_ext; [apply while_loop_seedless|].
  intros st g4 g4'.
  apply StateResult.bind_result_ext; [reflexivity|]. reflexivity.
Qed.

End AnySeed.

End Determinism.

(** *** Two invocations, generator by generator *)

Section TwoRuns.

Variables (A : Type) (self : TFTModel) (first_prediction_index : Z)
          (quantiles : list Q).

(** The generator, the network and the likelihood of each invocation. *)
Variables (Gen1 Seed1 Gen2 Seed2 : Type).
Variable next_seed1 : Gen1 -> Seed1 * Gen1.
Variable next_seed2 : Gen2 -> Seed2 * Gen2.
Variable model1 :
  Seed1 -> tensor A * option (tensor A) * option (tensor A) * option (tensor A)
  -> result (Forward.Output (tensor A)).
Variable model2 :
  Seed2 -> tensor A * option (tensor A) * option (tensor A) * option (tensor A)
  -> result (Forward.Output (tensor A)).
Variable sample1 :
  Seed1 -> Forward.Output (tensor A) -> result (Forward.Output (tensor A)).
Variable sample2 :
  Seed2 -> Forward.Output (tensor A) -> result (Forward.Output (tensor A)).

(** A relation between the generator states of the two invocations. *)
Variable related : Gen1 -> Gen2 -> Prop.

(** From related states the two generators hand out seeds under which the
    two networks compute the same function, and so do the two likelihoods
    when the model has one; and the states they move to are related
    again. *)
Definition same_draws : Prop :=
  forall g1 g2, related g1 g2 ->
    (forall x, model1 (fst (next_seed1 g1)) x = model2 (fst (next_seed2 g2)) x) /\
    (has_likelihood self = true ->
     forall o, sample1 (fst (next_seed1 g1)) o = sample2 (fst (next_seed2 g2)) o) /\
    related (snd (next_seed1 g1)) (snd (next_seed2 g2)).

(** Two computations agree: from related states they end in the same
    result and in related states. *)
Definition agree {X : Type} (c1 : StateResult.M Gen1 X) (c2 : StateResult.M Gen2 X)
  : Prop :=
  forall g1 g2, related g1 g2 ->
    fst (c1 g1) = fst (c2 g2) /\ related (snd (c1 g1)) (snd (c2 g2)).

Lemma agree_pure {X : Type} (r : result X) :
  agree (StateResult.pure r) (StateResult.pure r).
Proof. intros g1 g2 H. split; [reflexivity | exact H]. Qed.

Lemma agree_ret {X : Type} (x : X) : agree (StateResult.ret x) (StateResult.ret x).
Proof. intros g1 g2 H. split; [reflexivity | exact H]. Qed.

Lemma agree_bind {X Y : Type}
  (c1 : StateResult.M Gen1 X) (c2 : StateResult.M Gen2 X)
  (k1 : X -> StateResult.M Gen1 Y) (k2 : X -> StateResult.M Gen2 Y) :
  agree c1 c2 -> (forall x, agree (k1 x) (k2 x)) ->
  agree (StateResult.bind c1 k1) (StateResult.bind c2 k2).
Proof.
  intros Hc Hk g1 g2 H. unfold StateResult.bind.
  destruct (Hc g1 g2 H) as (Hr & Hg).
  destruct (c1 g1) as [r1 g1'], (c2 g2) as [r2 g2']. cbn [fst snd] in Hr, Hg.
  subst r2. destruct r1 as [x| e |]; [now apply Hk | split; [reflexivity | exact Hg] ..].
Qed.

Hypothesis Hdraws : same_draws.

Lemma produce_predict_output_agree
  (x : tensor A * option (tensor A) * option (tensor A) * option (tensor A)) :
  agree (produce_predict_output A self quantiles Gen1 Seed1 next_seed1
           model1 sample1 x)
        (produce_predict_output A self quantiles Gen2 Seed2 next_seed2
           model2 sample2 x).
Proof.
  intros g1 g2 H. destruct (Hdraws g1 g2 H) as (Hm & Hs & Hg).
  unfold produce_predict_output.
  destruct (next_seed1 g1) as [seed1 g1'], (next_seed2 g2) as [seed2 g2'].
  cbn [fst snd] in *. split; [|exact Hg]. rewrite Hm.
  destruct (isinstance_QuantileLoss (loss_fn self)).
  - destruct (index_of (1 # 2)%Q quantiles) as [p|]; cbn [rbind]; [|reflexivity].
    destruct (model2 seed2 x) as [[t|ts]| |]; cbn [rbind]; try reflexivity.
    destruct (select_comp t p); cbn [rbind]; try reflexivity.
    destruct (has_likelihood self); [now apply Hs | reflexivity].
  - destruct (model2 seed2 x) as [o| |]; cbn [rbind]; try reflexivity.
    destruct (has_likelihood self); [now apply Hs | reflexivity].
Qed.

Lemma loop_body_agree (n : Z) (f : Frame A) (st : LoopState A) :
  agree (loop_body A self first_prediction_index quantiles Gen1 Seed1 next_seed1
           model1 sample1 n f st)
        (loop_body A self first_prediction_index quantiles Gen2 Seed2 next_seed2
           model2 sample2 n f st).
Proof.
  unfold loop_body.
  apply agree_bind; [apply agree_pure|]. intros [[roll pl] bp].
  apply agree_bind; [apply agree_pure|]. intros [ip right_past].
  apply agree_bind; [apply agree_pure|]. intros input_future.
  apply agree_bind; [apply produce_predict_output_agree|]. intros o.
  apply agree_bind; [apply agree_pure|]. intros out'. apply agree_ret.
Qed.

Lemma while_loop_agree (n : Z) (f : Frame A) (fuel : nat) :
  forall st : LoopState A,
    agree (while_loop A self first_prediction_index quantiles Gen1 Seed1
             next_seed1 model1 sample1 fuel n f st)
          (while_loop A self first_prediction_index quantiles Gen2 Seed2
             next_seed2 model2 sample2 fuel n f st).
Proof.
  induction fuel as [|fuel IH]; intros st; cbn [while_loop];
    destruct (prediction_length A st <? n); try apply agree_ret.
  - intros g1 g2 H. split; [reflexivity | exact H].
  - apply agree_bind; [apply loop_body_agree | exact IH].
Qed.

(** C9: the rollout reads the random generator only to hand a seed to each
    prediction call.  Two invocations on the same inputs (tensors, [n],
    [roll_size]) whose generators hand out, call after call, seeds under
    which the network and the likelihood compute the same functions end in
    the same result - the same tensor, entry for entry, or the same
    exception - and in related generator states.  This holds for the same
    generator state and parameters twice, and also for two different
    generator states when the network does not read its seed. *)
Theorem rollout_two_invocations_agree (fuel : nat) (n : Z)
  (input_batch : tensor A * option (tensor A) * option (tensor A)
                 * option (tensor A) * option (tensor A))
  (roll_size0 : Z) (g1 : Gen1) (g2 : Gen2) :
  related g1 g2 ->
  fst (get_batch_prediction A self first_prediction_index quantiles Gen1 Seed1
         next_seed1 model1 sample1 fuel n input_batch roll_size0 g1) =
  fst (get_batch_prediction A self first_prediction_index quantiles Gen2 Seed2
         next_seed2 model2 sample2 fuel n input_batch roll_size0 g2) /\
  related
    (snd (get_batch_prediction A self first_prediction_index quantiles Gen1 Seed1
            next_seed1 model1 sample1 fuel n input_batch roll_size0 g1))
    (snd (get_batch_prediction A self first_prediction_index quantiles Gen2 Seed2
            next_seed2 model2 sample2 fuel n input_batch roll_size0 g2)).
Proof.
  revert g1 g2.
  change (agree
            (get_batch_prediction A self first_prediction_index quantiles Gen1
               Seed1 next_seed1 model1 sample1 fuel n input_batch roll_size0)
            (get_batch_prediction A self first_prediction_index quantiles Gen2
               Seed2 next_seed2 model2 sample2 fuel n input_batch roll_size0)).
  destruct input_batch as [[[[pt pc] hfc] fc] fpc]. unfold get_batch_prediction.
  apply agree_bind; [apply agree_pure|]. intros ip.
  apply agree_bind; [apply produce_predict_output_agree|]. intros o.
  apply agree_bind; [apply agree_pure|]. intros out0.
  apply agree_bind; [apply while_loop_agree|]. intros st.
  apply agree_bind; [apply agree_pure|]. intros p. apply agree_ret.
Qed.

End TwoRuns.

(** A network that reads its seed: every entry of its answer is the seed
    it ran under. *)
Definition seeded_network (ocl w : nat) (seed : nat)
  (x : tensor Z * option (tensor Z) * option (tensor Z) * option (tensor Z))
  : result (Forward.Output (tensor Z)) :=
  let '(past_target, _, _, _) := x in
  Ok (Forward.OneTensor (full (dim0 past_target) ocl w (Z.of_nat seed))).

(** A generator that hands out the seeds of [counter] and also counts its
    draws. *)
Definition tallying_counter (g : nat * nat) : nat * (nat * nat) :=
  (fst g, (S (fst g), S (snd g))).

(** The theorem for the seed-reading network on the scenario of the
    specification: an invocation over [counter] from state 3 and one over
    the tallying generator from the same count return the same result, and
    end on the same count. *)
Lemma rollout_two_invocations_agree_witness :
  fst (get_batch_prediction Z (example_model 5 2 QuantileLoss 7) 0 seven_quantiles
         nat nat counter (seeded_network 2 7) (fun _ o => Ok o)
         5 5 (example_batch 5 16) 2 3%nat) =
  fst (get_batch_prediction Z (example_model 5 2 QuantileLoss 7) 0 seven_quantiles
         (nat * nat) nat tallying_counter (seeded_network 2 7) (fun _ o => Ok o)
         5 5 (example_batch 5 16) 2 (3%nat, 0%nat)) /\
  snd (get_batch_prediction Z (example_model 5 2 QuantileLoss 7) 0 seven_quantiles
         nat nat counter (seeded_network 2 7) (fun _ o => Ok o)
         5 5 (example_batch 5 16) 2 3%nat) =
  fst (snd (get_batch_prediction Z (example_model 5 2 QuantileLoss 7) 0
              seven_quantiles (nat * nat) nat tallying_counter
              (seeded_network 2 7) (fun _ o => Ok o)
              5 5 (example_batch 5 16) 2 (3%nat, 0%nat))).
Proof.
  apply (rollout_two_invocations_agree Z (example_model 5 2 QuantileLoss 7) 0
           seven_quantiles nat nat (nat * nat)%type nat counter tallying_counter
           (seeded_network 2 7) (seeded_network 2 7)
           (fun _ o => Ok o) (fun _ o => Ok o)
           (fun g1 g2 => g1 = fst g2)).
  - intros g1 [g2 t] H. cbn in H. subst g2. cbn. repeat split.
  - reflexivity.
Defined.

(** The seed does reach the network: from two different generator states
    the seed-reading network gives two different predictions. *)
Example rollout_of_seeded_network_depends_on_seed :
  match
    fst (get_batch_prediction Z (example_model 5 2 (OtherLoss "MSELoss") 1) 0
           seven_quantiles nat nat counter (seeded_network 2 1) (fun _ o => Ok o)
           5 5 (example_batch 5 16) 2 3%nat),
    fst (get_batch_prediction Z (example_model 5 2 (OtherLoss "MSELoss") 1) 0
           seven_quantiles nat nat counter (seeded_network 2 1) (fun _ o => Ok o)
           5 5 (example_batch 5 16) 2 4%nat)
  with
  | Ok t1, Ok t2 => at_ t1 0%nat 0%nat 0%nat <> at_ t2 0%nat 0%nat 0%nat
  | _, _ => False
  end.
Proof. vm_compute. discriminate. Qed.

(** *** The behaviour theorems on concrete rollouts *)

(** A network whose entry at component [k] is [k], at every step. *)
Definition column_network (ocl w : nat) (seed : nat)
  (x : tensor Z * option (tensor Z) * option (tensor Z) * option (tensor Z))
  : result (Forward.Output (tensor Z)) :=
  let '(past_target, _, _, _) := x in
  Ok (Forward.OneTensor
        {| dim0 := dim0 past_target; dim1 := ocl; dim2 := w;
           at_ := fun _ _ k => Z.of_nat k |}).

(** A network with two targets: it answers with a list of two tensors. *)
Definition list_network (ocl w : nat) (seed : nat)
  (x : tensor Z * option (tensor Z) * option (tensor Z) * option (tensor Z))
  : result (Forward.Output (tensor Z)) :=
  let '(past_target, _, _, _) := x in
  Ok (Forward.TensorList [full (dim0 past_target) ocl w 0;
                          full (dim0 past_target) ocl w 0]).

(** Horizon 5 in chunks of 2: three calls, three seeds. *)
Lemma rollout_draws_one_seed_per_chunk_witness :
  snd (rollout_example 5 2 7 QuantileLoss 5 2 5) = 3%nat.
Proof.
  unfold rollout_example.
  eapply (rollout_draws_one_seed_per_chunk Z
            (example_model (Z.of_nat 5) (Z.of_nat 2) QuantileLoss (Z.of_nat 7)) 0
            seven_quantiles nat nat counter (constant_network 2 7)
            (fun _ o => Ok o) 5 5 (example_batch 5 16) 2 0%nat).
  - cbn. lia.
  - vm_compute. reflexivity.
Defined.

(** The same rollout on a batch without future covariates. *)
Lemma rollout_without_future_covariates_never_returns_witness :
  fst (get_batch_prediction Z (example_model 5 2 QuantileLoss 7) 0
         seven_quantiles nat nat counter (constant_network 2 7)
         (fun _ o => Ok o) 5 5
         (full 1 5 1 0, None, None, None, None) 2 0%nat)
  <> Ok (full 1 5 1 0).
Proof.
  apply (rollout_without_future_covariates_never_returns Z
           (example_model 5 2 QuantileLoss 7) 0 seven_quantiles nat nat counter
           (constant_network 2 7) (fun _ o => Ok o) 5 5
           (full 1 5 1 0) None None None 2 0%nat (full 1 5 1 0)).
  lia.
Defined.

(** Horizon 5 in chunks of 2 needs two turns of the loop. *)
Lemma rollout_loop_terminates_witness :
  fst (rollout_example 5 2 7 QuantileLoss 5 2 2) <> OutOfFuel /\
  rollout_example 5 2 7 QuantileLoss 5 2 9 = rollout_example 5 2 7 QuantileLoss 5 2 2.
Proof.
  unfold rollout_example.
  apply (rollout_loop_terminates Z
           (example_model (Z.of_nat 5) (Z.of_nat 2) QuantileLoss (Z.of_nat 7)) 0
           seven_quantiles nat nat counter (constant_network 2 7)
           (fun _ o => Ok o)).
  - intros seed [[[pt pc] hfc] fc]. discriminate.
  - intros seed o. discriminate.
  - cbn. lia.
  - vm_compute. lia.
  - lia.
Defined.

(** Seven quantile levels with 0.5 at position 3: the prediction is
    column 3 of the network output. *)
Lemma predict_output_is_median_column_witness :
  exists t',
    produce_predict_output Z (example_model 5 2 QuantileLoss 7) seven_quantiles
      nat nat counter (column_network 2 7) (fun _ o => Ok o)
      (full 1 5 1 0, None, Some (full 1 5 1 0), Some (full 1 2 1 0)) 0%nat
    = (Ok (Forward.OneTensor t'), 1%nat) /\
    shape t' = (1%nat, 2%nat, 1%nat) /\
    forall i j k, at_ t' i j k = 3.
Proof.
  apply (predict_output_is_median_column Z (example_model 5 2 QuantileLoss 7)
           seven_quantiles nat nat counter (column_network 2 7) (fun _ o => Ok o)
           (full 1 5 1 0, None, Some (full 1 5 1 0), Some (full 1 2 1 0)) 0%nat
           {| dim0 := 1; dim1 := 2; dim2 := 7; at_ := fun _ _ k => Z.of_nat k |}
           3%nat).
  - reflexivity.
  - reflexivity.
  - reflexivity.
  - reflexivity.
  - reflexivity.
  - cbn. lia.
Defined.

(** A rollout over the network with two targets. *)
Lemma rollout_of_list_output_never_returns_witness :
  fst (get_batch_prediction Z (example_model 5 2 (OtherLoss "MSELoss") 1) 0
         seven_quantiles nat nat counter (list_network 2 1)
         (fun _ o => Ok o) 5 5 (example_batch 5 16) 2 0%nat)
  <> Ok (full 1 5 1 0).
Proof.
  apply (rollout_of_list_output_never_returns Z
           (example_model 5 2 (OtherLoss "MSELoss") 1) 0 seven_quantiles
           nat nat counter (list_network 2 1) (fun _ o => Ok o) 5 5
           (example_batch 5 16) 2 0%nat (full 1 5 1 0)).
  - reflexivity.
  - intros seed [[[pt pc] hfc] fc] o H. injection H as <-. eexists. reflexivity.
Defined.

(** A past window of 5 steps with one target and one future covariate,
    whose entry at step [j], component [k] is [10 j + k]; a prediction whose
    entry at step [j] is [100 + j]; covariates known over 16 steps. *)
Definition example_window : tensor Z :=
  {| dim0 := 1; dim1 := 5; dim2 := 2;
     at_ := fun _ j k => 10 * Z.of_nat j + Z.of_nat k |}.

Definition example_prediction : tensor Z :=
  {| dim0 := 1; dim1 := 2; dim2 := 1; at_ := fun _ j _ => 100 + Z.of_nat j |}.

Definition example_frame : Frame Z :=
  {| n_targets := 1; n_past_covs := 0; n_future_covs := 1;
     future_covariates := Some (full 1 16 1 7);
     future_past_covariates := None |}.

(** After a feedback step of 2: step 0 holds what step 2 held, and the
    target at steps 3 and 4 is the prediction. *)
Lemma update_past_slides_window_witness :
  exists ip',
    update_past Z (example_model 5 2 (OtherLoss "MSELoss") 1) example_frame
      example_window example_prediction 2 2 = Ok (ip', 2) /\
    shape ip' = (1%nat, 5%nat, 2%nat) /\
    at_ ip' 0%nat 0%nat 0%nat = 20 /\
    at_ ip' 0%nat 3%nat 0%nat = 100 /\
    at_ ip' 0%nat 4%nat 0%nat = 101.
Proof.
  destruct (update_past Z (example_model 5 2 (OtherLoss "MSELoss") 1) example_frame
              example_window example_prediction 2 2) as [[ip' rp]| e |] eqn:E;
    try (vm_compute in E; discriminate).
  pose proof (update_past_right Z _ _ _ _ _ _ _ _ E) as ->.
  destruct (update_past_slides_window Z (example_model 5 2 (OtherLoss "MSELoss") 1)
              example_frame example_window example_prediction ip' 2 2 2
              eq_refl ltac:(cbn; lia) ltac:(cbn; lia) E)
    as (Hs & Hshift & Htarget).
  exists ip'. split; [reflexivity|]. split; [exact Hs|].
  split; [|split].
  - apply (Hshift 0%nat 0%nat 0%nat). cbn. lia.
  - apply (Htarget eq_refl eq_refl ltac:(cbn; lia) 0%nat 0%nat 0%nat); cbn; lia.
  - apply (Htarget eq_refl eq_refl ltac:(cbn; lia) 0%nat 1%nat 0%nat); cbn; lia.
Defined.


(** Horizon 2 with chunks of 2: one call, and the result is the network
    output, here column 3 (the median) of the column network. *)
Lemma rollout_within_first_chunk_witness :
  exists t,
    get_batch_prediction Z (example_model 5 2 QuantileLoss 7) 0 seven_quantiles
      nat nat counter (column_network 2 7) (fun _ o => Ok o) 0 2
      (example_batch 5 16) 2 0%nat = (Ok t, 1%nat) /\
    shape t = (1%nat, 2%nat, 1%nat) /\
    forall i j k, (j < dim1 t)%nat -> at_ t i j k = 3.
Proof.
  exact (rollout_within_first_chunk Z (example_model 5 2 QuantileLoss 7) 0
           seven_quantiles nat nat counter (column_network 2 7) (fun _ o => Ok o)
           0 2 (full 1 5 1 0) None (Some (full 1 5 1 0)) (Some (full 1 16 1 0)) None
           2 0%nat 1%nat
           {| dim0 := 1; dim1 := 5; dim2 := 2;
              at_ := fun i j k => if (k <? 1)%nat then 0 else 0 |}
           {| dim0 := 1; dim1 := 2; dim2 := 1; at_ := fun _ _ _ => 3 |}
           ltac:(lia) ltac:(lia) eq_refl eq_refl).
Defined.


End Rollout.
